(** * Theme-insight pipeline: a shallow embedding and its properties

    The development follows [backend/generate_theme_insight2.py] (the
    cluster-based pipeline), [backend/generate_theme_insights.py] (the
    basic pipeline) and the read side in [backend/routes/analysis.py].

    Conventions of the embedding.
    - A Python [str] is a [string]; its characters are the code points
      below 256.
    - A Python [int] is a [Z].  The floats of the sampler go through the
      interface [FloatArith], implemented by IEEE 754 binary64 (what
      CPython computes with) and by exact rationals (the idealisation in
      which the general properties are proved).
    - A call that may raise returns a [result]; an [exn] is an exception
      that [except Exception] catches, and the handler is a match on
      [Raise].
    - The external capabilities (chat completion, embeddings, KMeans, the
      comment store, [json.loads]) are variables of the sections that use
      them; calls that talk to a service thread an abstract world [W].
    - [print] is not modelled. *)

From Stdlib Require Import QArith Qround Lqa Ascii String.
From Stdlib Require Import PrimFloat FloatOps SpecFloat Uint63.
From stdpp Require Import gmap strings list sorting pretty.

Local Open Scope string_scope.
Local Open Scope Z_scope.

(** ** Exceptions and results *)

Inductive exn : Type :=
  | ZeroDivisionError
  | OverflowError
  | ValueError
  | IndexError
  | AttributeError
  | TypeError
  | JSONDecodeError
  | ServiceError (msg : string).

Inductive result (A : Type) : Type :=
  | Ok (a : A)
  | Raise (e : exn).
Arguments Ok {A} a.
Arguments Raise {A} e.

Definition rbind {A B} (r : result A) (k : A → result B) : result B :=
  match r with
  | Ok a => k a
  | Raise e => Raise e
  end.

#[global] Instance result_ret : MRet result := @Ok.
#[global] Instance result_bind : MBind result := λ A B k r, rbind r k.

(** A computation that talks to the outside world [W]: the world is
    threaded through, also when the computation raises. *)
Definition M (W A : Type) : Type := W → W * result A.

Definition M_ret {W A} (a : A) : M W A := λ w, (w, Ok a).

Definition M_bind {W A B} (m : M W A) (k : A → M W B) : M W B :=
  λ w, match m w with
       | (w', Ok a) => k a w'
       | (w', Raise e) => (w', Raise e)
       end.

#[global] Instance M_mret {W} : MRet (M W) := @M_ret W.
#[global] Instance M_mbind {W} : MBind (M W) := λ A B k m, M_bind m k.

(** [try: body  except Exception as e: handler] *)
Definition try_except {W A} (body : M W A) (handler : exn → M W A) : M W A :=
  λ w, match body w with
       | (w', Ok a) => (w', Ok a)
       | (w', Raise e) => handler e w'
       end.

(** A step that does not touch the world. *)
Definition lift {W A} (r : result A) : M W A := λ w, (w, r).

(** ** Python list and number primitives *)

(** [len(l)] *)
Definition len {A} (l : list A) : Z := Z.of_nat (length l).

(** [l[i]]: a negative index counts from the end, an index out of range
    raises [IndexError]. *)
Definition py_getitem {A} (l : list A) (i : Z) : result A :=
  let j := if i <? 0 then len l + i else i in
  if j <? 0 then Raise IndexError
  else match l !! Z.to_nat j with
       | Some x => Ok x
       | None => Raise IndexError
       end.

(** ** Float arithmetic

    What the sampler needs of Python floats: the constant [0.0], the
    quotient [a / b] of two ints ([b] not zero), [x + y], and [int(x)]. *)
Class FloatArith (F : Type) : Type := {
  float_zero : F;
  float_ratio : Z → Z → F;
  float_add : F → F → F;
  float_to_int : F → result Z;
}.

(** [a / b] on two ints. *)
Definition py_truediv (F : Type) `{FloatArith F} (a b : Z) : result F :=
  if b =? 0 then Raise ZeroDivisionError else Ok (float_ratio a b).

(** Exact rationals: no rounding, and [int(x)] truncates towards zero. *)
Definition py_int (x : Q) : Z := Z.quot (Qnum x) (Z.pos (Qden x)).

#[global] Instance exact_arith : FloatArith Q := {|
  float_zero := inject_Z 0;
  float_ratio := λ a b, Qdiv (inject_Z a) (inject_Z b);
  float_add := Qplus;
  float_to_int := λ x, Ok (py_int x);
|}.

(** IEEE 754 binary64.  The conversion of an int is exact below [2^53] in
    absolute value, and then the quotient of the two floats is the
    correctly rounded quotient of the ints, as in Python; [int(x)]
    truncates towards zero and raises on an infinity or a NaN. *)
Definition binary64_of_int (z : Z) : float :=
  if z <? 0 then PrimFloat.opp (PrimFloat.of_uint63 (Uint63.of_Z (- z)))
  else PrimFloat.of_uint63 (Uint63.of_Z z).

Definition binary64_to_int (x : float) : result Z :=
  match Prim2SF x with
  | S754_zero _ => Ok 0
  | S754_finite negative m e =>
      let magnitude :=
        if 0 <=? e then Z.shiftl (Z.pos m) e else Z.shiftr (Z.pos m) (- e) in
      Ok (if negative then - magnitude else magnitude)
  | S754_infinity _ => Raise OverflowError
  | S754_nan => Raise ValueError
  end.

#[global] Instance binary64_arith : FloatArith float := {|
  float_zero := PrimFloat.zero;
  float_ratio := λ a b, PrimFloat.div (binary64_of_int a) (binary64_of_int b);
  float_add := PrimFloat.add;
  float_to_int := binary64_to_int;
|}.

(** ** The Sampler

    [_evenly_sample] of generate_theme_insight2.py and
    [_select_diverse_samples] of generate_theme_insights.py. *)

(** [while pos in used and pos < len(items) - 1: pos += 1].
    [room] is [len(items) - 1 - pos], the number of times the second
    conjunct can still hold. *)
Fixpoint advance (room : nat) (used : gset Z) (pos : Z) : Z :=
  match room with
  | O => pos
  | S room' => if decide (pos ∈ used) then advance room' used (pos + 1) else pos
  end.

Definition while_advance (used : gset Z) (n : Z) (pos : Z) : Z :=
  advance (Z.to_nat (n - 1 - pos)) used pos.

(** The body of [for _ in range(max_samples)], run [iters] times.  The
    last component is a ghost trace, absent from the source: for every
    slot, the candidate [int(idx)] and the index finally taken. *)
Fixpoint sample_loop {F} `{FloatArith F} {A} (items : list A) (step : F)
    (iters : nat) (idx : F) (used : gset Z) (samples : list A)
    (trace : list (Z * Z)) : result (list A * list (Z * Z)) :=
  match iters with
  | O => Ok (samples, trace)
  | S iters' =>
      cand ← float_to_int idx;
      let pos := while_advance used (len items) cand in
      x ← py_getitem items pos;
      sample_loop items step iters' (float_add idx step) ({[pos]} ∪ used)
                  (samples ++ [x]) (trace ++ [(cand, pos)])
  end.

(** The sampler together with its ghost trace. *)
Definition evenly_sample_traced (F : Type) `{FloatArith F} {A} (items : list A)
    (max_samples : Z) : result (list A * list (Z * Z)) :=
  if len items <=? max_samples then Ok (items, [])
  else
    step ← py_truediv F (len items) max_samples;
    sample_loop items step (Z.to_nat max_samples) float_zero ∅ [] [].

Definition _evenly_sample (F : Type) `{FloatArith F} {A} (items : list A)
    (max_samples : Z) : result (list A) :=
  r ← evenly_sample_traced F items max_samples; Ok r.1.

(** Same body in generate_theme_insights.py (there the default cap is 40
    and the short-list case returns the argument itself, not a copy). *)
Definition _select_diverse_samples (F : Type) `{FloatArith F} {A}
    (contents : list A) (max_samples : Z) : result (list A) :=
  _evenly_sample F contents max_samples.

(** The indices chosen and the candidates, read off the ghost trace. *)
Definition sampled_positions (F : Type) `{FloatArith F} {A} (items : list A)
    (max_samples : Z) : result (list Z) :=
  r ← evenly_sample_traced F items max_samples; Ok (r.2.*2).

Definition sampled_candidates (F : Type) `{FloatArith F} {A} (items : list A)
    (max_samples : Z) : result (list Z) :=
  r ← evenly_sample_traced F items max_samples; Ok (r.2.*1).

(** ** Python str primitives *)

(** [c.isspace()] for a code point below 256. *)
Definition isspace (c : ascii) : bool :=
  let n := N_of_ascii c in
  (((9 <=? n) && (n <=? 13)) || ((28 <=? n) && (n <=? 32))
   || (n =? 133) || (n =? 160))%N.

Fixpoint lstrip (s : string) : string :=
  match s with
  | EmptyString => EmptyString
  | String c s' => if isspace c then lstrip s' else s
  end.

Fixpoint rstrip (s : string) : string :=
  match s with
  | EmptyString => EmptyString
  | String c s' =>
      match rstrip s' with
      | EmptyString => if isspace c then EmptyString else String c EmptyString
      | r => String c r
      end
  end.

(** [s.strip()] *)
Definition strip (s : string) : string := rstrip (lstrip s).

(** [c.lower()] for a code point below 256. *)
Definition lower_char (c : ascii) : ascii :=
  let n := N_of_ascii c in
  if (((65 <=? n) && (n <=? 90))
      || ((192 <=? n) && (n <=? 222) && negb (n =? 215)))%N
  then ascii_of_N (n + 32) else c.

(** [s.lower()] *)
Fixpoint lower (s : string) : string :=
  match s with
  | EmptyString => EmptyString
  | String c s' => String (lower_char c) (lower s')
  end.

(** [s[:k]] *)
Definition str_prefix (k : nat) (s : string) : string := String.substring 0 k s.

(** [s.startswith(p)] *)
Definition startswith (p s : string) : bool := String.prefix p s.

(** Line boundaries of [str.splitlines] other than ["\r"]: line feed,
    vertical tab, form feed, the separators 28 to 30 and next line (133). *)
Definition is_linebreak (c : ascii) : bool :=
  let n := N_of_ascii c in
  ((n =? 10) || (n =? 11) || (n =? 12) || ((28 <=? n) && (n <=? 30)) || (n =? 133))%N.

Definition snoc_char (s : string) (c : ascii) : string := s ++ String c EmptyString.

(** [s.splitlines()], with [cur] the line read so far. *)
Fixpoint splitlines_from (cur : string) (s : string) : list string :=
  match s with
  | EmptyString => match cur with EmptyString => [] | _ => [cur] end
  | String c s' =>
      if (N_of_ascii c =? 13)%N then
        match s' with
        | String c' s'' =>
            if (N_of_ascii c' =? 10)%N then cur :: splitlines_from EmptyString s''
            else cur :: splitlines_from EmptyString s'
        | EmptyString => [cur]
        end
      else if is_linebreak c then cur :: splitlines_from EmptyString s'
      else splitlines_from (snoc_char cur c) s'
  end.

Definition splitlines (s : string) : list string := splitlines_from EmptyString s.

(** [len(s.split())]: the number of maximal runs without whitespace. *)
Fixpoint count_words_from (in_word : bool) (s : string) : Z :=
  match s with
  | EmptyString => 0
  | String c s' =>
      if isspace c then count_words_from false s'
      else (if in_word then 0 else 1) + count_words_from true s'
  end.

Definition count_words (s : string) : Z := count_words_from false s.

(** [sum(l)] *)
Definition py_sum (l : list Z) : Z := foldr Z.add 0 l.

(** [sep.join(l)] *)
Definition join (sep : string) (l : list string) : string := String.concat sep l.

(** [list.sort(key=..., reverse=True)] and [sorted(..., reverse=True)]:
    the sort is stable, so the result is the one of a stable insertion
    sort by descending key. *)
Fixpoint insert_desc {A} (key : A → Z) (x : A) (l : list A) : list A :=
  match l with
  | [] => [x]
  | y :: l' => if key x <? key y then y :: insert_desc key x l' else x :: l
  end.

Definition sort_desc {A} (key : A → Z) (l : list A) : list A :=
  foldr (insert_desc key) [] l.

(** [sorted(set(l))] on strings: the distinct elements in increasing
    order. *)
Fixpoint insert_unique (x : string) (l : list string) : list string :=
  match l with
  | [] => [x]
  | y :: l' =>
      match String.compare x y with
      | Lt => x :: l
      | Eq => l
      | Gt => y :: insert_unique x l'
      end
  end.

Definition sorted_set (l : list string) : list string :=
  foldr insert_unique [] l.

(** [l[:k]] for an int [k] that may be negative. *)
Definition py_slice_to {A} (l : list A) (k : Z) : list A :=
  if k <? 0 then take (Z.to_nat (len l + k)) l else take (Z.to_nat k) l.

(** ** Keyword Extractor *)

Definition BASE_STOP_WORDS : gset string := list_to_set
  [ "the"; "and"; "for"; "with"; "that"; "this"; "from"; "have"; "has"; "had"; "was"; "were";
    "are"; "been"; "but"; "not"; "you"; "your"; "they"; "their"; "them"; "our"; "out"; "into";
    "about"; "just"; "very"; "much"; "more"; "than"; "also"; "can"; "will"; "would"; "could";
    "should"; "one"; "two"; "three"; "get"; "got"; "make"; "made"; "even"; "still"; "over";
    "well"; "per"; "each"; "every"; "across"; "because"; "while"; "when"; "where"; "what";
    "who"; "why"; "how"; "does"; "did"; "doing"; "done"; "other"; "another"; "such"; "like";
    "some"; "any"; "all"; "many"; "most"; "few"; "new"; "old" ].

Definition CUSTOM_STOP_WORDS : gset string := list_to_set
  [ "rio"; "tinto"; "riotinto"; "rt"; "company"; "work"; "working"; "worked"; "role"; "job";
    "jobs"; "people"; "person"; "team"; "teams"; "employee"; "employees"; "staff"; "manager";
    "management"; "business"; "place"; "industry"; "site"; "sites"; "mine"; "mines"; "mining";
    "year"; "years"; "month"; "months"; "day"; "days"; "time"; "times"; "pros"; "cons";
    "advice"; "summary"; "review"; "reviews" ].

Definition STOP_WORDS : gset string := BASE_STOP_WORDS ∪ CUSTOM_STOP_WORDS.

Definition is_ascii_letter (c : ascii) : bool :=
  let n := N_of_ascii c in
  (((65 <=? n) && (n <=? 90)) || ((97 <=? n) && (n <=? 122)))%N.

Definition emit_token (cur : string) : list string :=
  if (3 <=? String.length cur)%nat then [cur] else [].

(** [TOKEN_PATTERN.findall(s)] for the pattern [[a-zA-Z]{3,}]: the maximal
    runs of letters that have at least three letters. *)
Fixpoint findall_from (cur : string) (s : string) : list string :=
  match s with
  | EmptyString => emit_token cur
  | String c s' =>
      if is_ascii_letter c then findall_from (snoc_char cur c) s'
      else emit_token cur ++ findall_from EmptyString s'
  end.

Definition TOKEN_PATTERN_findall (s : string) : list string :=
  findall_from EmptyString s.

(** [Counter]: counts kept in order of first occurrence. *)
Fixpoint counter_add (w : string) (c : list (string * Z)) : list (string * Z) :=
  match c with
  | [] => [(w, 1)]
  | (w', n) :: c' =>
      if decide (w = w') then (w', n + 1) :: c' else (w', n) :: counter_add w c'
  end.

Definition Counter (tokens : list string) : list (string * Z) :=
  foldl (λ c w, counter_add w c) [] tokens.

(** [Counter.most_common(k)]: by descending count, ties in order of first
    occurrence. *)
Definition most_common (k : Z) (c : list (string * Z)) : list (string * Z) :=
  take (Z.to_nat k) (sort_desc snd c).

Definition keywords_from_texts (texts : list string) (top_k : Z) : list string :=
  let tokens :=
    t ← texts;
    filter (λ token, token ∉ STOP_WORDS) (TOKEN_PATTERN_findall (lower t)) in
  (most_common top_k (Counter tokens)).*1.

(** ** JSON values, as [json.loads] builds them *)

#[warnings="-register-all"] Inductive json : Type :=
  | JNull
  | JBool (b : bool)
  | JInt (n : Z)
  | JFloat (x : float)
  | JString (s : string)
  | JArray (l : list json)
  | JObject (fields : list (string * json)).

(** [d.get(key)] on the dict of an object, whose items [JObject] lists
    (a dict has each key once). *)
Fixpoint assoc_get (key : string) (fields : list (string * json)) : option json :=
  match fields with
  | [] => None
  | (k, v) :: fields' => if decide (k = key) then Some v else assoc_get key fields'
  end.

(** [data.get(key, default)]; a value without a [get] method raises
    [AttributeError]. *)
Definition json_get (data : json) (key : string) (default : json) : result json :=
  match data with
  | JObject fields => Ok (from_option id default (assoc_get key fields))
  | _ => Raise AttributeError
  end.

(** Truth value of a JSON value, as [x or y] and [if x] test it. *)
Definition truthy (v : json) : bool :=
  match v with
  | JNull => false
  | JBool b => b
  | JInt n => negb (n =? 0)
  | JFloat x => negb (PrimFloat.eqb x PrimFloat.zero)
  | JString s => negb (String.eqb s "")
  | JArray l => match l with [] => false | _ => true end
  | JObject fields => match fields with [] => false | _ => true end
  end.

(** [v.strip()]: only a [str] has the method. *)
Definition json_strip (v : json) : result string :=
  match v with
  | JString s => Ok (strip s)
  | _ => Raise AttributeError
  end.

(** [re.search(r'\{[\s\S]*\}', text)] and [.group()]: the match runs from
    the first opening brace to the last closing brace after it. *)
Fixpoint upto_last_close (s : string) : option string :=
  match s with
  | EmptyString => None
  | String c s' =>
      match upto_last_close s' with
      | Some r => Some (String c r)
      | None => if Ascii.eqb c "}" then Some (String c EmptyString) else None
      end
  end.

Fixpoint search_braces (text : string) : option string :=
  match text with
  | EmptyString => None
  | String c s' =>
      if Ascii.eqb c "{" then String c <$> upto_last_close s'
      else search_braces s'
  end.

(** ** Capabilities *)

Record Config : Type := {
  OPENAI_API_KEY : option string;
  OPENAI_MODEL : string;
}.

(** The condensed input of the basic pipeline's prompt
    ([_build_prompt_input]); [None_input] is the line for no comments.
    The average comment length that the text shows with one decimal is
    [word_count / total]; it is kept as its two operands. *)
Inductive PromptInput : Type :=
  | None_input (sentiment_label : string)
  | Summary_input (sentiment_label : string) (total : Z) (word_count : Z)
      (keyword_counts : list (string * Z)) (sample_lines : list string).

(** A prompt is kept as its template and the values interpolated into
    it; the fixed wording of the templates is not reproduced. *)
Inductive Prompt : Type :=
  | SummarisePrompt (feedback : string)
  | ClusterInsightPrompt (sentiment_label theme_name theme_type : string)
      (total_comments : Z) (cluster_block : string)
  | BasicInsightPrompt (sentiment_label theme_name theme_type : string)
      (prompt_input : PromptInput).

Record ChatRequest : Type := {
  model : string;
  system_message : string;
  user_message : Prompt;
  temperature : float;
  max_tokens : Z;
}.

(** The OpenAI client.  A chat completion answers with the [content] of
    each of its [choices] ([None] when the message has none); the
    embedding call answers with one vector per datum. *)
Record OpenAI (W Vec : Type) : Type := {
  chat_completions_create : ChatRequest → M W (list (option string));
  embeddings_create : string → list string → M W (list Vec);
}.
Arguments chat_completions_create {W Vec} _ _ _.
Arguments embeddings_create {W Vec} _ _ _ _.

(** Library code the pipeline calls: [KMeans] is [None] when sklearn
    cannot be imported, else [KMeans(n_clusters=k, random_state=42,
    n_init="auto").fit_predict]; [json.loads]; and [str] of a value that
    is not a [str]. *)
Record Libs (Vec : Type) : Type := {
  KMeans : option (Z → list Vec → result (list Z));
  json_loads : string → result json;
  str_other : json → string;
}.
Arguments KMeans {Vec} _.
Arguments json_loads {Vec} _ _.
Arguments str_other {Vec} _ _.

Record ThemeRow : Type := {
  base_theme : option string;
  sub_theme : option string;
}.

Record ContentRow : Type := {
  content : option string;
  sentiment : option string;
  likes : option Z;
}.

(** The comment store: the [data] of the two queries on table [cb]
    ([None] when the response carries no data).  [select_content column
    value limit] is the query for one theme, with its fixed exclusions. *)
Record Supabase (W : Type) : Type := {
  select_themes : M W (option (list ThemeRow));
  select_content : string → string → Z → M W (option (list ContentRow));
}.
Arguments select_themes {W} _ _.
Arguments select_content {W} _ _ _ _ _.

(** One side of an Insight, and the Insight record of a theme. *)
Record Synth : Type := {
  summary : string;
  recommendations : list string;
}.

Record Insight (S R : Type) : Type := {
  positive_summary : S;
  negative_summary : S;
  positive_recommendations : R;
  negative_recommendations : R;
}.
Arguments positive_summary {S R} _.
Arguments negative_summary {S R} _.
Arguments positive_recommendations {S R} _.
Arguments negative_recommendations {S R} _.

(** What [main] ends with: [sys.exit(code)], or the table it saves. *)
Inductive MainOutcome (T : Type) : Type :=
  | Exited (code : Z)
  | Saved (all_insights : T).
Arguments Exited {T} code.
Arguments Saved {T} all_insights.

Definition NL : string := String (ascii_of_nat 10) EmptyString.

(** The double quote character. *)
Definition DQ : string := String (ascii_of_nat 34) EmptyString.

(** [f"{theme_type}_{theme_name}"] *)
Definition insight_key (theme_type theme_name : string) : string :=
  theme_type ++ "_" ++ theme_name.

(** ** The cluster-based pipeline (generate_theme_insight2.py) *)

Module Advanced.

Definition MAX_COMMENTS_PER_THEME : Z := 600.
Definition MAX_SUMMARIES_PER_THEME : Z := 300.
Definition MIN_CLUSTER_SUMMARIES : Z := 12.
Definition MIN_POINTS_PER_CLUSTER : Z := 18.
Definition MAX_CLUSTERS : Z := 5.
Definition DEFAULT_EMBEDDING_MODEL : string := "text-embedding-3-small".

(** A cluster dict; [cluster_size] is its key ["size"]. *)
Record Cluster : Type := {
  cluster_id : Z;
  cluster_size : Z;
  summaries : list string;
  example_summaries : list string;
  keywords : list string;
}.

(** [Config] has no attribute [OPENAI_EMBEDDING_MODEL], so [getattr]
    gives the default. *)
Definition get_embedding_model_name : string := DEFAULT_EMBEDDING_MODEL.

(** [clusters[int(lbl)].append(summary)] on a [defaultdict(list)]: a dict
    keeps its keys in order of insertion. *)
Fixpoint dict_append {A} (k : Z) (x : A) (d : list (Z * list A)) : list (Z * list A) :=
  match d with
  | [] => [(k, [x])]
  | (k', xs) :: d' =>
      if decide (k = k') then (k', (xs ++ [x])%list) :: d' else (k', xs) :: dict_append k x d'
  end.

Definition group_by_label {A} (pairs : list (A * Z)) : list (Z * list A) :=
  foldl (λ d p, dict_append p.2 p.1 d) [] pairs.

Definition make_cluster (entry : Z * list string) : Cluster :=
  {| cluster_id := entry.1;
     cluster_size := len entry.2;
     summaries := entry.2;
     example_summaries := take 5 entry.2;
     keywords := keywords_from_texts entry.2 8 |}.

Definition single_cluster (summaries : list string) : list Cluster :=
  [ {| cluster_id := 0;
       cluster_size := len summaries;
       summaries := summaries;
       example_summaries := take 5 summaries;
       keywords := keywords_from_texts summaries 8 |} ].

Definition choose_k (n : Z) : Z :=
  let k := Z.max 2 (Z.min MAX_CLUSTERS (n `div` MIN_POINTS_PER_CLUSTER)) in
  let k := if k <=? 1 then 2 else k in
  if n <? k then n else k.

Definition build_cluster_prompt_block (clusters : list Cluster) : string :=
  join NL
    (c ← clusters;
     ([ "Sub-topic " +:+ pretty (cluster_id c)
          +:+ " (approx. " +:+ pretty (cluster_size c) +:+ " comments)";
        "  Keywords: "
          +:+ match keywords c with [] => "N/A" | kws => join ", " kws end;
        "  Example summaries:" ]
      ++ ((λ ex, "    " +:+ ex) <$> take 3 (example_summaries c))
      ++ [ "" ])%list).

Definition empty_insight : Synth := {| summary := ""; recommendations := [] |}.

Definition fallback_claim (text : string) : string := "- " ++ str_prefix 150 text.

Section Pipeline.
Context {W Vec : Type} (F : Type) `{FloatArith F}.
Context (config : Config) (libs : Libs Vec) (supabase : Supabase W).

Definition get_all_themes : M W (list string * list string) :=
  resp_data ← select_themes supabase;
  let data := default [] resp_data in
  let keep (v : option string) : option string :=
    match v with
    | Some s => if decide (s ∈ ["others"; "stock_market"; ""]) then None else Some s
    | None => None
    end in
  mret (sorted_set (omap (λ d, keep (base_theme d)) data),
        sorted_set (omap (λ d, keep (sub_theme d)) data)).

(** The loop of [get_theme_content] over the rows. *)
Fixpoint split_rows (all_data : list ContentRow) (pos neg : list string)
  : list string * list string :=
  match all_data with
  | [] => (pos, neg)
  | item :: rest =>
      let content := strip (default "" (content item)) in
      if decide (content = "") then split_rows rest pos neg
      else
        let sentiment := lower (default "" (sentiment item)) in
        let likes := default 0 (likes item) in
        let is_positive := bool_decide (sentiment = "positive") in
        let is_negative := bool_decide (sentiment = "negative") in
        let '(is_positive, is_negative) :=
          if negb is_positive && negb is_negative then
            if 5 <? likes then (true, is_negative)
            else if likes <? -5 then (is_positive, true)
            else (is_positive, is_negative)
          else (is_positive, is_negative) in
        if is_positive then split_rows rest (pos ++ [content]) neg
        else if is_negative then split_rows rest pos (neg ++ [content])
        else split_rows rest pos neg
  end.

Definition get_theme_content (theme_type theme_name : string)
  : M W (list string * list string) :=
  let column :=
    if decide (theme_type = "base_theme") then "base_theme" else "sub_theme" in
  resp_data ← select_content supabase column theme_name MAX_COMMENTS_PER_THEME;
  mret (split_rows (default [] resp_data) [] []).

(** The body of the loop of [summarize_comments] for one comment: the
    lines it adds to [summaries]. *)
#[warnings="-inexact-float"] Definition summarize_one (client : OpenAI W Vec)
    (text : string) : M W (list string) :=
  let prompt := SummarisePrompt (str_prefix 1000 text) in
  try_except
    (resp ← chat_completions_create client
       {| model := OPENAI_MODEL config;
          system_message := "You are a concise workplace culture analyst.";
          user_message := prompt;
          temperature := 0.3%float;
          max_tokens := 120 |};
     choice ← lift (py_getitem resp 0);
     let content := strip (default "" choice) in
     let lines :=
       strip <$> filter (λ ln, startswith "-" (strip ln)) (splitlines content) in
     mret (match lines with [] => [fallback_claim text] | _ => lines end))
    (λ e, mret [fallback_claim text]).

Fixpoint summarize_loop (client : OpenAI W Vec) (comments_to_use : list string)
    (summaries : list string) : M W (list string) :=
  match comments_to_use with
  | [] => mret summaries
  | text :: rest =>
      lines ← summarize_one client text;
      summarize_loop client rest (summaries ++ lines)
  end.

Definition summarize_comments (comments : list string) (client : OpenAI W Vec)
    (sentiment_label theme_name theme_type : string) (max_summaries : Z)
  : M W (list string) :=
  match comments with
  | [] => mret []
  | _ =>
      comments_to_use ← lift (_evenly_sample F comments max_summaries);
      summarize_loop client comments_to_use []
  end.

Definition embed_texts (texts : list string) (client : OpenAI W Vec)
  : M W (list Vec) :=
  match texts with
  | [] => mret []
  | _ => embeddings_create client get_embedding_model_name texts
  end.

Definition cluster_summaries (summaries : list string) (embeddings : list Vec)
  : list Cluster :=
  let n := len summaries in
  if n =? 0 then []
  else
    match KMeans libs with
    | None => single_cluster summaries
    | Some fit_predict =>
        if n <? MIN_CLUSTER_SUMMARIES then single_cluster summaries
        else
          match fit_predict (choose_k n) embeddings with
          | Raise e => single_cluster summaries
          | Ok labels =>
              let clusters := group_by_label (zip summaries labels) in
              sort_desc cluster_size (make_cluster <$> clusters)
          end
    end.

(** [str(v)] *)
Definition py_str (v : json) : string :=
  match v with
  | JString s => s
  | _ => str_other libs v
  end.

(** The coercion of the parsed ["recommendations"] to a list. *)
Definition coerce_recommendations (recs : json) : list string :=
  match recs with
  | JArray l =>
      (λ r, strip (py_str r)) <$> filter (λ r, strip (py_str r) ≠ "") l
  | _ => [strip (py_str recs)]
  end.

(** What the [try] block does with the stripped text of the answer. *)
Definition parse_insight (text : string) : result Synth :=
  match search_braces text with
  | Some matched =>
      data ← json_loads libs matched;
      s ← json_get data "summary" (JString "");
      summary ← json_strip s;
      r ← json_get data "recommendations" JNull;
      let recs := if truthy r then r else JArray [] in
      let recs := coerce_recommendations recs in
      Ok {| summary := summary; recommendations := take 3 recs |}
  | None => Ok {| summary := str_prefix 300 text; recommendations := [] |}
  end.

#[warnings="-inexact-float"] Definition generate_theme_insight_from_clusters
    (theme_type theme_name sentiment_label : string)
    (clusters : list Cluster) (total_comments : Z) (client : OpenAI W Vec)
  : M W Synth :=
  if bool_decide (clusters = []) || (total_comments =? 0) then mret empty_insight
  else
    let cluster_block := build_cluster_prompt_block clusters in
    let prompt :=
      ClusterInsightPrompt sentiment_label theme_name theme_type
        total_comments cluster_block in
    try_except
      (resp ← chat_completions_create client
         {| model := OPENAI_MODEL config;
            system_message :=
              "You are a senior workplace culture analyst. "
              ++ "Always respond with valid JSON only. Be concrete and avoid meta-commentary.";
            user_message := prompt;
            temperature := 0.4%float;
            max_tokens := 400 |};
       choice ← lift (py_getitem resp 0);
       let text := strip (default "" choice) in
       lift (parse_insight text))
      (λ e, mret empty_insight).

(** One sentiment side of [generate_insights_for_theme]: the summary
    and the recommendations it leaves in [insights]. *)
Definition insight_side (theme_type theme_name sentiment_label : string)
    (contents : list string) (client : OpenAI W Vec) : M W Synth :=
  match contents with
  | [] => mret empty_insight
  | _ =>
      summaries ← summarize_comments contents client sentiment_label
                    theme_name theme_type MAX_SUMMARIES_PER_THEME;
      match summaries with
      | [] => mret empty_insight
      | _ =>
          embeddings ← embed_texts summaries client;
          let clusters := cluster_summaries summaries embeddings in
          generate_theme_insight_from_clusters theme_type theme_name
            sentiment_label clusters (len contents) client
      end
  end.

Definition generate_insights_for_theme (theme_type theme_name : string)
    (pos_contents neg_contents : list string) (client : OpenAI W Vec)
  : M W (Insight string (list string)) :=
  pos_insight ← insight_side theme_type theme_name "positive" pos_contents client;
  neg_insight ← insight_side theme_type theme_name "negative" neg_contents client;
  mret {| positive_summary := summary pos_insight;
          negative_summary := summary neg_insight;
          positive_recommendations := recommendations pos_insight;
          negative_recommendations := recommendations neg_insight |}.

End Pipeline.

End Advanced.

(** [main] of generate_theme_insight2.py. *)
Module AdvancedMain.
Import Advanced.

Inductive TypeArg : Type := type_base | type_sub | type_all.

(** The parsed command line: [--type], [--limit], [--theme]. *)
Record Args : Type := {
  arg_type : TypeArg;
  arg_limit : option Z;
  arg_theme : option string;
}.

Definition wants_base (a : Args) : bool :=
  match arg_type a with type_base | type_all => true | type_sub => false end.

Definition wants_sub (a : Args) : bool :=
  match arg_type a with type_sub | type_all => true | type_base => false end.

(** [themes[:args.limit] if args.limit else themes] *)
Definition limited (a : Args) (themes : list string) : list string :=
  match arg_limit a with
  | Some k => if k =? 0 then themes else py_slice_to themes k
  | None => themes
  end.

Definition themes_to_process (a : Args) (base_themes sub_themes : list string)
  : list (string * string) :=
  match arg_theme a with
  | Some (String c t) =>
      let theme := String c t in
      ((if wants_base a && bool_decide (theme ∈ base_themes)
        then [("base_theme", theme)] else [])
       ++ (if wants_sub a && bool_decide (theme ∈ sub_themes)
           then [("sub_theme", theme)] else []))%list
  | _ =>
      ((if wants_base a
        then (λ t, ("base_theme", t)) <$> limited a base_themes else [])
       ++ (if wants_sub a
           then (λ t, ("sub_theme", t)) <$> limited a sub_themes else []))%list
  end.

Section Main.
Context {W Vec : Type} (F : Type) `{FloatArith F}.
Context (config : Config) (libs : Libs Vec) (supabase : Supabase W).

(** The body of the loop of [main] for one theme; the handler is the
    [except Exception] of the loop. *)
Definition process_theme (client : OpenAI W Vec) (theme : string * string)
    (all_insights : gmap string (Insight string (list string)))
  : M W (gmap string (Insight string (list string))) :=
  let '(theme_type, theme_name) := theme in
  try_except
    (content ← get_theme_content supabase theme_type theme_name;
     match content with
     | ([], []) => mret all_insights
     | (pos, neg) =>
         insights ← generate_insights_for_theme F config libs
                      theme_type theme_name pos neg client;
         mret (<[insight_key theme_type theme_name := insights]> all_insights)
     end)
    (λ e, mret all_insights).

Fixpoint process_themes (client : OpenAI W Vec) (themes : list (string * string))
    (all_insights : gmap string (Insight string (list string)))
  : M W (gmap string (Insight string (list string))) :=
  match themes with
  | [] => mret all_insights
  | theme :: rest =>
      all_insights ← process_theme client theme all_insights;
      process_themes client rest all_insights
  end.

Definition main (a : Args) (client : OpenAI W Vec)
  : M W (MainOutcome (gmap string (Insight string (list string)))) :=
  match OPENAI_API_KEY config with
  | None | Some EmptyString => mret (Exited 1)
  | Some _ =>
      themes ← get_all_themes supabase;
      all_insights ←
        process_themes client (themes_to_process a themes.1 themes.2) ∅;
      mret (Saved all_insights)
  end.

End Main.

End AdvancedMain.

(** ** The basic pipeline (generate_theme_insights.py) *)

Module Basic.

(** [v[:2]] on a parsed value: a list or a string can be sliced, any
    other value raises. *)
Definition json_slice_to (v : json) (k : nat) : result json :=
  match v with
  | JArray l => Ok (JArray (take k l))
  | JString s => Ok (JString (str_prefix k s))
  | _ => Raise TypeError
  end.

Definition sample_line (comment : string) : string :=
  "- " +:+ str_prefix 300 (strip comment)
  +:+ (if (300 <? String.length (strip comment))%nat then "..." else "").

Definition _build_prompt_input (F : Type) `{FloatArith F} (contents : list string)
    (sentiment_label : string) (max_samples : Z) : result PromptInput :=
  let total := len contents in
  if total =? 0 then Ok (None_input sentiment_label)
  else
    let tokens :=
      text ← contents;
      lower <$> filter (λ token, lower token ∉ STOP_WORDS)
                       (TOKEN_PATTERN_findall (lower text)) in
    let keyword_counts := most_common 12 (Counter tokens) in
    let word_count := py_sum (count_words <$> contents) in
    representative_samples ← _select_diverse_samples F contents max_samples;
    Ok (Summary_input sentiment_label total word_count keyword_counts
          (sample_line <$> representative_samples)).

Definition UNABLE : string := "Unable to generate insights at this time.".

Section Pipeline.
Context {W Vec : Type} (F : Type) `{FloatArith F}.
Context (config : Config) (libs : Libs Vec) (supabase : Supabase W).

Definition get_all_themes : M W (list string * list string) :=
  resp_data ← select_themes supabase;
  data ← lift (match resp_data with Some d => Ok d | None => Raise TypeError end);
  let keep (v : option string) : option string :=
    match v with
    | Some (String c s) =>
        if decide (String c s ∈ ["others"; "stock_market"]) then None
        else Some (String c s)
    | _ => None
    end in
  mret (sorted_set (omap (λ d, keep (base_theme d)) data),
        sorted_set (omap (λ d, keep (sub_theme d)) data)).

Fixpoint split_rows (all_data : list ContentRow) (pos neg : list string)
  : list string * list string :=
  match all_data with
  | [] => (pos, neg)
  | item :: rest =>
      match content item with
      | Some (String c s) =>
          let content := String c s in
          let likes := default 0 (likes item) in
          let '(is_positive, is_negative) :=
            if bool_decide (sentiment item = Some "positive") then (true, false)
            else if bool_decide (sentiment item = Some "negative") then (false, true)
            else if 5 <? likes then (true, false)
            else if likes <? -5 then (false, true)
            else (false, false) in
          if is_positive then split_rows rest (pos ++ [content]) neg
          else if is_negative then split_rows rest pos (neg ++ [content])
          else split_rows rest pos neg
      | _ => split_rows rest pos neg
      end
  end.

Definition get_theme_content (theme_type theme_name : string)
  : M W (list string * list string) :=
  let column :=
    if decide (theme_type = "base_theme") then "base_theme" else "sub_theme" in
  resp_data ← select_content supabase column theme_name 1000;
  all_data ← lift (match resp_data with Some d => Ok d | None => Raise TypeError end);
  mret (split_rows all_data [] []).

(** One sentiment side of [generate_insights_for_theme]: the summary
    and the recommendations it leaves in [insights]. *)
Definition insight_side (theme_type theme_name sentiment_label : string)
    (contents : list string) (client : OpenAI W Vec) : M W (json * json) :=
  match contents with
  | [] => mret (JString "", JArray [])
  | _ =>
      text ← lift (_build_prompt_input F contents sentiment_label 40);
      let prompt := BasicInsightPrompt sentiment_label theme_name theme_type text in
      try_except
        (ai_response ← chat_completions_create client
           {| model := OPENAI_MODEL config;
              system_message :=
                "You are a data analyst. Always respond in valid JSON format. "
                +:+ "Be direct and concise. Avoid generic introductory phrases.";
              user_message := prompt;
              temperature := 0.5%float;
              max_tokens := 450 |};
         choice ← lift (py_getitem ai_response 0);
         match choice with
         | None => lift (Raise TypeError)
         | Some response_text =>
             match search_braces response_text with
             | Some matched =>
                 data ← lift (json_loads libs matched);
                 s ← lift (json_get data "summary" (JString ""));
                 r ← lift (json_get data "recommendations" (JArray []));
                 r2 ← lift (json_slice_to r 2);
                 mret (s, r2)
             | None => mret (JString (str_prefix 200 response_text), JArray [])
             end
         end)
        (λ e, mret (JString UNABLE, JArray []))
  end.

Definition generate_insights_for_theme (theme_type theme_name : string)
    (positive_contents negative_contents : list string) (client : OpenAI W Vec)
  : M W (Insight json json) :=
  pos ← insight_side theme_type theme_name "positive" positive_contents client;
  neg ← insight_side theme_type theme_name "negative" negative_contents client;
  mret {| positive_summary := pos.1;
          negative_summary := neg.1;
          positive_recommendations := pos.2;
          negative_recommendations := neg.2 |}.

(** The body of either loop of [main] for one theme. *)
Definition process_theme (client : OpenAI W Vec) (theme_type theme : string)
    (all_insights : gmap string (Insight json json))
  : M W (gmap string (Insight json json)) :=
  try_except
    (content ← get_theme_content theme_type theme;
     match content with
     | ([], []) => mret all_insights
     | (positive_contents, negative_contents) =>
         insights ← generate_insights_for_theme theme_type theme
                      positive_contents negative_contents client;
         mret (<[insight_key theme_type theme := insights]> all_insights)
     end)
    (λ e, mret all_insights).

Fixpoint process_themes (client : OpenAI W Vec) (theme_type : string)
    (themes : list string) (all_insights : gmap string (Insight json json))
  : M W (gmap string (Insight json json)) :=
  match themes with
  | [] => mret all_insights
  | theme :: rest =>
      all_insights ← process_theme client theme_type theme all_insights;
      process_themes client theme_type rest all_insights
  end.

Definition main (client : OpenAI W Vec)
  : M W (MainOutcome (gmap string (Insight json json))) :=
  match OPENAI_API_KEY config with
  | None | Some EmptyString => mret (Exited 1)
  | Some _ =>
      themes ← get_all_themes;
      all_insights ← process_themes client "base_theme" themes.1 ∅;
      all_insights ← process_themes client "sub_theme" themes.2 all_insights;
      mret (Saved all_insights)
  end.

End Pipeline.

End Basic.

(** ** The read side (routes/analysis.py) *)

Module Routes.

(** [load_theme_insights]: the table is read once and cached; [file] is
    what [json.load] gives for the insights file, [None] when the file is
    missing or cannot be read.  Returns the table and the new cache. *)
Definition load_theme_insights (cache : option (gmap string json))
    (file : option (gmap string json))
  : gmap string json * option (gmap string json) :=
  match cache with
  | Some t => (t, Some t)
  | None => let t := default ∅ file in (t, Some t)
  end.

Definition NO_INSIGHTS : string := "No insights available for this theme.".

(** The body of a response: an error message, or an insight object. *)
Inductive Body : Type :=
  | ErrorBody (error : string)
  | InsightBody (insight : json).

Definition truthy_str (s : option string) : bool :=
  match s with
  | Some (String _ _) => true
  | _ => false
  end.

(** [get_theme_insights] on the request fields [theme_type] and
    [theme_name]: the body and the status code.  The lookup in a table
    cannot raise, so the handler of the route is left out. *)
Definition get_theme_insights (cache file : option (gmap string json))
    (theme_type theme_name : option string) : Body * Z :=
  if negb (truthy_str theme_type) || negb (truthy_str theme_name) then
    (ErrorBody "theme_type and theme_name are required", 400)
  else
    let theme_type := default "" theme_type in
    let theme_name := default "" theme_name in
    if bool_decide (theme_type ∉ ["base_theme"; "sub_theme"]) then
      (ErrorBody ("theme_type must be either " +:+ DQ +:+ "base_theme" +:+ DQ
                  +:+ " or " +:+ DQ +:+ "sub_theme" +:+ DQ), 400)
    else
      let insights_data := (load_theme_insights cache file).1 in
      let insight_key := insight_key theme_type theme_name in
      match insights_data !! insight_key with
      | Some v => (InsightBody v, 200)
      | None =>
          (InsightBody (JObject
             [ ("positive_summary", JString NO_INSIGHTS);
               ("negative_summary", JString NO_INSIGHTS);
               ("positive_recommendations", JArray []);
               ("negative_recommendations", JArray []) ]), 200)
      end.

End Routes.

(** ** Vocabulary of the statements *)

(** The candidates [int(idx)] of [iters] successive slots of the sampler,
    from the cursor [idx] on. *)
Fixpoint cursor_candidates {F} `{FloatArith F} (step : F) (iters : nat) (idx : F)
  : result (list Z) :=
  match iters with
  | O => Ok []
  | S iters' =>
      c ← float_to_int idx;
      cs ← cursor_candidates step iters' (float_add idx step);
      Ok (c :: cs)
  end.

(** The cursor over [n] items with cap [m] is regular when its candidates
    are computed without error, strictly increase and lie in the list. *)
Definition cursor_regular (F : Type) `{FloatArith F} (n m : Z) : Prop :=
  ∃ cs, cursor_candidates (float_ratio n m) (Z.to_nat m) float_zero = Ok cs
        ∧ StronglySorted Z.lt cs
        ∧ Forall (λ c, 0 ≤ c < n) cs.

(** The sampling of [n] items with cap [m] is regular when the cap is
    not below [n], so that no float is computed, or the cursor is
    regular. *)
Definition sampling_regular (F : Type) `{FloatArith F} (n m : Z) : Prop :=
  n ≤ m ∨ cursor_regular F n m.

(** The same as a check that can be run. *)
Fixpoint increasing_within (lo hi : Z) (cs : list Z) : bool :=
  match cs with
  | [] => true
  | c :: cs' => (lo <=? c) && (c <? hi) && increasing_within (c + 1) hi cs'
  end.

Definition cursor_regularb (F : Type) `{FloatArith F} (n m : Z) : bool :=
  match cursor_candidates (float_ratio n m) (Z.to_nat m) float_zero with
  | Ok cs => increasing_within 0 n cs
  | Raise _ => false
  end.

(** The integers [lo, lo + 1, ..., hi - 1]. *)
Definition Z_range (lo hi : Z) : list Z :=
  (λ i, lo + Z.of_nat i) <$> seq 0 (Z.to_nat (hi - lo)).

(** The sizes on which the binary64 cursor has been run: every cap below
    every length up to 64, and the caps of the two pipelines up to the
    number of rows they fetch (40 of at most 1000, 300 of at most 600). *)
Definition binary64_checked (n m : Z) : Prop :=
  n ≤ 64 ∨ (m = 40 ∧ n ≤ 1000) ∨ (m = 300 ∧ n ≤ 600).

(** A sampling in order: the sampler returns; the indices it takes are
    the candidates themselves, so the advance past used indices never
    moves; they are [max_samples] strictly increasing, hence distinct,
    indices of the list; and the items returned are the items at those
    indices. *)
Definition samples_in_order (F : Type) `{FloatArith F} {A} (items : list A)
    (max_samples : Z) : Prop :=
  ∃ ps xs,
    sampled_positions F items max_samples = Ok ps
    ∧ sampled_candidates F items max_samples = Ok ps
    ∧ _evenly_sample F items max_samples = Ok xs
    ∧ _select_diverse_samples F items max_samples = Ok xs
    ∧ len ps = max_samples
    ∧ StronglySorted Z.lt ps
    ∧ NoDup ps
    ∧ Forall (λ p, 0 ≤ p < len items) ps
    ∧ Forall2 (λ p x, items !! Z.to_nat p = Some x) ps xs.

(** Descending order of a key. *)
Definition desc {A} (key : A → Z) : relation A := λ a b, key b ≤ key a.

(** What the dict of [group_by_label] holds once the pairs [seen] have
    been appended: one entry per label seen, holding the items of that
    label in their order. *)
Definition grouped {A} (d : list (Z * list A)) (seen : list (A * Z)) : Prop :=
  NoDup d.*1
  ∧ (∀ k xs, (k, xs) ∈ d → xs = (filter (λ p, p.2 = k) seen).*1 ∧ xs ≠ [])
  ∧ (∀ p, p ∈ seen → p.2 ∈ d.*1).

(** The chat call made from world [w] fails, whatever is asked. *)
Definition chat_fails_at {W Vec} (client : OpenAI W Vec) (w : W) : Prop :=
  ∀ req, ∃ w' e, chat_completions_create client req w = (w', Raise e).

(** The embedding call fails from every world. *)
Definition embedding_fails {W Vec} (client : OpenAI W Vec) : Prop :=
  ∀ model texts w, ∃ w' e, embeddings_create client model texts w = (w', Raise e).

(** The embedding call of one sentiment side fails: from the world [w]
    the summarizer returns summaries for the batch, not none, and the
    embedding call on them, made from the world the summarizer has left,
    raises. *)
Definition side_embedding_fails {W Vec} (F : Type) `{FloatArith F} (config : Config)
    (client : OpenAI W Vec) (theme_type theme_name sentiment_label : string)
    (contents : list string) (w : W) : Prop :=
  ∃ w1 summaries w2 e,
    Advanced.summarize_comments F config contents client sentiment_label
      theme_name theme_type Advanced.MAX_SUMMARIES_PER_THEME w = (w1, Ok summaries)
    ∧ summaries ≠ []
    ∧ embeddings_create client Advanced.get_embedding_model_name summaries w1
      = (w2, Raise e).

(** The all-empty Insight, as a record and as the object a response
    would carry. *)
Definition all_empty_insight : Insight string (list string) :=
  {| positive_summary := ""; negative_summary := "";
     positive_recommendations := []; negative_recommendations := [] |}.

Definition all_empty_insight_json : json :=
  JObject [ ("positive_summary", JString "");
            ("negative_summary", JString "");
            ("positive_recommendations", JArray []);
            ("negative_recommendations", JArray []) ].

(** The summarizer returns on a batch: its output is made of one group
    of lines per comment sampled, each group being what the loop body gave
    for that comment and none being empty; so the output of a batch that
    is not empty is not empty. *)
Definition summarizer_returns {W Vec} (F : Type) `{FloatArith F} (config : Config)
    (client : OpenAI W Vec) (comments : list string)
    (sentiment_label theme_name theme_type : string) (max_summaries : Z) (w : W)
  : Prop :=
  ∃ w' comments_to_use per_comment,
    _evenly_sample F comments max_summaries = Ok comments_to_use
    ∧ Advanced.summarize_comments F config comments client sentiment_label
        theme_name theme_type max_summaries w = (w', Ok (concat per_comment))
    ∧ Forall2 (λ text lines,
                 lines ≠ []
                 ∧ ∃ w1 w2,
                     Advanced.summarize_one config client text w1 = (w2, Ok lines))
              comments_to_use per_comment
    ∧ (comments ≠ [] → concat per_comment ≠ []).

(** ** Test doubles

    Concrete capabilities on which the pipeline can be run.  The world
    of the doubles is the log of the calls made. *)

Module Doubles.

Record Log : Type := {
  chat_calls : list ChatRequest;
  embedding_calls : list (list string);
}.

Definition no_calls : Log := {| chat_calls := []; embedding_calls := [] |}.

(** A client that logs each call and answers by the two functions. *)
Definition logging_client
    (chat_answer : ChatRequest → result (list (option string)))
    (embed_answer : list string → result (list unit)) : OpenAI Log unit :=
  {| chat_completions_create := λ req w,
       ({| chat_calls := chat_calls w ++ [req];
           embedding_calls := embedding_calls w |}, chat_answer req);
     embeddings_create := λ model texts w,
       ({| chat_calls := chat_calls w;
           embedding_calls := embedding_calls w ++ [texts] |}, embed_answer texts) |}.

(** A chat model that answers every request with one choice [text]. *)
Definition says (text : string) : ChatRequest → result (list (option string)) :=
  λ _, Ok [Some text].

Definition chat_down : ChatRequest → result (list (option string)) :=
  λ _, Raise (ServiceError "chat completion failed").

(** One vector per text. *)
Definition embeds : list string → result (list unit) :=
  λ texts, Ok (replicate (length texts) ()).

Definition embedding_down : list string → result (list unit) :=
  λ _, Raise (ServiceError "embedding failed").

(** An embedding model that answers the batch [texts] and fails on any
    other. *)
Definition embeds_only (texts : list string) : list string → result (list unit) :=
  λ batch, if decide (batch = texts) then embeds batch else embedding_down batch.

(** A KMeans that labels the points in turn [0, 1, ..., k-1, 0, ...]. *)
Definition round_robin (k : Z) (embeddings : list unit) : result (list Z) :=
  Ok ((λ i, Z.of_nat i `mod` k) <$> seq 0 (length embeddings)).

(** A [json.loads] that knows the texts of [table] and rejects any
    other text. *)
Definition loads_table (table : list (string * json)) (text : string) : result json :=
  match assoc_get text table with
  | Some v => Ok v
  | None => Raise JSONDecodeError
  end.

Definition libs_of (kmeans : option (Z → list unit → result (list Z)))
    (table : list (string * json)) : Libs unit :=
  {| KMeans := kmeans;
     json_loads := loads_table table;
     str_other := λ _, "?" |}.

(** A store with the given theme rows that answers every content query
    with [rows]. *)
Definition store_of (themes : list ThemeRow) (rows : list ContentRow) : Supabase Log :=
  {| select_themes := λ w, (w, Ok (Some themes));
     select_content := λ column value limit w, (w, Ok (Some rows)) |}.

(** A store with the given theme rows that answers the content query
    for a theme with the rows that [rows] gives for its name. *)
Definition store_by_theme (themes : list ThemeRow)
    (rows : string → list ContentRow) : Supabase Log :=
  {| select_themes := λ w, (w, Ok (Some themes));
     select_content := λ column value limit w, (w, Ok (Some (rows value))) |}.

Definition config_with_key : Config :=
  {| OPENAI_API_KEY := Some "sk-test"; OPENAI_MODEL := "gpt-4" |}.

Definition theme_row (base sub : string) : ThemeRow :=
  {| base_theme := Some base; sub_theme := Some sub |}.

Definition comment_row (text sentiment_label : string) : ContentRow :=
  {| content := Some text; sentiment := Some sentiment_label; likes := Some 0 |}.

(** The text [{"summary": "s", "recommendations": " "}] and the dict
    [json.loads] makes of it. *)
Definition blank_recs_text : string :=
  "{" +:+ DQ +:+ "summary" +:+ DQ +:+ ": " +:+ DQ +:+ "s" +:+ DQ +:+ ", "
  +:+ DQ +:+ "recommendations" +:+ DQ +:+ ": " +:+ DQ +:+ " " +:+ DQ +:+ "}".

Definition blank_recs_json : json :=
  JObject [ ("summary", JString "s"); ("recommendations", JString " ") ].

Definition quoted (s : string) : string := DQ +:+ s +:+ DQ.

(** The text [{"recommendations": [" a ", "  ", "b", "c", "d"]}] and the
    dict [json.loads] makes of it. *)
Definition five_recs_text : string :=
  "{" +:+ quoted "recommendations" +:+ ": [" +:+ quoted " a " +:+ ", "
  +:+ quoted "  " +:+ ", " +:+ quoted "b" +:+ ", " +:+ quoted "c" +:+ ", "
  +:+ quoted "d" +:+ "]}".

Definition five_recs_json : json :=
  JObject [ ("recommendations",
             JArray [JString " a "; JString "  "; JString "b"; JString "c"; JString "d"]) ].

Definition twelve_summaries : list string :=
  [ "- a"; "- b"; "- c"; "- d"; "- e"; "- f"; "- g"; "- h"; "- i"; "- j"; "- k"; "- l" ].

End Doubles.

(** ** Further vocabulary *)

(** A lower-case ASCII letter, and a string made of them only. *)
Definition is_lower_letter (c : ascii) : bool :=
  let n := N_of_ascii c in ((97 <=? n) && (n <=? 122))%N.

Fixpoint all_chars (p : ascii → bool) (s : string) : bool :=
  match s with
  | EmptyString => true
  | String c s' => p c && all_chars p s'
  end.

(** The character [c] occurs in [s]. *)
Fixpoint has_char (c : ascii) (s : string) : bool :=
  match s with
  | EmptyString => false
  | String c' s' => Ascii.eqb c c' || has_char c s'
  end.

(** The tokens that [keywords_from_texts] counts: the letter runs of the
    lower-cased texts that are no stop words, in order. *)
Definition kept_tokens (texts : list string) : list string :=
  t ← texts;
  filter (λ token, token ∉ STOP_WORDS) (TOKEN_PATTERN_findall (lower t)).

(** How often [w] occurs in a list of tokens. *)
Definition occurrences (w : string) (tokens : list string) : Z :=
  len (filter (λ t, t = w) tokens).

(** A summary line is a bullet when it starts with a dash. *)
Definition bullet (ln : string) : Prop := startswith "-" ln = true.

(** Strict order of Python strings of code points below 256. *)
Definition str_lt (a b : string) : Prop := String.compare a b = Lt.

(** The stripped content of a row, as [get_theme_content] reads it. *)
Definition stripped_content (item : ContentRow) : string :=
  strip (default "" (content item)).

(** What a [Counter] holds once the tokens [seen] have been counted: one
    entry per distinct token, with the number of its occurrences. *)
Definition counted (c : list (string * Z)) (seen : list string) : Prop :=
  NoDup c.*1
  ∧ (∀ w n, (w, n) ∈ c → n = occurrences w seen ∧ 0 < n)
  ∧ (∀ w, w ∈ seen → w ∈ c.*1).

(** How [get_theme_content] of the cluster-based pipeline reads a row:
    the lower-cased label, the likes, and the two conditions under which
    the row, its content not blank, counts as positive or as negative. *)
Definition label_of (item : ContentRow) : string :=
  lower (default "" (sentiment item)).

Definition likes_of (item : ContentRow) : Z := default 0 (likes item).

Definition counts_positive (item : ContentRow) : Prop :=
  stripped_content item ≠ ""
  ∧ (label_of item = "positive" ∨ (label_of item ≠ "negative" ∧ 5 < likes_of item)).

Definition counts_negative (item : ContentRow) : Prop :=
  stripped_content item ≠ ""
  ∧ (label_of item = "negative" ∨ (label_of item ≠ "positive" ∧ likes_of item < -5)).

#[global] Instance counts_positive_dec (item : ContentRow) :
  Decision (counts_positive item).
Proof. unfold counts_positive. apply _. Defined.

#[global] Instance counts_negative_dec (item : ContentRow) :
  Decision (counts_negative item).
Proof. unfold counts_negative. apply _. Defined.

(** The same for [get_theme_content] of the basic pipeline, which
    neither strips the content nor lower-cases the label. *)
Definition raw_content (item : ContentRow) : string := default "" (content item).

Definition basic_counts_positive (item : ContentRow) : Prop :=
  raw_content item ≠ ""
  ∧ (sentiment item = Some "positive"
     ∨ (sentiment item ≠ Some "negative" ∧ 5 < likes_of item)).

Definition basic_counts_negative (item : ContentRow) : Prop :=
  raw_content item ≠ ""
  ∧ (sentiment item = Some "negative"
     ∨ (sentiment item ≠ Some "positive" ∧ likes_of item < -5)).

#[global] Instance basic_counts_positive_dec (item : ContentRow) :
  Decision (basic_counts_positive item).
Proof. unfold basic_counts_positive. apply _. Defined.

#[global] Instance basic_counts_negative_dec (item : ContentRow) :
  Decision (basic_counts_negative item).
Proof. unfold basic_counts_negative. apply _. Defined.

(** ** The theme statistics of the risk and positive routes
    (routes/analysis.py)

    [calculate_theme_stats], defined alike inside [get_risky_themes] and
    [get_positive_themes].  The [defaultdict] it returns is kept as a
    finite map: the order of its keys plays no part in the counts. *)

Module Analysis.

(** A row of table [cb] as the two routes select it; [None] is a null
    column. *)
Record Row : Type := {
  row_sub_theme : option string;
  row_likes : option Z;
  row_sentiment : option string;
}.

Record ThemeStats : Type := {
  count : Z;
  positive : Z;
  negative : Z;
  neutral : Z;
}.

(** The default of the [defaultdict]. *)
Definition new_stats : ThemeStats :=
  {| count := 0; positive := 0; negative := 0; neutral := 0 |}.

(** The body of the loop for one row. *)
Definition count_item (theme_stats : gmap string ThemeStats) (item : Row)
  : gmap string ThemeStats :=
  match row_sub_theme item with
  | None => theme_stats
  | Some raw =>
      if decide (raw = "") then theme_stats
      else if decide (strip raw = "") then theme_stats
      else
        let sub_theme := strip raw in
        let stats := default new_stats (theme_stats !! sub_theme) in
        let stats :=
          {| count := count stats + 1; positive := positive stats;
             negative := negative stats; neutral := neutral stats |} in
        let likes := default 0 (row_likes item) in
        let sentiment := row_sentiment item in
        let stats :=
          if decide (sentiment = Some "positive") then
            {| count := count stats; positive := positive stats + 1;
               negative := negative stats; neutral := neutral stats |}
          else if decide (sentiment = Some "negative") then
            {| count := count stats; positive := positive stats;
               negative := negative stats + 1; neutral := neutral stats |}
          else if bool_decide (sentiment ≠ None ∧ sentiment ≠ Some "") then
            {| count := count stats; positive := positive stats;
               negative := negative stats; neutral := neutral stats + 1 |}
          else if 0 <? likes then
            {| count := count stats; positive := positive stats + 1;
               negative := negative stats; neutral := neutral stats |}
          else if likes <? 0 then
            {| count := count stats; positive := positive stats;
               negative := negative stats + 1; neutral := neutral stats |}
          else
            {| count := count stats; positive := positive stats;
               negative := negative stats; neutral := neutral stats + 1 |} in
        <[sub_theme := stats]> theme_stats
  end.

Definition calculate_theme_stats (data_items : list Row) : gmap string ThemeStats :=
  foldl count_item ∅ data_items.

(** The key under which a row is counted: its stripped sub-theme, empty
    for a row that is skipped. *)
Definition stats_key (item : Row) : string := strip (default "" (row_sub_theme item)).

(** The number of rows of [seen] counted under [key]. *)
Definition rows_of (key : string) (seen : list Row) : Z :=
  len (filter (λ item, stats_key item = key) seen).

(** What the statistics hold once the rows [seen] have been counted. *)
Definition tallied (theme_stats : gmap string ThemeStats) (seen : list Row) : Prop :=
  ∀ key,
    match theme_stats !! key with
    | Some stats =>
        key ≠ ""
        ∧ count stats = rows_of key seen
        ∧ 1 ≤ count stats
        ∧ count stats = positive stats + negative stats + neutral stats
        ∧ 0 ≤ positive stats ∧ 0 ≤ negative stats ∧ 0 ≤ neutral stats
    | None => key ≠ "" → rows_of key seen = 0
    end.

End Analysis.

(** ** The insights route on the request body (routes/analysis.py)

    [Routes.get_theme_insights] starts from the two request fields as
    strings.  Here the route starts from the body: [body] is the value
    that [request.get_json()] returns, [JNull] for none.  The [data.get]
    calls stand before the [try] of the route, so what they raise leaves
    the route.  The fields are JSON values of any kind: they are tested
    for truth, the type is compared with the two strings, and the
    f-string of the key applies [str] to the name.  [str_other] is [str]
    on the values that are no strings.  As in [Routes], the insights file
    holds an object, on which the lookup cannot raise. *)

Module Endpoint.

(** [v == s] for a string [s]. *)
Definition json_eq_str (v : json) (s : string) : bool :=
  match v with
  | JString t => String.eqb t s
  | _ => false
  end.

(** [f"{v}"]. *)
Definition format_value (str_other : json → string) (v : json) : string :=
  match v with
  | JString s => s
  | _ => str_other v
  end.

Definition get_theme_insights (str_other : json → string)
    (cache file : option (gmap string json)) (body : json)
  : result (Routes.Body * Z) :=
  let data := if truthy body then body else JObject [] in
  theme_type ← json_get data "theme_type" JNull;
  theme_name ← json_get data "theme_name" JNull;
  filters ← json_get data "filters" (JObject []);
  if negb (truthy theme_type) || negb (truthy theme_name) then
    Ok (Routes.ErrorBody "theme_type and theme_name are required", 400)
  else if negb (existsb (json_eq_str theme_type) ["base_theme"; "sub_theme"]) then
    Ok (Routes.ErrorBody ("theme_type must be either " +:+ DQ +:+ "base_theme" +:+ DQ
                          +:+ " or " +:+ DQ +:+ "sub_theme" +:+ DQ), 400)
  else
    let insights_data := (Routes.load_theme_insights cache file).1 in
    let insight_key :=
      insight_key (format_value str_other theme_type)
        (format_value str_other theme_name) in
    match insights_data !! insight_key with
    | Some v => Ok (Routes.InsightBody v, 200)
    | None =>
        Ok (Routes.InsightBody (JObject
              [ ("positive_summary", JString Routes.NO_INSIGHTS);
                ("negative_summary", JString Routes.NO_INSIGHTS);
                ("positive_recommendations", JArray []);
                ("negative_recommendations", JArray []) ]), 200)
    end.

(** The field [key] of a request body: [JNull] when the body is no
    object or has no such field. *)
Definition request_field (body : json) (key : string) : json :=
  match body with
  | JObject fields => default JNull (assoc_get key fields)
  | _ => JNull
  end.

(** A body on which [data.get] can be called: a falsy one, replaced by
    the empty dict, or an object. *)
Definition has_fields (body : json) : Prop :=
  truthy body = false ∨ ∃ fields, body = JObject fields.

End Endpoint.

(** ** The runs of the loops of [main]

    Both pipelines fetch the comments of a theme and, when there is one,
    generate the Insight record of the theme.  [fetch] and [generate]
    stand for the two functions of a pipeline, a theme for the pair of its
    type and its name. *)

Section Loop.
Context {W I : Type}.
Context (fetch : string → string → M W (list string * list string)).
Context (generate : string → string → list string → list string → M W I).

(** The world in which the loop leaves a theme that it has reached in
    world [w]: the world after the fetch, or after the generation when
    the theme has a comment. *)
Definition world_after_theme (w : W) (theme : string * string) : W :=
  match fetch theme.1 theme.2 w with
  | (w1, Ok (pos, neg)) =>
      if decide (pos = [] ∧ neg = []) then w1
      else (generate theme.1 theme.2 pos neg w1).1
  | (w1, Raise _) => w1
  end.

(** The worlds in which the loop reaches the themes of its list, one
    after the other, from [w] on. *)
Fixpoint worlds_reached (themes : list (string * string)) (w : W) : list W :=
  match themes with
  | [] => []
  | theme :: rest => w :: worlds_reached rest (world_after_theme w theme)
  end.

(** What [table] holds under the key of a theme that the loop has
    reached in world [w], [before] being the table the loop started
    from: the record of the theme when the theme has a positive or a
    negative comment and the generation returns, and what [before] held
    under that key in any other case. *)
Definition theme_recorded (table before : gmap string I) (theme : string * string)
    (w : W) : Prop :=
  let key := insight_key theme.1 theme.2 in
  match fetch theme.1 theme.2 w with
  | (w1, Ok (pos, neg)) =>
      if decide (pos = [] ∧ neg = []) then table !! key = before !! key
      else
        match generate theme.1 theme.2 pos neg w1 with
        | (_, Ok insights) => table !! key = Some insights
        | (_, Raise _) => table !! key = before !! key
        end
  | (_, Raise _) => table !! key = before !! key
  end.

End Loop.

(** * Properties *)

(** ** Results and the world monad *)

Lemma M_bind_ok {W A B} (m : M W A) (k : A → M W B) w w' a :
  m w = (w', Ok a) → (m ≫= k) w = k a w'.
Proof. intros H. unfold mbind, M_mbind, M_bind. by rewrite H. Qed.

Lemma M_bind_raise {W A B} (m : M W A) (k : A → M W B) w w' e :
  m w = (w', Raise e) → (m ≫= k) w = (w', Raise e).
Proof. intros H. unfold mbind, M_mbind, M_bind. by rewrite H. Qed.

Lemma try_except_ok {W A} (body : M W A) h w w' a :
  body w = (w', Ok a) → try_except body h w = (w', Ok a).
Proof. intros H. unfold try_except. by rewrite H. Qed.

Lemma try_except_raise {W A} (body : M W A) h w w' e :
  body w = (w', Raise e) → try_except body h w = h e w'.
Proof. intros H. unfold try_except. by rewrite H. Qed.

(** ** Arithmetic of the sampling cursor *)

Lemma py_int_floor (x : Q) : (0 <= x)%Q → py_int x = Qfloor x.
Proof.
  destruct x as [n d]. unfold Qle, py_int, Qfloor. simpl. intros H.
  apply Z.quot_div_nonneg; lia.
Qed.

Lemma py_int_nonneg (x : Q) : (0 <= x)%Q → 0 ≤ py_int x.
Proof.
  intros H. rewrite py_int_floor by done.
  rewrite <- (Qfloor_Z 0). by apply Qfloor_resp_le.
Qed.

Lemma py_int_upper (x : Q) (n : Z) :
  (0 <= x)%Q → (x <= inject_Z n)%Q → py_int x ≤ n.
Proof.
  intros H0 H. rewrite py_int_floor by done.
  rewrite <- (Qfloor_Z n). by apply Qfloor_resp_le.
Qed.

Lemma py_int_step (x step : Q) :
  (0 <= x)%Q → (1 <= step)%Q → py_int x + 1 ≤ py_int (x + step)%Q.
Proof.
  intros H0 H1. rewrite !py_int_floor by lra.
  rewrite <- (Qfloor_Z (Qfloor x + 1)). apply Qfloor_resp_le.
  rewrite inject_Z_plus. pose proof (Qfloor_le x) as Hf.
  change (inject_Z 1) with 1%Q.
  apply Qle_trans with (x + 1)%Q.
  - apply Qplus_le_compat; [done | apply Qle_refl].
  - apply Qplus_le_compat; [apply Qle_refl | done].
Qed.

Lemma step_ge_1 (n m : Z) :
  0 < m → m < n → (1 <= inject_Z n / inject_Z m)%Q.
Proof.
  intros Hm Hn. apply Qle_shift_div_l.
  - change 0%Q with (inject_Z 0). by rewrite <- Zlt_Qlt.
  - rewrite Qmult_1_l. rewrite <- Zle_Qle. lia.
Qed.

Lemma cursor_room (idx step : Q) (r : nat) (n : Z) :
  (0 <= idx)%Q → (1 <= step)%Q →
  (idx + inject_Z (Z.of_nat (S r)) * step <= inject_Z n)%Q →
  (idx <= inject_Z (n - 1))%Q
  ∧ (idx + step + inject_Z (Z.of_nat r) * step <= inject_Z n)%Q.
Proof.
  intros H0 H1 H.
  assert (0 <= inject_Z (Z.of_nat r))%Q as Hr.
  { change 0%Q with (inject_Z 0). rewrite <- Zle_Qle. lia. }
  assert (0 <= inject_Z (Z.of_nat r) * step)%Q as Hrs.
  { apply Qmult_le_0_compat; [done | lra]. }
  assert (inject_Z (Z.of_nat (S r)) == inject_Z (Z.of_nat r) + 1)%Q as E.
  { rewrite Nat2Z.inj_succ. unfold Z.succ. by rewrite inject_Z_plus. }
  rewrite E in H.
  assert (inject_Z (n - 1) == inject_Z n - 1)%Q as E'.
  { unfold Z.sub. rewrite inject_Z_plus. reflexivity. }
  rewrite E'. split; lra.
Qed.

(** ** The Sampler *)

Lemma advance_unused room used pos : pos ∉ used → advance room used pos = pos.
Proof. intros Hfresh. destruct room; simpl; [done |]. by rewrite decide_False. Qed.

Lemma py_getitem_lookup {A} (l : list A) (i : Z) x :
  0 ≤ i → l !! Z.to_nat i = Some x → py_getitem l i = Ok x.
Proof.
  intros Hi Hl. unfold py_getitem.
  destruct (i <? 0) eqn:E; [lia |]. rewrite E. by rewrite Hl.
Qed.

Lemma StronglySorted_lt_NoDup (ps : list Z) : StronglySorted Z.lt ps → NoDup ps.
Proof.
  induction 1 as [|p ps Hs IH Hall]; constructor; [|done].
  intros Hin. rewrite Forall_forall in Hall. specialize (Hall p Hin). lia.
Qed.

Lemma fmap_diag_fst (ps : list Z) : ((λ p, (p, p)) <$> ps).*1 = ps.
Proof.
  rewrite <- list_fmap_compose. rewrite <- (list_fmap_id ps) at 2.
  by apply list_fmap_ext.
Qed.

Lemma fmap_diag_snd (ps : list Z) : ((λ p, (p, p)) <$> ps).*2 = ps.
Proof.
  rewrite <- list_fmap_compose. rewrite <- (list_fmap_id ps) at 2.
  by apply list_fmap_ext.
Qed.

Section AnyArithmetic.
Context (F : Type) `{FloatArith F}.

Lemma cursor_candidates_length (step : F) (r : nat) :
  ∀ idx cs, cursor_candidates step r idx = Ok cs → length cs = r.
Proof.
  induction r as [|r IH]; intros idx cs; simpl.
  - by intros [= <-].
  - destruct (float_to_int idx) as [c | e]; [| done]. simpl.
    destruct (cursor_candidates step r (float_add idx step)) as [cs' | e] eqn:E;
      [| done].
    simpl. intros [= <-]. simpl. f_equal. by eapply IH.
Qed.

(** When the candidates strictly increase, lie in the list and exceed
    every index used so far, the loop takes exactly the candidates. *)
Lemma sample_loop_candidates {A} (items : list A) (step : F) (r : nat) :
  ∀ idx cs used samples trace,
    cursor_candidates step r idx = Ok cs →
    StronglySorted Z.lt cs →
    Forall (λ c, 0 ≤ c < len items) cs →
    (∀ u c, u ∈ used → c ∈ cs → u < c) →
    ∃ xs,
      sample_loop items step r idx used samples trace
        = Ok ((samples ++ xs)%list, (trace ++ ((λ p, (p, p)) <$> cs))%list)
      ∧ Forall2 (λ p x, items !! Z.to_nat p = Some x) cs xs.
Proof.
  induction r as [|r IH]; intros idx cs used samples trace Hcs Hsorted Hrange Hused;
    simpl in *.
  - injection Hcs as <-. exists []. rewrite !app_nil_r. split; [done | constructor].
  - destruct (float_to_int idx) as [c | e]; [| done]. simpl in *.
    destruct (cursor_candidates step r (float_add idx step)) as [cs' | e] eqn:E;
      [| done].
    simpl in Hcs. injection Hcs as <-.
    apply StronglySorted_inv in Hsorted as [Hsorted Hall].
    apply Forall_cons in Hrange as [Hc Hrange].
    assert (c ∉ used) as Hfresh.
    { intros Hin. assert (c < c); [| lia]. apply Hused; [done | by left]. }
    assert (is_Some (items !! Z.to_nat c)) as [x Hx].
    { apply lookup_lt_is_Some. unfold len in Hc. lia. }
    unfold while_advance. rewrite advance_unused by done.
    rewrite (py_getitem_lookup _ _ x) by (done || lia). simpl.
    destruct (IH (float_add idx step) cs' ({[c]} ∪ used) (samples ++ [x])%list
                 (trace ++ [(c, c)])%list E Hsorted Hrange) as (xs & Hloop & Hget).
    + intros u c' Hu Hc'. apply elem_of_union in Hu as [Hu | Hu].
      * apply elem_of_singleton in Hu as ->.
        rewrite Forall_forall in Hall. by apply Hall.
      * apply Hused; [done | by right].
    + exists (x :: xs). rewrite Hloop. rewrite <- !app_assoc. simpl.
      split; [done | by constructor].
Qed.

Lemma evenly_sample_traced_regular {A} (items : list A) (max_samples : Z) :
  0 < max_samples → max_samples < len items →
  cursor_regular F (len items) max_samples →
  ∃ ps xs,
    evenly_sample_traced F items max_samples = Ok (xs, (λ p, (p, p)) <$> ps)
    ∧ len ps = max_samples
    ∧ Forall2 (λ p x, items !! Z.to_nat p = Some x) ps xs
    ∧ StronglySorted Z.lt ps
    ∧ Forall (λ p, 0 ≤ p < len items) ps.
Proof.
  intros Hm Hn (cs & Hcs & Hsorted & Hrange).
  unfold evenly_sample_traced, py_truediv.
  destruct (len items <=? max_samples) eqn:E; [lia |].
  destruct (max_samples =? 0) eqn:E0; [lia |]. simpl.
  destruct (sample_loop_candidates items _ _ _ cs ∅ [] [] Hcs Hsorted Hrange)
    as (xs & Hloop & Hget).
  { intros u c Hu. by apply elem_of_empty in Hu. }
  exists cs, xs. rewrite Hloop. simpl. split; [done |].
  split; [| done]. apply cursor_candidates_length in Hcs. unfold len. lia.
Qed.

(** A regular sampling is in order. *)
Lemma regular_samples_in_order {A} (items : list A) (max_samples : Z) :
  0 < max_samples → max_samples < len items →
  cursor_regular F (len items) max_samples →
  samples_in_order F items max_samples.
Proof.
  intros Hm Hn Hreg.
  destruct (evenly_sample_traced_regular items max_samples Hm Hn Hreg) as
    (ps & xs & Htr & Hlen & Hget & Hs & Hr).
  exists ps, xs.
  unfold sampled_positions, sampled_candidates, _select_diverse_samples,
    _evenly_sample.
  rewrite Htr. simpl. rewrite fmap_diag_fst, fmap_diag_snd.
  repeat split; try done. by apply StronglySorted_lt_NoDup.
Qed.

Lemma evenly_sample_identity {A} (items : list A) (max_samples : Z) :
  len items ≤ max_samples → _evenly_sample F items max_samples = Ok items.
Proof.
  intros Hle. unfold _evenly_sample, evenly_sample_traced.
  by destruct (len items <=? max_samples) eqn:E; [| lia].
Qed.

End AnyArithmetic.

(** Taking the items at increasing indices keeps their order: the result
    is a sublist of what lies from [base] on. *)
Lemma lookups_sublist {A} (items : list A) (ps : list Z) (xs : list A) :
  Forall2 (λ p x, items !! Z.to_nat p = Some x) ps xs →
  StronglySorted Z.lt ps →
  ∀ base : nat, Forall (λ p, Z.of_nat base ≤ p) ps →
  sublist xs (drop base items).
Proof.
  induction 1 as [|p x ps xs Hx Hrest IH]; intros Hs base Hb.
  - apply sublist_nil_l.
  - apply StronglySorted_inv in Hs as [Hs Hall].
    apply Forall_cons in Hb as [Hp _].
    assert (sublist xs (drop (S (Z.to_nat p)) items)) as Hsub.
    { apply IH; [done |]. eapply Forall_impl; [exact Hall |].
      intros q Hq. cbv beta in Hq. lia. }
    assert (drop base items
            = (take (Z.to_nat p - base) (drop base items)
               ++ x :: drop (S (Z.to_nat p)) items)%list) as ->.
    { rewrite <- (take_drop (Z.to_nat p - base) (drop base items)) at 1.
      f_equal. rewrite drop_drop.
      replace (base + (Z.to_nat p - base))%nat with (Z.to_nat p) by lia.
      by apply drop_S. }
    apply sublist_inserts_l. by apply sublist_skip.
Qed.

(** With a cap of at least one and a regular sampling the sampler
    returns, and what it returns has [min(N, M)] items, is the input
    itself when the cap is not below [N], and keeps the relative order of
    the input. *)
Lemma evenly_sample_returns (F : Type) `{FloatArith F} {A} (items : list A)
    (max_samples : Z) :
  0 < max_samples →
  sampling_regular F (len items) max_samples →
  ∃ xs, _evenly_sample F items max_samples = Ok xs
        ∧ len xs = Z.min (len items) max_samples
        ∧ (len items ≤ max_samples → xs = items)
        ∧ sublist xs items.
Proof.
  intros Hm Hreg.
  destruct (decide (len items ≤ max_samples)) as [Hle | Hgt].
  - exists items. rewrite evenly_sample_identity by done.
    repeat split; [lia | done].
  - destruct Hreg as [Hle | Hreg]; [done |].
    destruct (evenly_sample_traced_regular F items max_samples) as
      (ps & xs & Htr & Hlen & Hget & Hs & Hr); [done | lia | done |].
    exists xs. unfold _evenly_sample. rewrite Htr. simpl.
    split; [done |]. split; [| split; [lia |]].
    + apply Forall2_length in Hget. unfold len in *. lia.
    + change items with (drop 0 items). eapply lookups_sublist; [done.. |].
      eapply Forall_impl; [exact Hr |]. intros q Hq. cbv beta in Hq. lia.
Qed.

(** Whatever the arithmetic, a sampling that returns has filled every
    slot: from a list that is not empty and a cap of at least one it
    returns at least one item. *)
Lemma sample_loop_length (F : Type) `{FloatArith F} {A} (items : list A) (step : F)
    (r : nat) :
  ∀ idx used samples trace out,
    sample_loop items step r idx used samples trace = Ok out →
    length out.1 = (length samples + r)%nat.
Proof.
  induction r as [|r IH]; intros idx used samples trace out; simpl.
  - intros [= <-]. simpl. lia.
  - destruct (float_to_int idx) as [c | e]; [| done]. simpl.
    destruct (py_getitem items _) as [x | e]; [| done]. simpl.
    intros Hloop. apply IH in Hloop. rewrite length_app in Hloop. simpl in Hloop. lia.
Qed.

Lemma evenly_sample_nonempty (F : Type) `{FloatArith F} {A} (items : list A)
    (max_samples : Z) (xs : list A) :
  0 < max_samples → items ≠ [] →
  _evenly_sample F items max_samples = Ok xs → xs ≠ [].
Proof.
  intros Hm Hne. unfold _evenly_sample, evenly_sample_traced, py_truediv.
  destruct (len items <=? max_samples).
  - simpl. by intros [= <-].
  - destruct (max_samples =? 0) eqn:E0; [lia |]. simpl.
    destruct (sample_loop items _ _ _ _ _ _) as [out | e] eqn:Hloop; [| done].
    simpl. intros [= <-]. apply sample_loop_length in Hloop.
    intros Hnil. rewrite Hnil in Hloop. simpl in Hloop. lia.
Qed.

(** *** Exact arithmetic *)

(** The invariant of the exact cursor: it is not negative, and the slots
    still to fill fit before the end of the list. *)
Lemma exact_cursor_candidates (n : Z) (step : Q) (r : nat) :
  (1 <= step)%Q →
  ∀ idx,
    (0 <= idx)%Q →
    (idx + inject_Z (Z.of_nat r) * step <= inject_Z n)%Q →
    ∃ cs, cursor_candidates step r idx = Ok cs
          ∧ StronglySorted Z.lt cs
          ∧ Forall (λ c, py_int idx ≤ c < n) cs.
Proof.
  intros Hstep. induction r as [|r IH]; intros idx H0 Hfit.
  - exists []. repeat split; constructor.
  - destruct (cursor_room idx step r n H0 Hstep Hfit) as [Hlast Hfit'].
    pose proof (py_int_nonneg idx H0) as Hpos0.
    pose proof (py_int_upper idx _ H0 Hlast) as Hpos1.
    pose proof (py_int_step idx step H0 Hstep) as Hnext.
    destruct (IH (idx + step)%Q) as (cs & Hcs & Hsorted & Hrange); [lra | lra |].
    exists (py_int idx :: cs). simpl.
    change (float_add idx step) with (idx + step)%Q. rewrite Hcs. simpl.
    split; [done |]. split.
    + constructor; [done |].
      eapply Forall_impl; [exact Hrange |]. intros c Hc. cbv beta in Hc. lia.
    + constructor; [lia |].
      eapply Forall_impl; [exact Hrange |]. intros c Hc. cbv beta in Hc. lia.
Qed.

Lemma exact_cursor_regular (n m : Z) : 0 < m → m < n → cursor_regular Q n m.
Proof.
  intros Hm Hn. unfold cursor_regular.
  pose proof (step_ge_1 _ _ Hm Hn) as Hstep.
  destruct (exact_cursor_candidates n (inject_Z n / inject_Z m) (Z.to_nat m) Hstep
              (inject_Z 0)) as (cs & Hcs & Hsorted & Hrange).
  - apply Qle_refl.
  - rewrite Z2Nat.id by lia.
    assert (~ inject_Z m == 0)%Q as Hne.
    { change 0%Q with (inject_Z 0). rewrite inject_Z_injective. lia. }
    assert (inject_Z m * (inject_Z n / inject_Z m) == inject_Z n)%Q as ->.
    { field. done. }
    change (inject_Z 0) with 0%Q. lra.
  - exists cs. split; [exact Hcs |]. split; [done |].
    eapply Forall_impl; [exact Hrange |]. intros c Hc. cbv beta in Hc.
    change (py_int (inject_Z 0)) with 0 in Hc. lia.
Qed.

Lemma exact_sampling_regular (n m : Z) : 0 < m → sampling_regular Q n m.
Proof.
  intros Hm. destruct (decide (n ≤ m)); [by left | right].
  apply exact_cursor_regular; lia.
Qed.

(** *** Binary64 arithmetic *)

Lemma increasing_within_sound (hi : Z) (cs : list Z) :
  ∀ lo, increasing_within lo hi cs = true →
        StronglySorted Z.lt cs ∧ Forall (λ c, lo ≤ c < hi) cs.
Proof.
  induction cs as [|c cs IH]; intros lo Hb; simpl in Hb.
  - split; constructor.
  - apply andb_prop in Hb as [Hb Hrest]. apply andb_prop in Hb as [Hlo Hhi].
    destruct (IH _ Hrest) as [Hsorted Hall]. split.
    + constructor; [done |].
      eapply Forall_impl; [exact Hall |]. intros d Hd. cbv beta in Hd. lia.
    + constructor; [lia |].
      eapply Forall_impl; [exact Hall |]. intros d Hd. cbv beta in Hd. lia.
Qed.

Lemma cursor_regularb_sound (F : Type) `{FloatArith F} (n m : Z) :
  cursor_regularb F n m = true → cursor_regular F n m.
Proof.
  unfold cursor_regularb, cursor_regular.
  destruct (cursor_candidates _ _ _) as [cs | e]; [| done].
  intros Hb. exists cs. split; [done |]. by apply increasing_within_sound.
Qed.

Lemma elem_of_Z_range (lo hi x : Z) : lo ≤ x < hi → x ∈ Z_range lo hi.
Proof.
  intros Hx. unfold Z_range. apply list_elem_of_fmap.
  exists (Z.to_nat (x - lo)). split; [lia |].
  apply elem_of_seq. lia.
Qed.

(** The binary64 cursor, run on every cap below every length up to 64. *)
Lemma binary64_regular_small (n m : Z) :
  0 < m → m < n → n ≤ 64 → cursor_regular float n m.
Proof.
  intros Hm Hn Hsmall. apply cursor_regularb_sound.
  assert (forallb (λ n, forallb (λ m, cursor_regularb float n m) (Z_range 1 n))
                  (Z_range 2 65) = true) as Hall.
  { vm_compute. reflexivity. }
  rewrite forallb_forall in Hall.
  specialize (Hall n). rewrite forallb_forall in Hall.
  apply Hall; apply list_elem_of_In, elem_of_Z_range; lia.
Qed.

(** The binary64 cursor, run on the cap 40 of the basic pipeline for
    every length it can fetch, and on the cap 300 of the cluster-based
    pipeline likewise. *)
Lemma binary64_regular_defaults (n m : Z) :
  (m = 40 ∧ n ≤ 1000) ∨ (m = 300 ∧ n ≤ 600) → m < n → cursor_regular float n m.
Proof.
  intros Hcase Hn. apply cursor_regularb_sound.
  destruct Hcase as [[-> Hle] | [-> Hle]].
  - assert (forallb (λ n, cursor_regularb float n 40) (Z_range 41 1001) = true) as Hall.
    { vm_compute. reflexivity. }
    rewrite forallb_forall in Hall.
    apply Hall, list_elem_of_In, elem_of_Z_range. lia.
  - assert (forallb (λ n, cursor_regularb float n 300) (Z_range 301 601) = true) as Hall.
    { vm_compute. reflexivity. }
    rewrite forallb_forall in Hall.
    apply Hall, list_elem_of_In, elem_of_Z_range. lia.
Qed.

Lemma binary64_checked_regular (n m : Z) :
  0 < m → m < n → binary64_checked n m → cursor_regular float n m.
Proof.
  intros Hm Hn [Hsmall | Hdefault].
  - by apply binary64_regular_small.
  - by apply binary64_regular_defaults.
Qed.

Lemma binary64_sampling_regular (n m : Z) :
  0 < m → n ≤ m ∨ binary64_checked n m → sampling_regular float n m.
Proof.
  intros Hm [Hle | Hchecked]; [by left |].
  destruct (decide (n ≤ m)); [by left | right].
  apply binary64_checked_regular; [done | lia | done].
Qed.

(** X1.  For every cap of at least one the sampler returns [min(N, M)]
    items, the input itself when the cap is not below [N], in the relative
    order of the input: in exact arithmetic for every list, in binary64
    arithmetic when the cap covers the list or the size is one on which
    the cursor has been run. *)
Lemma sampler_cap_at_least_one {A} (items : list A) (max_samples : Z) :
  0 < max_samples →
  (∃ xs, _evenly_sample Q items max_samples = Ok xs
         ∧ len xs = Z.min (len items) max_samples
         ∧ (len items ≤ max_samples → xs = items)
         ∧ sublist xs items)
  ∧ (len items ≤ max_samples ∨ binary64_checked (len items) max_samples →
     ∃ xs, _evenly_sample float items max_samples = Ok xs
           ∧ len xs = Z.min (len items) max_samples
           ∧ (len items ≤ max_samples → xs = items)
           ∧ sublist xs items).
Proof.
  intros Hm. split.
  - apply evenly_sample_returns; [done |]. by apply exact_sampling_regular.
  - intros Hsize. apply evenly_sample_returns; [done |].
    by apply binary64_sampling_regular.
Qed.

(** The empty list with a cap of 0 passes the guard of the sampler. *)
Lemma sampler_zero_cap_empty (F : Type) `{FloatArith F} {A} :
  _evenly_sample F (@nil A) 0 = Ok [].
Proof. reflexivity. Qed.

(** C3 (the code departs from the claim at a cap of 0).  The claim gives
    the empty result for [M = 0]; on a list that is not empty both
    samplers instead divide [len(items)] by the cap and raise
    [ZeroDivisionError], whatever the float arithmetic. *)
Theorem sampler_zero_cap_raises (F : Type) `{FloatArith F} {A} (x : A) (items : list A) :
  _evenly_sample F (x :: items) 0 = Raise ZeroDivisionError
  ∧ _select_diverse_samples F (x :: items) 0 = Raise ZeroDivisionError.
Proof.
  unfold _select_diverse_samples, _evenly_sample, evenly_sample_traced.
  assert ((len (x :: items) <=? 0) = false) as ->.
  { apply Z.leb_gt. unfold len. rewrite length_cons. lia. }
  done.
Qed.

(** X26.  For a cap [M] with [0 < M < N] the sampling is in order: the
    sampler returns, the indices it takes are strictly increasing, hence
    pairwise distinct, and lie in the list; every index taken is the
    candidate [int(idx)] itself, so the advance past used indices never
    moves; and the items returned are the items at those indices.  This
    holds in exact arithmetic for every list and cap, because the step
    exceeds 1, and in binary64 arithmetic on the sizes on which the
    cursor has been run: every cap below every length up to 64, cap 40
    for the lengths up to 1000 and cap 300 for the lengths up to 600.
    For the other sizes the binary64 case is left open. *)
Theorem sampler_indices_increasing {A} (items : list A) (max_samples : Z) :
  0 < max_samples → max_samples < len items →
  samples_in_order Q items max_samples
  ∧ (binary64_checked (len items) max_samples →
     samples_in_order float items max_samples).
Proof.
  intros Hm Hn. split.
  - apply regular_samples_in_order; [done.. |]. by apply exact_cursor_regular.
  - intros Hchecked. apply regular_samples_in_order; [done.. |].
    by apply binary64_checked_regular.
Qed.

Lemma sampler_indices_increasing_witness :
  samples_in_order Q ["a"; "b"; "c"; "d"; "e"] 2
  ∧ (binary64_checked (len ["a"; "b"; "c"; "d"; "e"]) 2 →
     samples_in_order float ["a"; "b"; "c"; "d"; "e"] 2).
Proof. apply sampler_indices_increasing; unfold len; simpl; lia. Defined.

Example sample_7_3 :
  _evenly_sample float ["a"; "b"; "c"; "d"; "e"; "f"; "g"] 3 = Ok ["a"; "c"; "e"].
Proof. vm_compute. reflexivity. Qed.

(** Ten additions of the binary64 step 1.1 give 10.999999999999998, so
    the eleventh slot takes index 10 where exact arithmetic takes 11. *)
Example sample_22_20_binary64 :
  sampled_positions float (replicate 22 ()) 20
  = Ok [0; 1; 2; 3; 4; 5; 6; 7; 8; 9; 10; 12; 13; 14; 15; 16; 17; 18; 19; 20].
Proof. vm_compute. reflexivity. Qed.

Example sample_22_20_exact :
  sampled_positions Q (replicate 22 ()) 20
  = Ok [0; 1; 2; 3; 4; 5; 6; 7; 8; 9; 11; 12; 13; 14; 15; 16; 17; 18; 19; 20].
Proof. vm_compute. reflexivity. Qed.
(** ** Stable descending sort *)

Section SortDesc.
Context {A : Type} (key : A → Z).

Lemma insert_desc_perm x l : insert_desc key x l ≡ₚ x :: l.
Proof.
  induction l as [|y l IH]; simpl; [done |].
  destruct (key x <? key y); [| done].
  rewrite IH. apply Permutation_swap.
Qed.

Lemma sort_desc_perm l : sort_desc key l ≡ₚ l.
Proof.
  induction l as [|x l IH]; simpl; [done |].
  rewrite insert_desc_perm. by rewrite IH.
Qed.

Lemma insert_desc_sorted x l :
  StronglySorted (desc key) l → StronglySorted (desc key) (insert_desc key x l).
Proof.
  induction 1 as [|y l Hs IH Hall]; simpl.
  - repeat constructor.
  - destruct (key x <? key y) eqn:E.
    + constructor; [done |]. rewrite insert_desc_perm.
      constructor; [unfold desc; lia | done].
    + constructor; [by constructor |].
      constructor; [unfold desc; lia |].
      eapply Forall_impl; [exact Hall |]. unfold desc. intros z Hz. lia.
Qed.

Lemma sort_desc_sorted l : StronglySorted (desc key) (sort_desc key l).
Proof.
  induction l as [|x l IH]; simpl; [constructor |].
  by apply insert_desc_sorted.
Qed.
End SortDesc.

Lemma py_sum_cons (x : Z) (l : list Z) : py_sum (x :: l) = x + py_sum l.
Proof. reflexivity. Qed.

Lemma py_sum_perm (l k : list Z) : l ≡ₚ k → py_sum l = py_sum k.
Proof. induction 1; rewrite ?py_sum_cons; lia. Qed.

Lemma py_sum_len_concat {B} (ls : list (list B)) :
  py_sum (len <$> ls) = len (concat ls).
Proof.
  induction ls as [|l ls IH]; [done |].
  rewrite fmap_cons, py_sum_cons, IH. simpl concat.
  unfold len. rewrite length_app. lia.
Qed.

(** ** Grouping by label *)

Section GroupByLabel.
Context {A : Type}.
Implicit Types (d : list (Z * list A)) (seen pairs : list (A * Z)).

Lemma filter_none {B} (P : B → Prop) `{!∀ x, Decision (P x)} (l : list B) :
  (∀ x, x ∈ l → ¬ P x) → filter P l = [].
Proof.
  induction l as [|x l IH]; intros Hall; [done |].
  rewrite filter_cons_False by (apply Hall; left).
  apply IH. intros y Hy. apply Hall. by right.
Qed.

Lemma dict_append_keys k (x : A) d :
  (Advanced.dict_append k x d).*1
  = if decide (k ∈ d.*1) then d.*1 else (d.*1 ++ [k])%list.
Proof.
  induction d as [|[k' xs] d IH]; [done |]. simpl.
  destruct (decide (k = k')) as [-> | Hne].
  - by rewrite decide_True by (by left).
  - rewrite fmap_cons, IH. simpl. destruct (decide (k ∈ d.*1)) as [Hin | Hout].
    + by rewrite decide_True by (by right).
    + rewrite decide_False; [done |].
      intros [Heq | Hin]%elem_of_cons; [by apply Hne | by apply Hout].
Qed.

Lemma dict_append_elem k x d k' xs' :
  NoDup d.*1 →
  (k', xs') ∈ Advanced.dict_append k x d →
  (k' ≠ k ∧ (k', xs') ∈ d)
  ∨ (k' = k ∧ ((∃ xs, (k, xs) ∈ d ∧ xs' = (xs ++ [x])%list)
               ∨ ((k ∉ d.*1) ∧ xs' = [x]))).
Proof.
  induction d as [|[k0 xs0] d IH]; simpl; intros Hnd Hin.
  - apply list_elem_of_singleton in Hin. simplify_eq.
    right. split; [done |]. right. split; [apply not_elem_of_nil | done].
  - apply NoDup_cons in Hnd as [Hk0 Hnd].
    destruct (decide (k = k0)) as [-> | Hne].
    + apply elem_of_cons in Hin as [Heq | Hin].
      * simplify_eq. right. split; [done |]. left. exists xs0.
        split; [by left | done].
      * left. split; [| by right]. intros ->. apply Hk0.
        apply list_elem_of_fmap. by exists (k0, xs').
    + apply elem_of_cons in Hin as [Heq | Hin].
      * simplify_eq. left. split; [done | by left].
      * destruct (IH Hnd Hin) as [[Hk' Hold] | [-> [(xs & Hxs & ->) | [Hk ->]]]].
        -- left. split; [done | by right].
        -- right. split; [done |]. left. exists xs. split; [by right | done].
        -- right. split; [done |]. right. split; [| done].
           intros [Heq | Hold]%elem_of_cons; [by apply Hne | by apply Hk].
Qed.

Lemma grouped_append d seen k x :
  grouped d seen → grouped (Advanced.dict_append k x d) (seen ++ [(x, k)]).
Proof.
  intros (Hnd & Hent & Hcov). split; [| split].
  - rewrite dict_append_keys. case_decide; [done |].
    apply NoDup_app. split; [done |]. split; [| apply NoDup_singleton].
    intros k' Hk' ->%list_elem_of_singleton. done.
  - intros k' xs' Hin. rewrite filter_app, fmap_app.
    apply dict_append_elem in Hin
      as [[Hne Hin] | [-> [(xs & Hxs & ->) | [Hk ->]]]]; [| | | done].
    + destruct (Hent _ _ Hin) as [-> Hne'].
      rewrite filter_cons_False by (simpl; congruence).
      rewrite filter_nil. simpl. by rewrite app_nil_r.
    + destruct (Hent _ _ Hxs) as [-> Hne'].
      rewrite filter_cons_True by done. rewrite filter_nil. simpl.
      split; [done |]. by destruct (filter _ seen).*1.
    + rewrite filter_cons_True by done. rewrite filter_nil. simpl.
      split; [| done].
      assert (filter (λ p : A * Z, p.2 = k) seen = []) as ->; [| done].
      apply filter_none. intros p Hp Hp2. apply Hk. rewrite <- Hp2. by apply Hcov.
  - intros p Hp. rewrite dict_append_keys.
    apply elem_of_app in Hp as [Hp | ->%list_elem_of_singleton].
    + apply Hcov in Hp. case_decide; [done |]. apply elem_of_app. by left.
    + simpl. case_decide; [done |]. apply elem_of_app. right. by left.
Qed.
Lemma grouped_foldl pairs d seen :
  grouped d seen →
  grouped (foldl (λ d p, Advanced.dict_append p.2 p.1 d) d pairs) (seen ++ pairs).
Proof.
  revert d seen. induction pairs as [|[x k] pairs IH]; intros d seen H; simpl.
  - by rewrite app_nil_r.
  - replace (seen ++ (x, k) :: pairs)%list with ((seen ++ [(x, k)]) ++ pairs)%list
      by (by rewrite <- app_assoc).
    apply IH. by apply grouped_append.
Qed.

Lemma group_by_label_grouped pairs : grouped (Advanced.group_by_label pairs) pairs.
Proof.
  apply (grouped_foldl pairs [] []). split; [constructor |].
  split; [intros k xs Hin | intros p Hin]; by apply elem_of_nil in Hin.
Qed.

Lemma dict_append_concat k (x : A) d :
  concat (Advanced.dict_append k x d).*2 ≡ₚ x :: concat d.*2.
Proof.
  induction d as [|[k' xs] d IH]; simpl; [done |].
  destruct (decide (k = k')); simpl.
  - rewrite <- app_assoc. simpl. by rewrite <- Permutation_middle.
  - rewrite IH. by rewrite <- Permutation_middle.
Qed.

Lemma group_by_label_concat pairs :
  concat (Advanced.group_by_label pairs).*2 ≡ₚ pairs.*1.
Proof.
  unfold Advanced.group_by_label.
  assert (∀ d, concat (foldl (λ d p, Advanced.dict_append p.2 p.1 d) d pairs).*2
               ≡ₚ concat d.*2 ++ pairs.*1) as H.
  { induction pairs as [|[x k] pairs IH]; intros d; simpl.
    - by rewrite app_nil_r.
    - rewrite IH, dict_append_concat. simpl. by rewrite <- Permutation_middle. }
  by rewrite H.
Qed.
End GroupByLabel.

(** ** The Cluster Engine *)

Import Advanced.

Lemma concat_perm {B} (ls ks : list (list B)) : ls ≡ₚ ks → concat ls ≡ₚ concat ks.
Proof.
  induction 1 as [|l ls ks _ IH|l k ls|ls ks ms _ IH1 _ IH2]; simpl.
  - done.
  - by rewrite IH.
  - rewrite !app_assoc. f_equiv. apply Permutation_app_comm.
  - by rewrite IH1.
Qed.

Lemma filter_zip_replicate {B} (l : list B) (k : Z) :
  (filter (λ p : B * Z, p.2 = k) (zip l (replicate (length l) k))).*1 = l.
Proof.
  induction l as [|x l IH]; [done |]. simpl.
  rewrite filter_cons_True by done. rewrite fmap_cons. simpl. f_equal. exact IH.
Qed.

(** What it means for a list of clusters to partition a batch: under
    some labelling of the positions of the batch, the clusters have
    distinct identifiers, every label is the identifier of a cluster, and
    a cluster holds, in order, the summaries at the positions that carry
    its identifier. *)
Lemma single_cluster_partitions (summaries : list string) :
  ∃ labels : list Z,
    length labels = length summaries
    ∧ NoDup (cluster_id <$> single_cluster summaries)
    ∧ (∀ l, l ∈ labels → l ∈ cluster_id <$> single_cluster summaries)
    ∧ (∀ c, c ∈ single_cluster summaries →
         Advanced.summaries c
         = (filter (λ p, p.2 = cluster_id c) (zip summaries labels)).*1).
Proof.
  exists (replicate (length summaries) 0). split; [by rewrite length_replicate |].
  split; [apply NoDup_singleton |]. split.
  - intros l Hl. apply elem_of_replicate in Hl as [-> _]. simpl. by left.
  - intros c Hc. apply list_elem_of_singleton in Hc as ->. simpl.
    by rewrite filter_zip_replicate.
Qed.

Lemma grouped_clusters_partition (summaries : list string) (labels : list Z) :
  length labels = length summaries →
  let clusters :=
    sort_desc cluster_size (make_cluster <$> group_by_label (zip summaries labels)) in
  NoDup (cluster_id <$> clusters)
  ∧ (∀ l, l ∈ labels → l ∈ cluster_id <$> clusters)
  ∧ (∀ c, c ∈ clusters →
       Advanced.summaries c
       = (filter (λ p, p.2 = cluster_id c) (zip summaries labels)).*1)
  ∧ concat (Advanced.summaries <$> clusters) ≡ₚ summaries
  ∧ Forall (λ c, cluster_size c = len (Advanced.summaries c)) clusters.
Proof.
  intros Hlen clusters.
  pose proof (group_by_label_grouped (zip summaries labels)) as (Hnd & Hent & Hcov).
  assert (clusters ≡ₚ make_cluster <$> group_by_label (zip summaries labels)) as Hperm
    by apply sort_desc_perm.
  assert (cluster_id <$> (make_cluster <$> group_by_label (zip summaries labels))
          = (group_by_label (zip summaries labels)).*1) as Hids.
  { rewrite <- list_fmap_compose. by apply list_fmap_ext. }
  assert (Advanced.summaries <$> (make_cluster <$> group_by_label (zip summaries labels))
          = (group_by_label (zip summaries labels)).*2) as Hmem.
  { rewrite <- list_fmap_compose. by apply list_fmap_ext. }
  split; [| split; [| split; [| split]]].
  - rewrite Hperm, Hids. done.
  - intros l Hl. rewrite Hperm, Hids.
    rewrite <- (snd_zip summaries labels) in Hl by lia.
    apply list_elem_of_fmap in Hl as (p & -> & Hp). by apply Hcov.
  - intros c Hc. rewrite Hperm in Hc.
    apply list_elem_of_fmap in Hc as ([k xs] & -> & Hin). simpl.
    by destruct (Hent _ _ Hin) as [-> _].
  - rewrite Hperm, Hmem, group_by_label_concat. by rewrite fst_zip by lia.
  - rewrite Hperm. apply Forall_fmap, Forall_forall. by intros [k xs] _.
Qed.

(** C4.  For a batch that is not empty, with a KMeans that gives one
    label per summary when it succeeds, the clusters returned partition
    the batch: positions carry labels, clusters have distinct identifiers,
    each cluster holds exactly the summaries whose position carries its
    identifier, so every claim lies in exactly one cluster; the members
    together are a rearrangement of the batch, the sizes are the member
    counts and add up to the batch size, and the list is in descending
    order of size. *)
Theorem cluster_summaries_partition {Vec} (libs : Libs Vec)
    (summaries : list string) (embeddings : list Vec) :
  summaries ≠ [] →
  (∀ fit_predict labels,
     KMeans libs = Some fit_predict →
     fit_predict (choose_k (len summaries)) embeddings = Ok labels →
     length labels = length summaries) →
  let clusters := cluster_summaries libs summaries embeddings in
  (∃ labels : list Z,
     length labels = length summaries
     ∧ NoDup (cluster_id <$> clusters)
     ∧ (∀ l, l ∈ labels → l ∈ cluster_id <$> clusters)
     ∧ (∀ c, c ∈ clusters →
          Advanced.summaries c
          = (filter (λ p, p.2 = cluster_id c) (zip summaries labels)).*1))
  ∧ concat (Advanced.summaries <$> clusters) ≡ₚ summaries
  ∧ Forall (λ c, cluster_size c = len (Advanced.summaries c)) clusters
  ∧ py_sum (cluster_size <$> clusters) = len summaries
  ∧ StronglySorted (desc cluster_size) clusters.
Proof.
  intros Hne Hkm clusters.
  assert ((∃ labels : list Z,
     length labels = length summaries
     ∧ NoDup (cluster_id <$> clusters)
     ∧ (∀ l, l ∈ labels → l ∈ cluster_id <$> clusters)
     ∧ (∀ c, c ∈ clusters →
          Advanced.summaries c
          = (filter (λ p, p.2 = cluster_id c) (zip summaries labels)).*1))
  ∧ concat (Advanced.summaries <$> clusters) ≡ₚ summaries
  ∧ Forall (λ c, cluster_size c = len (Advanced.summaries c)) clusters
  ∧ StronglySorted (desc cluster_size) clusters) as (Hpart & Hperm & Hsize & Hsorted).
  { assert (let cs := single_cluster summaries in
      (∃ labels : list Z,
         length labels = length summaries
         ∧ NoDup (cluster_id <$> cs)
         ∧ (∀ l, l ∈ labels → l ∈ cluster_id <$> cs)
         ∧ (∀ c, c ∈ cs →
              Advanced.summaries c
              = (filter (λ p, p.2 = cluster_id c) (zip summaries labels)).*1))
      ∧ concat (Advanced.summaries <$> cs) ≡ₚ summaries
      ∧ Forall (λ c, cluster_size c = len (Advanced.summaries c)) cs
      ∧ StronglySorted (desc cluster_size) cs) as Hsingle.
    { split; [apply single_cluster_partitions |]. simpl. rewrite app_nil_r.
      split; [done |]. split; repeat constructor. }
    subst clusters. unfold cluster_summaries.
    destruct (len summaries =? 0) eqn:E0.
    { destruct summaries; [done |]. unfold len in E0. simpl in E0. lia. }
    destruct (KMeans libs) as [fit_predict |] eqn:Ek; [| exact Hsingle].
    destruct (len summaries <? MIN_CLUSTER_SUMMARIES); [exact Hsingle |].
    destruct (fit_predict (choose_k (len summaries)) embeddings)
      as [labels | e] eqn:Efit; [| exact Hsingle].
    specialize (Hkm fit_predict labels eq_refl Efit).
    destruct (grouped_clusters_partition summaries labels Hkm)
      as (H1 & H2 & H3 & H4 & H5).
    split; [by exists labels |]. split; [done |]. split; [done |].
    apply sort_desc_sorted. }
  split; [done |]. split; [done |]. split; [done |]. split; [| done].
  transitivity (py_sum (len <$> (Advanced.summaries <$> clusters))).
  - f_equal. rewrite <- list_fmap_compose. apply Forall_fmap_ext_1.
    eapply Forall_impl; [exact Hsize |]. done.
  - rewrite py_sum_len_concat. unfold len. by rewrite Hperm.
Qed.

(** C5, as amended.  On a batch that is not empty, when the batch has
    fewer than 12 summaries, or KMeans is missing, or KMeans raises, the
    engine returns exactly one cluster, which holds the whole batch; on
    the empty batch it returns no cluster at all. *)
Theorem cluster_summaries_fallback {Vec} (libs : Libs Vec)
    (summaries : list string) (embeddings : list Vec) :
  (len summaries < MIN_CLUSTER_SUMMARIES
   ∨ KMeans libs = None
   ∨ ∃ fit_predict e,
       KMeans libs = Some fit_predict
       ∧ fit_predict (choose_k (len summaries)) embeddings = Raise e) →
  (summaries = [] → cluster_summaries libs summaries embeddings = [])
  ∧ (summaries ≠ [] →
     ∃ c, cluster_summaries libs summaries embeddings = [c]
          ∧ Advanced.summaries c = summaries
          ∧ cluster_size c = len summaries
          ∧ cluster_id c = 0).
Proof.
  intros Hcond. split.
  - intros ->. done.
  - intros Hne.
    assert (cluster_summaries libs summaries embeddings = single_cluster summaries)
      as ->; [| by eexists].
    unfold cluster_summaries.
    destruct (len summaries =? 0) eqn:E0.
    { destruct summaries; [done |]. unfold len in E0. simpl in E0. lia. }
    destruct (KMeans libs) as [fit_predict |] eqn:Ek; [| done].
    destruct (len summaries <? MIN_CLUSTER_SUMMARIES) eqn:En; [done |].
    destruct Hcond as [Hn | [Hk | (fp & e & Hk & Hfit)]]; [lia | done |].
    simplify_eq. by rewrite Hfit.
Qed.

Lemma cluster_summaries_partition_witness :
  let libs := Doubles.libs_of (Some Doubles.round_robin) [] in
  let summaries := Doubles.twelve_summaries in
  let clusters := cluster_summaries libs summaries (replicate 12 ()) in
  (∃ labels : list Z,
     length labels = length summaries
     ∧ NoDup (cluster_id <$> clusters)
     ∧ (∀ l, l ∈ labels → l ∈ cluster_id <$> clusters)
     ∧ (∀ c, c ∈ clusters →
          Advanced.summaries c
          = (filter (λ p, p.2 = cluster_id c) (zip summaries labels)).*1))
  ∧ concat (Advanced.summaries <$> clusters) ≡ₚ summaries
  ∧ Forall (λ c, cluster_size c = len (Advanced.summaries c)) clusters
  ∧ py_sum (cluster_size <$> clusters) = len summaries
  ∧ StronglySorted (desc cluster_size) clusters.
Proof.
  apply (cluster_summaries_partition
           (Doubles.libs_of (Some Doubles.round_robin) [])
           Doubles.twelve_summaries (replicate 12 ())).
  - done.
  - intros fit_predict labels Hk Hfit. simpl in Hk. injection Hk as <-.
    vm_compute in Hfit. injection Hfit as <-. reflexivity.
Defined.

Example cluster_twelve_round_robin :
  (λ c, (cluster_id c, cluster_size c, Advanced.summaries c))
    <$> cluster_summaries (Doubles.libs_of (Some Doubles.round_robin) [])
          Doubles.twelve_summaries (replicate 12 ())
  = [ (0, 6, ["- a"; "- c"; "- e"; "- g"; "- i"; "- k"]);
      (1, 6, ["- b"; "- d"; "- f"; "- h"; "- j"; "- l"]) ].
Proof. vm_compute. reflexivity. Qed.

Lemma cluster_summaries_fallback_witness :
  let libs := Doubles.libs_of None [] in
  (["- a"; "- b"] = [] → cluster_summaries libs ["- a"; "- b"] [(); ()] = [])
  ∧ (["- a"; "- b"] ≠ [] →
     ∃ c, cluster_summaries libs ["- a"; "- b"] [(); ()] = [c]
          ∧ Advanced.summaries c = ["- a"; "- b"]
          ∧ cluster_size c = len ["- a"; "- b"]
          ∧ cluster_id c = 0).
Proof.
  apply (cluster_summaries_fallback (Doubles.libs_of None []) ["- a"; "- b"] [(); ()]).
  left. reflexivity.
Defined.

(** C5 as stated fails on the empty batch: it has fewer than 12
    summaries, and the engine returns no cluster for it. *)
Lemma cluster_summaries_empty_batch_counterexample :
  len (@nil string) < MIN_CLUSTER_SUMMARIES
  ∧ ¬ ∃ c, cluster_summaries (Doubles.libs_of (Some Doubles.round_robin) []) [] [] = [c].
Proof. split; [reflexivity |]. intros [c Hc]. discriminate Hc. Qed.

(** ** The Claim Summarizer *)

Section Summarizer.
Context {W Vec : Type} (config : Config) (client : OpenAI W Vec).

(** One comment: the body of the loop returns, with at least one
    line. *)
Lemma summarize_one_total (text : string) (w : W) :
  ∃ w' lines, summarize_one config client text w = (w', Ok lines) ∧ lines ≠ [].
Proof.
  unfold summarize_one, try_except.
  unfold mbind, M_mbind, M_bind, mret, M_mret, M_ret, lift.
  destruct (chat_completions_create client _ w) as [w1 [resp | e]].
  - destruct (py_getitem resp 0) as [choice | e].
    + eexists _, _. split; [reflexivity |].
      by destruct (strip <$> filter _ (splitlines (strip (default "" choice)))).
    + by eexists _, _.
  - by eexists _, _.
Qed.


Lemma summarize_loop_total (comments_to_use summaries : list string) (w : W) :
  ∃ w' per_comment,
    summarize_loop config client comments_to_use summaries w
      = (w', Ok (summaries ++ concat per_comment)%list)
    ∧ Forall2 (λ text lines,
                 lines ≠ []
                 ∧ ∃ w1 w2, summarize_one config client text w1 = (w2, Ok lines))
              comments_to_use per_comment.
Proof.
  revert summaries w.
  induction comments_to_use as [|text rest IH]; intros summaries w; simpl.
  - exists w, []. simpl. rewrite app_nil_r. split; [done | constructor].
  - destruct (summarize_one_total text w) as (w1 & lines & H1 & Hne).
    rewrite (M_bind_ok _ _ _ _ _ H1).
    destruct (IH (summaries ++ lines)%list w1) as (w2 & per & H2 & Hall).
    exists w2, (lines :: per). simpl. rewrite app_assoc. split; [done |].
    constructor; [| done]. split; [done |]. by exists w, w1.
Qed.

(** Once the sampler has returned, the summarizer returns. *)
Lemma summarize_comments_sampled (F : Type) `{FloatArith F} (comments : list string)
    (sentiment_label theme_name theme_type : string) (max_summaries : Z) (w : W)
    (comments_to_use : list string) :
  0 < max_summaries →
  _evenly_sample F comments max_summaries = Ok comments_to_use →
  ∃ w' per_comment,
    summarize_comments F config comments client sentiment_label theme_name
      theme_type max_summaries w = (w', Ok (concat per_comment))
    ∧ Forall2 (λ text lines,
                 lines ≠ []
                 ∧ ∃ w1 w2, summarize_one config client text w1 = (w2, Ok lines))
              comments_to_use per_comment
    ∧ (comments ≠ [] → concat per_comment ≠ []).
Proof.
  intros Hcap Hsample.
  destruct comments as [|c comments].
  - exists w, [].
    rewrite evenly_sample_identity in Hsample by (unfold len; simpl; lia).
    injection Hsample as <-. split; [reflexivity |]. split; [constructor | done].
  - destruct (summarize_loop_total comments_to_use [] w) as (w' & per & Hloop & Hall).
    exists w', per. split.
    { unfold summarize_comments. unfold lift.
      unfold mbind at 1. unfold M_mbind, M_bind. rewrite Hsample. exact Hloop. }
    split; [done |]. intros _.
    pose proof (evenly_sample_nonempty F (c :: comments) max_summaries
                  comments_to_use Hcap) as Hne.
    destruct Hall as [|text lines used' per' [Hlines _] _].
    + by destruct Hne.
    + simpl. by destruct lines.
Qed.

(** With a cap of at least one and a regular sampling the summarizer
    returns. *)
Lemma summarize_comments_returns (F : Type) `{FloatArith F} (comments : list string)
    (sentiment_label theme_name theme_type : string) (max_summaries : Z) (w : W) :
  0 < max_summaries →
  sampling_regular F (len comments) max_summaries →
  summarizer_returns F config client comments sentiment_label theme_name
    theme_type max_summaries w.
Proof.
  intros Hcap Hreg.
  destruct (evenly_sample_returns F comments max_summaries Hcap Hreg)
    as (used & Hsample & _).
  destruct (summarize_comments_sampled F comments sentiment_label theme_name
              theme_type max_summaries w used Hcap Hsample) as (w' & per & Hrest).
  by exists w', used, per.
Qed.

(** Whatever the arithmetic, on a batch that is not empty the summarizer
    either raises or returns at least one line. *)
Lemma summarize_comments_raises_or_nonempty (F : Type) `{FloatArith F}
    (comments : list string) (sentiment_label theme_name theme_type : string)
    (max_summaries : Z) (w : W) :
  0 < max_summaries → comments ≠ [] →
  (∃ w' e, summarize_comments F config comments client sentiment_label theme_name
             theme_type max_summaries w = (w', Raise e))
  ∨ (∃ w' out, summarize_comments F config comments client sentiment_label
                 theme_name theme_type max_summaries w = (w', Ok out)
               ∧ out ≠ []).
Proof.
  intros Hcap Hne.
  destruct (_evenly_sample F comments max_summaries) as [used | e] eqn:Hsample.
  - right.
    destruct (summarize_comments_sampled F comments sentiment_label theme_name
                theme_type max_summaries w used Hcap Hsample)
      as (w' & per & Hsum & _ & Hout).
    exists w', (concat per). split; [done | by apply Hout].
  - left. exists w, e. unfold summarize_comments.
    destruct comments; [done |]. unfold lift.
    unfold mbind at 1. unfold M_mbind, M_bind. by rewrite Hsample.
Qed.

End Summarizer.


Example summarize_with_chat_down :
  (summarize_comments float Doubles.config_with_key ["pay is low"; "no feedback"]
     (Doubles.logging_client Doubles.chat_down Doubles.embeds)
     "negative" "pay" "base_theme" MAX_SUMMARIES_PER_THEME Doubles.no_calls).2
  = Ok ["- pay is low"; "- no feedback"].
Proof. vm_compute. reflexivity. Qed.

Example summarize_without_bullets :
  (summarize_comments float Doubles.config_with_key ["pay is low"]
     (Doubles.logging_client (Doubles.says "Pay is a concern.") Doubles.embeds)
     "negative" "pay" "base_theme" MAX_SUMMARIES_PER_THEME Doubles.no_calls).2
  = Ok ["- pay is low"].
Proof. vm_compute. reflexivity. Qed.

Example summarize_with_bullets :
  (summarize_comments float Doubles.config_with_key ["pay is low"]
     (Doubles.logging_client
        (Doubles.says ("Here:" +:+ NL +:+ " - low pay " +:+ NL +:+ "- late pay"))
        Doubles.embeds)
     "negative" "pay" "base_theme" MAX_SUMMARIES_PER_THEME Doubles.no_calls).2
  = Ok ["- low pay"; "- late pay"].
Proof. vm_compute. reflexivity. Qed.

(** ** The Insight Synthesizer *)

Section Synthesizer.
Context {W Vec : Type} (config : Config) (libs : Libs Vec) (client : OpenAI W Vec).

Lemma parse_insight_at_most_3 (text : string) (s : Synth) :
  parse_insight libs text = Ok s → (length (recommendations s) ≤ 3)%nat.
Proof.
  unfold parse_insight. destruct (search_braces text) as [matched |].
  - destruct (json_loads libs matched) as [data | e]; [| done]. simpl.
    destruct (json_get data "summary" (JString "")) as [v | e]; [| done]. simpl.
    destruct (json_strip v) as [sm | e]; [| done]. simpl.
    destruct (json_get data "recommendations" JNull) as [r | e]; [| done]. simpl.
    intros [= <-]. simpl. rewrite length_take. lia.
  - intros [= <-]. simpl. lia.
Qed.

(** The list branch of the coercion keeps no empty string. *)
Lemma coerce_list_nonempty (l : list json) :
  Forall (λ s, s ≠ "") (coerce_recommendations libs (JArray l)).
Proof.
  simpl. apply Forall_fmap, Forall_forall. intros r Hr.
  by apply list_elem_of_filter in Hr as [Hr _].
Qed.

(** The synthesizer never raises, and returns at most three
    recommendations. *)
Lemma synthesizer_total (theme_type theme_name sentiment_label : string)
    (clusters : list Cluster) (total_comments : Z) (w : W) :
  ∃ w' s,
    generate_theme_insight_from_clusters config libs theme_type theme_name
      sentiment_label clusters total_comments client w = (w', Ok s)
    ∧ (length (recommendations s) ≤ 3)%nat.
Proof.
  unfold generate_theme_insight_from_clusters.
  destruct (bool_decide (clusters = []) || (total_comments =? 0)).
  - exists w, empty_insight. split; [done | simpl; lia].
  - unfold try_except, mbind, M_mbind, M_bind, mret, M_mret, M_ret, lift.
    destruct (chat_completions_create client _ w) as [w1 [resp | e]].
    + destruct (py_getitem resp 0) as [choice | e].
      * destruct (parse_insight libs (strip (default "" choice))) as [s | e] eqn:E.
        -- exists w1, s. split; [done |]. by eapply parse_insight_at_most_3.
        -- exists w1, empty_insight. split; [done | simpl; lia].
      * exists w1, empty_insight. split; [done | simpl; lia].
    + exists w1, empty_insight. split; [done | simpl; lia].
Qed.

(** Without clusters, or with a comment count of zero, the result is
    the all-empty one and the world is left as it was: no call is made. *)
Lemma synthesizer_nothing_to_do (theme_type theme_name sentiment_label : string)
    (clusters : list Cluster) (total_comments : Z) (w : W) :
  clusters = [] ∨ total_comments = 0 →
  generate_theme_insight_from_clusters config libs theme_type theme_name
    sentiment_label clusters total_comments client w = (w, Ok empty_insight).
Proof.
  intros H. unfold generate_theme_insight_from_clusters.
  destruct H as [-> | ->]; [done |]. by rewrite orb_true_r.
Qed.

Lemma synthesizer_call_fails (theme_type theme_name sentiment_label : string)
    (clusters : list Cluster) (total_comments : Z) (w : W) :
  chat_fails_at client w →
  ∃ w', generate_theme_insight_from_clusters config libs theme_type theme_name
          sentiment_label clusters total_comments client w = (w', Ok empty_insight).
Proof.
  intros Hfail. unfold generate_theme_insight_from_clusters.
  destruct (bool_decide (clusters = []) || (total_comments =? 0)); [by exists w |].
  unfold try_except, mbind, M_mbind, M_bind, mret, M_mret, M_ret, lift.
  match goal with
  | |- context [chat_completions_create client ?req w] =>
      destruct (Hfail req) as (w1 & e & ->)
  end.
  by exists w1.
Qed.
End Synthesizer.

(** C7 (the code departs from the claim on a scalar recommendation).  The
    model answers [{"summary": "s", "recommendations": " "}]: the value of
    ["recommendations"] is a string, not a list, it is truthy, and the
    branch for values that are not lists strips it without checking what
    is left, so the recommendations returned are one empty string. *)
Theorem synthesizer_blank_recommendation :
  let libs := Doubles.libs_of None [(Doubles.blank_recs_text, Doubles.blank_recs_json)] in
  let client := Doubles.logging_client (Doubles.says Doubles.blank_recs_text) Doubles.embeds in
  (generate_theme_insight_from_clusters Doubles.config_with_key libs
     "base_theme" "pay" "negative" (cluster_summaries libs ["- pay is low"] [()]) 1
     client Doubles.no_calls).2
  = Ok {| summary := "s"; recommendations := [""] |}.
Proof. vm_compute. reflexivity. Qed.

Example synthesizer_list_of_recommendations :
  let text := Doubles.five_recs_text in
  let libs := Doubles.libs_of None [(text, Doubles.five_recs_json)] in
  let client := Doubles.logging_client (Doubles.says ("Sure: " +:+ text)) Doubles.embeds in
  (generate_theme_insight_from_clusters Doubles.config_with_key libs
     "base_theme" "pay" "negative" (cluster_summaries libs ["- pay is low"] [()]) 1
     client Doubles.no_calls).2
  = Ok {| summary := ""; recommendations := ["a"; "b"; "c"] |}.
Proof. vm_compute. reflexivity. Qed.

Example synthesizer_no_json :
  let libs := Doubles.libs_of None [] in
  let client := Doubles.logging_client (Doubles.says " Pay is low. ") Doubles.embeds in
  (generate_theme_insight_from_clusters Doubles.config_with_key libs
     "base_theme" "pay" "negative" (cluster_summaries libs ["- pay is low"] [()]) 1
     client Doubles.no_calls).2
  = Ok {| summary := "Pay is low."; recommendations := [] |}.
Proof. vm_compute. reflexivity. Qed.

(** ** Failure of the generation call in the two pipelines *)

Lemma build_prompt_input_ok (F : Type) `{FloatArith F} (contents : list string)
    (sentiment_label : string) :
  contents ≠ [] → sampling_regular F (len contents) 40 →
  ∃ text, Basic._build_prompt_input F contents sentiment_label 40 = Ok text.
Proof.
  intros Hne Hreg. unfold Basic._build_prompt_input.
  destruct (len contents =? 0) eqn:E0.
  { destruct contents; [done |]. unfold len in E0. simpl in E0. lia. }
  destruct (evenly_sample_returns F contents 40) as (xs & Hxs & _); [lia | done |].
  unfold _select_diverse_samples. rewrite Hxs. simpl. by eexists.
Qed.

Section GenerationFailure.
Context {W Vec : Type} (config : Config) (libs : Libs Vec) (client : OpenAI W Vec).

Lemma basic_side_call_fails (F : Type) `{FloatArith F}
    (theme_type theme_name sentiment_label : string) (contents : list string) (w : W) :
  chat_fails_at client w → contents ≠ [] →
  sampling_regular F (len contents) 40 →
  ∃ w', Basic.insight_side F config libs theme_type theme_name sentiment_label
          contents client w = (w', Ok (JString Basic.UNABLE, JArray [])).
Proof.
  intros Hfail Hne Hreg. unfold Basic.insight_side.
  destruct contents as [|c contents]; [done |].
  destruct (build_prompt_input_ok F (c :: contents) sentiment_label Hne Hreg)
    as [text Ht].
  unfold lift. unfold mbind at 1. unfold M_mbind, M_bind. rewrite Ht.
  unfold try_except, mbind, M_mbind, M_bind, mret, M_mret, M_ret.
  match goal with
  | |- context [chat_completions_create client ?req w] =>
      destruct (Hfail req) as (w1 & e & ->)
  end.
  by exists w1.
Qed.

(** C8, as amended.  When the generation call fails, neither pipeline
    raises: the synthesizer of the cluster-based pipeline returns the
    all-empty result, and the basic pipeline gives the side the fixed
    summary "Unable to generate insights at this time." with no
    recommendations (in exact arithmetic for every batch, in binary64
    arithmetic for every batch of at most 1000 comments, which is what
    the basic pipeline fetches). *)
Theorem generation_failure_degrades (theme_type theme_name sentiment_label : string)
    (clusters : list Cluster) (total_comments : Z) (contents : list string) (w : W) :
  chat_fails_at client w →
  (∃ w', generate_theme_insight_from_clusters config libs theme_type theme_name
           sentiment_label clusters total_comments client w
         = (w', Ok {| summary := ""; recommendations := [] |}))
  ∧ (contents ≠ [] →
     (∃ w', Basic.insight_side Q config libs theme_type theme_name sentiment_label
              contents client w
            = (w', Ok (JString "Unable to generate insights at this time.", JArray [])))
     ∧ (len contents ≤ 1000 →
        ∃ w', Basic.insight_side float config libs theme_type theme_name
                sentiment_label contents client w
              = (w', Ok (JString "Unable to generate insights at this time.",
                         JArray [])))).
Proof.
  intros Hfail. split.
  - by apply synthesizer_call_fails.
  - intros Hne. split.
    + apply basic_side_call_fails; [done.. |]. by apply exact_sampling_regular.
    + intros Hsize. apply basic_side_call_fails; [done.. |].
      apply binary64_sampling_regular; [done |].
      destruct (decide (len contents ≤ 40)); [by left | right].
      right. by left.
Qed.
End GenerationFailure.

Lemma generation_failure_degrades_witness :
  let libs := Doubles.libs_of None [] in
  let client := Doubles.logging_client Doubles.chat_down Doubles.embeds in
  (∃ w', generate_theme_insight_from_clusters Doubles.config_with_key libs
           "base_theme" "pay" "negative" (single_cluster ["- pay is low"]) 1
           client Doubles.no_calls
         = (w', Ok {| summary := ""; recommendations := [] |}))
  ∧ (["pay is low"] ≠ [] →
     (∃ w', Basic.insight_side Q Doubles.config_with_key libs "base_theme" "pay"
              "negative" ["pay is low"] client Doubles.no_calls
            = (w', Ok (JString "Unable to generate insights at this time.", JArray [])))
     ∧ (len ["pay is low"] ≤ 1000 →
        ∃ w', Basic.insight_side float Doubles.config_with_key libs "base_theme"
                "pay" "negative" ["pay is low"] client Doubles.no_calls
              = (w', Ok (JString "Unable to generate insights at this time.",
                         JArray [])))).
Proof.
  apply (generation_failure_degrades Doubles.config_with_key (Doubles.libs_of None [])
           (Doubles.logging_client Doubles.chat_down Doubles.embeds)).
  intros req. by eexists _, _.
Defined.

(** C8 as stated fails in the basic pipeline: with the generation call
    down, the positive summary of a theme with one positive comment is the
    placeholder text, not the empty string. *)
Lemma basic_pipeline_placeholder_counterexample :
  let client := Doubles.logging_client Doubles.chat_down Doubles.embeds in
  ∃ insights,
    (Basic.generate_insights_for_theme float Doubles.config_with_key (Doubles.libs_of None [])
       "base_theme" "pay" ["pay is good"] [] client Doubles.no_calls).2 = Ok insights
    ∧ positive_summary insights = JString "Unable to generate insights at this time."
    ∧ positive_summary insights ≠ JString "".
Proof. eexists. split; [vm_compute; reflexivity |]. split; [reflexivity | discriminate]. Qed.

(** ** The read side *)

(** C9, as amended.  For a theme type that is one of the two allowed and
    a theme name that is not empty, the lookup of a key that the table in
    effect lacks answers with status 200 and an Insight whose two
    summaries are the text "No insights available for this theme." and
    whose two recommendation lists are empty.  The table in effect is the
    persisted one at the first load only, the empty table when there is
    no file to read: so the answer is this one when nothing is cached and
    the persisted table lacks the key.  Once a table is cached the file is
    not looked at, and a key that the cached table holds is answered with
    the cached record, whether the persisted table holds it or not. *)
Theorem get_theme_insights_absent_key (cache file : option (gmap string json))
    (theme_type theme_name : string) :
  theme_type ∈ ["base_theme"; "sub_theme"] →
  theme_name ≠ "" →
  let key := insight_key theme_type theme_name in
  let answer :=
    (Routes.InsightBody (JObject
       [ ("positive_summary", JString "No insights available for this theme.");
         ("negative_summary", JString "No insights available for this theme.");
         ("positive_recommendations", JArray []);
         ("negative_recommendations", JArray []) ]), 200) in
  ((Routes.load_theme_insights cache file).1 !! key = None →
   Routes.get_theme_insights cache file (Some theme_type) (Some theme_name) = answer)
  ∧ (cache = None → default ∅ file !! key = None →
     Routes.get_theme_insights cache file (Some theme_type) (Some theme_name) = answer)
  ∧ (∀ table v, cache = Some table → table !! key = Some v →
     Routes.get_theme_insights cache file (Some theme_type) (Some theme_name)
     = (Routes.InsightBody v, 200)).
Proof.
  intros Htype Hname key answer. subst key answer.
  unfold Routes.get_theme_insights.
  assert (Routes.truthy_str (Some theme_type) = true) as ->.
  { destruct theme_type; [| done].
    apply elem_of_cons in Htype as [Hbase | Hsub]; [discriminate Hbase |].
    apply list_elem_of_singleton in Hsub. discriminate Hsub. }
  assert (Routes.truthy_str (Some theme_name) = true) as ->.
  { by destruct theme_name. }
  simpl. rewrite bool_decide_eq_false_2 by (intros Hn; by apply Hn).
  split; [| split].
  - by intros ->.
  - intros -> Habsent. simpl. by rewrite Habsent.
  - intros table v -> Hv. simpl. by rewrite Hv.
Qed.

Lemma get_theme_insights_absent_key_witness :
  let stale : gmap string json := {[ "base_theme_pay" := JString "old record" ]} in
  Routes.get_theme_insights None (Some ∅) (Some "base_theme") (Some "pay")
  = (Routes.InsightBody (JObject
       [ ("positive_summary", JString "No insights available for this theme.");
         ("negative_summary", JString "No insights available for this theme.");
         ("positive_recommendations", JArray []);
         ("negative_recommendations", JArray []) ]), 200)
  ∧ Routes.get_theme_insights (Some stale) (Some ∅) (Some "base_theme") (Some "pay")
    = (Routes.InsightBody (JString "old record"), 200).
Proof.
  intros stale. split.
  - apply (get_theme_insights_absent_key None (Some ∅) "base_theme" "pay").
    + by left.
    + discriminate.
    + reflexivity.
    + reflexivity.
  - apply (get_theme_insights_absent_key (Some stale) (Some ∅) "base_theme" "pay")
      with (table := stale).
    + by left.
    + discriminate.
    + reflexivity.
    + reflexivity.
Defined.

(** C9 as stated fails: the table is empty, so the key is absent, and
    the Insight returned is not the all-empty one. *)
Lemma get_theme_insights_not_all_empty_counterexample :
  (∅ : gmap string json) !! insight_key "base_theme" "pay" = None
  ∧ Routes.get_theme_insights None (Some ∅) (Some "base_theme") (Some "pay")
    ≠ (Routes.InsightBody all_empty_insight_json, 200).
Proof. split; [reflexivity |]. vm_compute. discriminate. Qed.

(** ** The orchestrator *)

Section Orchestrator.
Context {W Vec : Type} (F : Type) `{FloatArith F}.
Context (config : Config) (libs : Libs Vec) (supabase : Supabase W).
Context (client : OpenAI W Vec).

Lemma insight_side_embedding_fails (theme_type theme_name sentiment_label : string)
    (contents : list string) (w : W) :
  embedding_fails client → contents ≠ [] →
  ∃ w' e, insight_side F config libs theme_type theme_name sentiment_label
            contents client w = (w', Raise e).
Proof.
  intros Hfail Hne. unfold insight_side.
  destruct contents as [|c contents]; [done |].
  destruct (summarize_comments_raises_or_nonempty config client F (c :: contents)
              sentiment_label theme_name theme_type MAX_SUMMARIES_PER_THEME w)
    as [(w1 & e & Hsum) | (w1 & out & Hsum & Hout)]; [done | done | |].
  - exists w1, e. by rewrite (M_bind_raise _ _ _ _ _ Hsum).
  - rewrite (M_bind_ok _ _ _ _ _ Hsum).
    destruct out as [|s summaries]; [done |].
    destruct (Hfail get_embedding_model_name (s :: summaries) w1) as (w2 & e & Hemb).
    exists w2, e. by rewrite (M_bind_raise _ _ _ _ _ Hemb).
Qed.

Lemma insight_side_no_comments (theme_type theme_name sentiment_label : string) (w : W) :
  insight_side F config libs theme_type theme_name sentiment_label [] client w
  = (w, Ok empty_insight).
Proof. reflexivity. Qed.

(** On a theme without comments the function itself gives the all-empty
    Insight, and makes no call. *)
Lemma generate_insights_no_comments (theme_type theme_name : string) (w : W) :
  generate_insights_for_theme F config libs theme_type theme_name [] [] client w
  = (w, Ok all_empty_insight).
Proof. reflexivity. Qed.

Lemma generate_insights_embedding_fails (theme_type theme_name : string)
    (pos neg : list string) (w : W) :
  embedding_fails client → pos ≠ [] ∨ neg ≠ [] →
  ∃ w' e, generate_insights_for_theme F config libs theme_type theme_name
            pos neg client w = (w', Raise e).
Proof.
  intros Hfail Hne. unfold generate_insights_for_theme.
  destruct pos as [|p pos].
  - destruct Hne as [? | Hne]; [done |].
    rewrite (M_bind_ok _ _ _ _ _ (insight_side_no_comments _ _ _ w)).
    destruct (insight_side_embedding_fails theme_type theme_name "negative"
                neg w Hfail Hne) as (w' & e & Hside).
    exists w', e. by rewrite (M_bind_raise _ _ _ _ _ Hside).
  - destruct (insight_side_embedding_fails theme_type theme_name "positive"
                (p :: pos) w Hfail) as (w' & e & Hside); [done |].
    exists w', e. by rewrite (M_bind_raise _ _ _ _ _ Hside).
Qed.

Lemma process_theme_embedding_fails (theme : string * string)
    (all_insights : gmap string (Insight string (list string))) (w : W) :
  embedding_fails client →
  ∃ w', AdvancedMain.process_theme F config libs supabase client theme all_insights w
        = (w', Ok all_insights).
Proof.
  intros Hfail. destruct theme as [theme_type theme_name].
  unfold AdvancedMain.process_theme.
  destruct (get_theme_content supabase theme_type theme_name w)
    as [w1 [[pos neg] | e]] eqn:Hfetch.
  - destruct (decide (pos = [] ∧ neg = [])) as [[-> ->] | Hsome].
    + exists w1. apply try_except_ok. by rewrite (M_bind_ok _ _ _ _ _ Hfetch).
    + destruct (generate_insights_embedding_fails theme_type theme_name pos neg w1 Hfail)
        as (w2 & e & Hgen).
      { destruct pos; [| by left]. destruct neg; [| by right]. by destruct Hsome. }
      exists w2. erewrite try_except_raise; [done |].
      rewrite (M_bind_ok _ _ _ _ _ Hfetch).
      destruct pos as [|p pos]; [destruct neg as [|n neg] |].
      * by destruct Hsome.
      * by rewrite (M_bind_raise _ _ _ _ _ Hgen).
      * by rewrite (M_bind_raise _ _ _ _ _ Hgen).
  - exists w1. erewrite try_except_raise; [done |].
    by rewrite (M_bind_raise _ _ _ _ _ Hfetch).
Qed.

Lemma insight_side_call_fails (theme_type theme_name sentiment_label : string)
    (contents : list string) (w : W) :
  side_embedding_fails F config client theme_type theme_name sentiment_label contents w →
  contents ≠ []
  ∧ ∃ w' e, insight_side F config libs theme_type theme_name sentiment_label
              contents client w = (w', Raise e).
Proof.
  intros (w1 & summaries & w2 & e & Hsum & Hne & Hemb).
  destruct contents as [|c contents].
  { simpl in Hsum. injection Hsum as _ <-. done. }
  split; [done |]. exists w2, e. unfold insight_side.
  rewrite (M_bind_ok _ _ _ _ _ Hsum).
  destruct summaries as [|s summaries]; [done |].
  by rewrite (M_bind_raise _ _ _ _ _ Hemb).
Qed.

(** C1, as amended.  When the embedding call of a batch fails, no
    single-cluster fallback takes place.  The batch is the positive one
    of the theme, or the negative one after the positive side has been
    processed and has returned its part of the Insight; in both cases the
    per-theme function raises, the handler of the loop of [main] catches
    the exception, so the table is left as it was, without a record for
    the theme, and the loop goes on with the themes that remain. *)
Theorem embedding_failure_skips_theme (theme_type theme_name : string)
    (rest : list (string * string))
    (all_insights : gmap string (Insight string (list string)))
    (pos neg : list string) (w w0 : W) :
  get_theme_content supabase theme_type theme_name w = (w0, Ok (pos, neg)) →
  side_embedding_fails F config client theme_type theme_name "positive" pos w0
  ∨ (∃ w1 pos_insight,
       insight_side F config libs theme_type theme_name "positive" pos client w0
       = (w1, Ok pos_insight)
       ∧ side_embedding_fails F config client theme_type theme_name "negative" neg w1) →
  ∃ w' e,
    generate_insights_for_theme F config libs theme_type theme_name pos neg client w0
    = (w', Raise e)
    ∧ AdvancedMain.process_theme F config libs supabase client
        (theme_type, theme_name) all_insights w
      = (w', Ok all_insights)
    ∧ AdvancedMain.process_themes F config libs supabase client
        ((theme_type, theme_name) :: rest) all_insights w
      = AdvancedMain.process_themes F config libs supabase client
          rest all_insights w'.
Proof.
  intros Hfetch Hfails.
  assert (¬ (pos = [] ∧ neg = [])
          ∧ ∃ w' e, generate_insights_for_theme F config libs theme_type theme_name
                      pos neg client w0 = (w', Raise e))
    as (Hsome & w' & e & Hgen).
  { unfold generate_insights_for_theme.
    destruct Hfails as [Hpos | (w1 & pos_insight & Hpos & Hneg)].
    - apply insight_side_call_fails in Hpos as (Hne & w' & e & Hside).
      split; [by intros [? _] |].
      exists w', e. by rewrite (M_bind_raise _ _ _ _ _ Hside).
    - apply insight_side_call_fails in Hneg as (Hne & w' & e & Hside).
      split; [by intros [_ ?] |].
      exists w', e. rewrite (M_bind_ok _ _ _ _ _ Hpos).
      by rewrite (M_bind_raise _ _ _ _ _ Hside). }
  exists w', e. split; [exact Hgen |].
  assert (AdvancedMain.process_theme F config libs supabase client
            (theme_type, theme_name) all_insights w = (w', Ok all_insights)) as Hstep.
  { unfold AdvancedMain.process_theme. erewrite try_except_raise; [done |].
    rewrite (M_bind_ok _ _ _ _ _ Hfetch).
    destruct pos as [|p pos]; [destruct neg as [|n neg] |].
    - by destruct Hsome.
    - by rewrite (M_bind_raise _ _ _ _ _ Hgen).
    - by rewrite (M_bind_raise _ _ _ _ _ Hgen). }
  split; [exact Hstep |].
  simpl. by rewrite (M_bind_ok _ _ _ _ _ Hstep).
Qed.

End Orchestrator.

Lemma embedding_failure_skips_theme_witness :
  let libs := Doubles.libs_of None [] in
  let store :=
    Doubles.store_of [Doubles.theme_row "pay" "salary"]
      [Doubles.comment_row "good pay" "positive";
       Doubles.comment_row "low pay" "negative"] in
  let client :=
    Doubles.logging_client Doubles.chat_down (Doubles.embeds_only ["- good pay"]) in
  ∃ w' e,
    generate_insights_for_theme float Doubles.config_with_key libs
      "base_theme" "pay" ["good pay"] ["low pay"] client Doubles.no_calls
    = (w', Raise e)
    ∧ AdvancedMain.process_theme float Doubles.config_with_key libs store client
        ("base_theme", "pay") ∅ Doubles.no_calls
      = (w', Ok ∅)
    ∧ AdvancedMain.process_themes float Doubles.config_with_key libs store client
        [("base_theme", "pay"); ("sub_theme", "salary")] ∅ Doubles.no_calls
      = AdvancedMain.process_themes float Doubles.config_with_key libs store client
          [("sub_theme", "salary")] ∅ w'.
Proof.
  intros libs store client.
  apply (embedding_failure_skips_theme float Doubles.config_with_key libs store client
           "base_theme" "pay" [("sub_theme", "salary")] ∅
           ["good pay"] ["low pay"] Doubles.no_calls Doubles.no_calls).
  - vm_compute. reflexivity.
  - right. eexists _, _. split; [vm_compute; reflexivity |].
    eexists _, _, _, _. split; [vm_compute; reflexivity |].
    split; [discriminate | vm_compute; reflexivity].
Defined.

(** In that run the positive batch is embedded, the embedding call of the
    negative batch fails, and the table has no record for the theme. *)
Example embedding_failure_after_positive_side :
  let store :=
    Doubles.store_of [Doubles.theme_row "pay" "salary"]
      [Doubles.comment_row "good pay" "positive";
       Doubles.comment_row "low pay" "negative"] in
  let client :=
    Doubles.logging_client Doubles.chat_down (Doubles.embeds_only ["- good pay"]) in
  ∃ w' table,
    AdvancedMain.process_themes float Doubles.config_with_key (Doubles.libs_of None [])
      store client [("base_theme", "pay")] ∅ Doubles.no_calls
    = (w', Ok table)
    ∧ Doubles.embedding_calls w' = [["- good pay"]; ["- low pay"]]
    ∧ table !! insight_key "base_theme" "pay" = None.
Proof. eexists _, _. split; [vm_compute; reflexivity |]. split; reflexivity. Qed.

(** C1 as stated fails: the theme has a positive comment, its one claim
    is sent to the embedding call, the call fails, and the table that
    [main] saves has no record for the theme. *)
Lemma embedding_failure_drops_theme_counterexample :
  let store :=
    Doubles.store_of [Doubles.theme_row "pay" "salary"]
      [Doubles.comment_row "pay is good" "positive"] in
  let client :=
    Doubles.logging_client (Doubles.says "- pay is good") Doubles.embedding_down in
  ∃ w' table,
    AdvancedMain.main float Doubles.config_with_key (Doubles.libs_of None []) store
      {| AdvancedMain.arg_type := AdvancedMain.type_base;
         AdvancedMain.arg_limit := None;
         AdvancedMain.arg_theme := None |} client Doubles.no_calls
    = (w', Ok (Saved table))
    ∧ Doubles.embedding_calls w' = [["- pay is good"]]
    ∧ table !! insight_key "base_theme" "pay" = None.
Proof. eexists _, _. split; [vm_compute; reflexivity |]. split; reflexivity. Qed.

Example main_with_embeddings_up :
  let store :=
    Doubles.store_of [Doubles.theme_row "pay" "salary"]
      [Doubles.comment_row "pay is good" "positive"] in
  let client := Doubles.logging_client (Doubles.says "- pay is good") Doubles.embeds in
  ∃ w' table,
    AdvancedMain.main float Doubles.config_with_key (Doubles.libs_of None []) store
      {| AdvancedMain.arg_type := AdvancedMain.type_base;
         AdvancedMain.arg_limit := None;
         AdvancedMain.arg_theme := None |} client Doubles.no_calls
    = (w', Ok (Saved table))
    ∧ table !! insight_key "base_theme" "pay"
      = Some {| positive_summary := "- pay is good"; negative_summary := "";
                positive_recommendations := []; negative_recommendations := [] |}.
Proof. eexists _, _. split; [vm_compute; reflexivity |]. reflexivity. Qed.


(** * Further properties of the code *)

(** ** The sampler, whatever the arithmetic *)

Lemma sampler_cap_at_least_one_witness :
  (∃ xs, _evenly_sample Q ["a"; "b"; "c"; "d"; "e"] 2 = Ok xs
         ∧ len xs = Z.min (len ["a"; "b"; "c"; "d"; "e"]) 2
         ∧ (len ["a"; "b"; "c"; "d"; "e"] ≤ 2 → xs = ["a"; "b"; "c"; "d"; "e"])
         ∧ sublist xs ["a"; "b"; "c"; "d"; "e"])
  ∧ (len ["a"; "b"; "c"; "d"; "e"] ≤ 2
     ∨ binary64_checked (len ["a"; "b"; "c"; "d"; "e"]) 2 →
     ∃ xs, _evenly_sample float ["a"; "b"; "c"; "d"; "e"] 2 = Ok xs
           ∧ len xs = Z.min (len ["a"; "b"; "c"; "d"; "e"]) 2
           ∧ (len ["a"; "b"; "c"; "d"; "e"] ≤ 2 → xs = ["a"; "b"; "c"; "d"; "e"])
           ∧ sublist xs ["a"; "b"; "c"; "d"; "e"]).
Proof. apply (sampler_cap_at_least_one ["a"; "b"; "c"; "d"; "e"] 2). reflexivity. Defined.

Lemma py_getitem_elem {A} (l : list A) (i : Z) (x : A) :
  py_getitem l i = Ok x → x ∈ l.
Proof.
  unfold py_getitem.
  destruct (_ <? 0); [done |].
  destruct (l !! _) as [y |] eqn:E; [| done].
  intros [= <-]. by eapply list_elem_of_lookup_2.
Qed.

Lemma sample_loop_elems (F : Type) `{FloatArith F} {A} (items : list A) (step : F)
    (r : nat) :
  ∀ idx used samples trace out,
    sample_loop items step r idx used samples trace = Ok out →
    Forall (λ x, x ∈ items) samples → Forall (λ x, x ∈ items) out.1.
Proof.
  induction r as [|r IH]; intros idx used samples trace out; simpl.
  - by intros [= <-].
  - destruct (float_to_int idx) as [c | e]; [| done]. simpl.
    destruct (py_getitem items _) as [x | e] eqn:Hx; [| done]. simpl.
    intros Hloop Hall. eapply IH; [exact Hloop |].
    apply Forall_app. split; [done |].
    apply Forall_singleton. by eapply py_getitem_elem.
Qed.

Lemma evenly_sample_sound (F : Type) `{FloatArith F} {A} (items : list A)
    (max_samples : Z) (xs : list A) :
  _evenly_sample F items max_samples = Ok xs →
  len xs = Z.max 0 (Z.min (len items) max_samples)
  ∧ Forall (λ x, x ∈ items) xs.
Proof.
  unfold _evenly_sample, evenly_sample_traced, py_truediv.
  destruct (len items <=? max_samples) eqn:Ele.
  - simpl. intros [= <-]. split; [unfold len in *; lia |].
    by apply Forall_forall.
  - destruct (max_samples =? 0) eqn:E0; [done |]. simpl.
    destruct (sample_loop items _ _ _ _ _ _) as [out | e] eqn:Hloop; [| done].
    simpl. intros [= <-]. split.
    + apply sample_loop_length in Hloop. simpl in Hloop. unfold len in *. lia.
    + eapply sample_loop_elems; [exact Hloop | constructor].
Qed.

(** X2.  Whatever the float arithmetic computes, a sample that either
    sampler returns has [min(N, M)] items (none for a negative cap), and
    each of them is an item of the input: the sampler never pads and
    never invents an item. *)
Theorem sampler_output_from_input (F : Type) `{FloatArith F} {A} (items : list A)
    (max_samples : Z) (xs : list A) :
  _evenly_sample F items max_samples = Ok xs
  ∨ _select_diverse_samples F items max_samples = Ok xs →
  len xs = Z.max 0 (Z.min (len items) max_samples)
  ∧ Forall (λ x, x ∈ items) xs.
Proof.
  intros Hor. apply (evenly_sample_sound F items max_samples).
  by destruct Hor.
Qed.

Lemma sampler_output_from_input_witness :
  len ["a"; "c"; "e"] = Z.max 0 (Z.min (len ["a"; "b"; "c"; "d"; "e"; "f"; "g"]) 3)
  ∧ Forall (λ x, x ∈ ["a"; "b"; "c"; "d"; "e"; "f"; "g"]) ["a"; "c"; "e"].
Proof.
  apply (sampler_output_from_input float ["a"; "b"; "c"; "d"; "e"; "f"; "g"] 3).
  left. vm_compute. reflexivity.
Defined.

(** ** The Cluster Engine: the call to KMeans and the shape of a cluster *)

Lemma keywords_from_texts_length (texts : list string) (top_k : Z) :
  (length (keywords_from_texts texts top_k) ≤ Z.to_nat top_k)%nat.
Proof.
  unfold keywords_from_texts, most_common.
  rewrite length_fmap, length_take. lia.
Qed.

Lemma choose_k_clamped (n : Z) :
  MIN_CLUSTER_SUMMARIES ≤ n →
  choose_k n = Z.max 2 (Z.min MAX_CLUSTERS (n `div` MIN_POINTS_PER_CLUSTER))
  ∧ 2 ≤ choose_k n ≤ MAX_CLUSTERS ∧ choose_k n ≤ n.
Proof.
  unfold choose_k, MIN_CLUSTER_SUMMARIES, MAX_CLUSTERS, MIN_POINTS_PER_CLUSTER.
  intros Hn. generalize (n `div` 18). intros q.
  destruct (Z.max 2 (Z.min 5 q) <=? 1) eqn:E1; [lia |].
  destruct (n <? Z.max 2 (Z.min 5 q)) eqn:E2; lia.
Qed.

(** X3.  When sklearn is present and the batch has at least 12
    summaries, the engine makes the KMeans call, and the number of
    clusters it asks for is [max(2, min(5, n // 18))]: between 2 and 5 and
    never more than there are summaries, so that the two guards [k <= 1]
    and [k > n] never fire.  The result is the single cluster when the
    call raises, and the grouping by the labels otherwise. *)
Theorem kmeans_called_with_valid_k {Vec} (libs : Libs Vec)
    (summaries : list string) (embeddings : list Vec)
    (fit_predict : Z → list Vec → result (list Z)) :
  KMeans libs = Some fit_predict →
  MIN_CLUSTER_SUMMARIES ≤ len summaries →
  ∃ k, k = Z.max 2 (Z.min MAX_CLUSTERS (len summaries `div` MIN_POINTS_PER_CLUSTER))
       ∧ 2 ≤ k ≤ MAX_CLUSTERS
       ∧ k ≤ len summaries
       ∧ cluster_summaries libs summaries embeddings
         = match fit_predict k embeddings with
           | Raise e => single_cluster summaries
           | Ok labels =>
               sort_desc cluster_size
                 (make_cluster <$> group_by_label (zip summaries labels))
           end.
Proof.
  intros Hk Hn. destruct (choose_k_clamped _ Hn) as (Heq & Hrange & Hle).
  exists (choose_k (len summaries)). split; [done |]. split; [done |].
  split; [done |]. unfold cluster_summaries. rewrite Hk.
  unfold MIN_CLUSTER_SUMMARIES in *.
  destruct (len summaries =? 0) eqn:E0; [lia |].
  destruct (len summaries <? 12) eqn:E12; [lia |]. done.
Qed.

Lemma kmeans_called_with_valid_k_witness :
  ∃ k, k = Z.max 2 (Z.min MAX_CLUSTERS
                      (len Doubles.twelve_summaries `div` MIN_POINTS_PER_CLUSTER))
       ∧ 2 ≤ k ≤ MAX_CLUSTERS
       ∧ k ≤ len Doubles.twelve_summaries
       ∧ cluster_summaries (Doubles.libs_of (Some Doubles.round_robin) [])
           Doubles.twelve_summaries (replicate 12 ())
         = match Doubles.round_robin k (replicate 12 ()) with
           | Raise e => single_cluster Doubles.twelve_summaries
           | Ok labels =>
               sort_desc cluster_size
                 (make_cluster <$> group_by_label (zip Doubles.twelve_summaries labels))
           end.
Proof.
  apply (kmeans_called_with_valid_k (Doubles.libs_of (Some Doubles.round_robin) [])
           Doubles.twelve_summaries (replicate 12 ()) Doubles.round_robin).
  - reflexivity.
  - vm_compute. discriminate.
Defined.

Lemma elem_of_zip_fst {A B} (l : list A) (k : list B) (x : A) :
  x ∈ (zip l k).*1 → x ∈ l.
Proof.
  intros Hx. apply list_elem_of_fmap in Hx as ([a b] & -> & Hin).
  by eapply elem_of_zip_l.
Qed.

Lemma single_cluster_shape (summaries : list string) :
  summaries ≠ [] →
  Forall (λ c, Advanced.summaries c ≠ []
               ∧ Forall (λ s, s ∈ summaries) (Advanced.summaries c)
               ∧ 1 ≤ cluster_size c
               ∧ cluster_size c = len (Advanced.summaries c)
               ∧ example_summaries c = take 5 (Advanced.summaries c)
               ∧ (length (keywords c) ≤ 8)%nat)
         (single_cluster summaries).
Proof.
  intros Hne. apply Forall_singleton. simpl.
  split; [done |]. split; [by apply Forall_forall |].
  split; [destruct summaries; [done | unfold len; simpl; lia] |].
  split; [done |]. split; [done |].
  apply (keywords_from_texts_length summaries 8).
Qed.

(** X4.  Whatever KMeans answers, and on every path, each cluster the
    engine returns has at least one member, all its members are summaries
    of the batch, its size is its member count, its examples are its first
    five members, and it has at most eight keywords. *)
Theorem cluster_summaries_shape {Vec} (libs : Libs Vec)
    (summaries : list string) (embeddings : list Vec) :
  Forall (λ c, Advanced.summaries c ≠ []
               ∧ Forall (λ s, s ∈ summaries) (Advanced.summaries c)
               ∧ 1 ≤ cluster_size c
               ∧ cluster_size c = len (Advanced.summaries c)
               ∧ example_summaries c = take 5 (Advanced.summaries c)
               ∧ (length (keywords c) ≤ 8)%nat)
         (cluster_summaries libs summaries embeddings).
Proof.
  unfold cluster_summaries.
  destruct (len summaries =? 0) eqn:E0; [constructor |].
  assert (summaries ≠ []) as Hne.
  { intros ->. unfold len in E0. simpl in E0. lia. }
  destruct (KMeans libs) as [fit_predict |]; [| by apply single_cluster_shape].
  destruct (len summaries <? MIN_CLUSTER_SUMMARIES); [by apply single_cluster_shape |].
  destruct (fit_predict _ embeddings) as [labels | e]; [| by apply single_cluster_shape].
  pose proof (group_by_label_grouped (zip summaries labels)) as (_ & Hent & _).
  rewrite (sort_desc_perm cluster_size).
  apply Forall_fmap, Forall_forall. intros [k xs] Hin. simpl.
  destruct (Hent _ _ Hin) as [Hxs Hnil].
  split; [done |]. split; [| split; [| split; [done | split; [done |]]]].
  - apply Forall_forall. intros s Hs. rewrite Hxs in Hs.
    apply (elem_of_zip_fst summaries labels).
    apply list_elem_of_fmap in Hs as (p & -> & Hp).
    apply list_elem_of_filter in Hp as [_ Hp].
    apply list_elem_of_fmap. by exists p.
  - destruct xs; [done | unfold len; simpl; lia].
  - apply (keywords_from_texts_length xs 8).
Qed.

Lemma fst_zip_take {A B} (l : list A) (k : list B) :
  (zip l k).*1 = take (length k) l.
Proof.
  revert k. induction l as [|x l IH]; intros [|y k]; simpl; try done.
  f_equal. apply IH.
Qed.

Lemma snd_zip_take {A B} (l : list A) (k : list B) :
  (zip l k).*2 = take (length l) k.
Proof.
  revert k. induction l as [|x l IH]; intros [|y k]; simpl; try done.
  f_equal. apply IH.
Qed.

(** X5.  The grouping follows [zip(summaries, labels)]: when KMeans
    answers with fewer labels than there are summaries, the summaries past
    the last label are in no cluster.  The members of the clusters are,
    together, a rearrangement of the first [len(labels)] summaries, and
    the sizes add up to [min(len(summaries), len(labels))]; with no label
    at all the engine returns no cluster for a batch that is not empty. *)
Theorem cluster_summaries_follows_labels {Vec} (libs : Libs Vec)
    (summaries : list string) (embeddings : list Vec)
    (fit_predict : Z → list Vec → result (list Z)) (labels : list Z) :
  KMeans libs = Some fit_predict →
  MIN_CLUSTER_SUMMARIES ≤ len summaries →
  fit_predict (choose_k (len summaries)) embeddings = Ok labels →
  let clusters := cluster_summaries libs summaries embeddings in
  concat (Advanced.summaries <$> clusters) ≡ₚ take (length labels) summaries
  ∧ py_sum (cluster_size <$> clusters) = Z.min (len summaries) (len labels)
  ∧ (labels = [] → clusters = []).
Proof.
  intros Hk Hn Hfit clusters.
  assert (clusters
          = sort_desc cluster_size
              (make_cluster <$> group_by_label (zip summaries labels))) as Hcl.
  { subst clusters. unfold cluster_summaries. rewrite Hk, Hfit.
    unfold MIN_CLUSTER_SUMMARIES in *.
    destruct (len summaries =? 0) eqn:E0; [lia |].
    by destruct (len summaries <? 12) eqn:E12; [lia |]. }
  assert (Advanced.summaries <$> (make_cluster <$> group_by_label (zip summaries labels))
          = (group_by_label (zip summaries labels)).*2) as Hmem.
  { rewrite <- list_fmap_compose. by apply list_fmap_ext. }
  assert (concat (Advanced.summaries <$> clusters) ≡ₚ take (length labels) summaries)
    as Hperm.
  { rewrite Hcl, (sort_desc_perm cluster_size), Hmem, group_by_label_concat.
    by rewrite fst_zip_take. }
  split; [done |]. split.
  - transitivity (py_sum (len <$> (Advanced.summaries <$> clusters))).
    + f_equal. rewrite <- list_fmap_compose. apply Forall_fmap_ext_1.
      rewrite Hcl, (sort_desc_perm cluster_size).
      apply Forall_fmap, Forall_forall. by intros [k xs] _.
    + rewrite py_sum_len_concat. unfold len. rewrite Hperm, length_take. lia.
  - intros ->. rewrite Hcl. by rewrite zip_with_nil_r.
Qed.

Lemma cluster_summaries_follows_labels_witness :
  let libs := Doubles.libs_of (Some (λ k embeddings, Ok [0; 1; 0])) [] in
  let clusters := cluster_summaries libs Doubles.twelve_summaries (replicate 12 ()) in
  concat (Advanced.summaries <$> clusters)
    ≡ₚ take (length [0; 1; 0]) Doubles.twelve_summaries
  ∧ py_sum (cluster_size <$> clusters)
    = Z.min (len Doubles.twelve_summaries) (len [0; 1; 0])
  ∧ ([0; 1; 0] = [] → clusters = []).
Proof.
  apply (cluster_summaries_follows_labels
           (Doubles.libs_of (Some (λ k embeddings, Ok [0; 1; 0])) [])
           Doubles.twelve_summaries (replicate 12 ()) (λ k embeddings, Ok [0; 1; 0])).
  - reflexivity.
  - vm_compute. discriminate.
  - reflexivity.
Defined.

Lemma NoDup_range_length (ks : list Z) (k : Z) :
  NoDup ks → Forall (λ l, 0 ≤ l < k) ks → len ks ≤ Z.max 0 k.
Proof.
  intros Hnd Hall.
  assert (ks ⊆+ seqZ 0 (Z.max 0 k)) as Hsub.
  { apply NoDup_submseteq; [done |]. intros l Hl.
    rewrite Forall_forall in Hall. specialize (Hall l Hl).
    apply elem_of_seqZ. lia. }
  apply submseteq_length in Hsub. rewrite length_seqZ in Hsub. unfold len. lia.
Qed.

(** X6.  When the labels that KMeans gives lie in [0, k), as the labels
    of [fit_predict] do, the engine returns at most [k] clusters, hence
    at most [MAX_CLUSTERS = 5]; on the other paths it returns at most
    one. *)
Theorem cluster_count_at_most_max {Vec} (libs : Libs Vec)
    (summaries : list string) (embeddings : list Vec) :
  (∀ fit_predict labels,
     KMeans libs = Some fit_predict →
     fit_predict (choose_k (len summaries)) embeddings = Ok labels →
     Forall (λ l, 0 ≤ l < choose_k (len summaries)) labels) →
  len (cluster_summaries libs summaries embeddings) ≤ MAX_CLUSTERS.
Proof.
  intros Hlabels. unfold cluster_summaries.
  destruct (len summaries =? 0) eqn:E0; [done |].
  destruct (KMeans libs) as [fit_predict |] eqn:Hk; [| done].
  destruct (len summaries <? MIN_CLUSTER_SUMMARIES) eqn:En; [done |].
  destruct (fit_predict _ embeddings) as [labels | e] eqn:Hfit; [| done].
  specialize (Hlabels fit_predict labels eq_refl Hfit).
  destruct (choose_k_clamped (len summaries)) as (_ & Hrange & _); [lia |].
  pose proof (group_by_label_grouped (zip summaries labels)) as (Hnd & Hent & _).
  unfold len. rewrite (sort_desc_perm cluster_size), length_fmap.
  rewrite <- (length_fmap fst).
  pose proof (NoDup_range_length (group_by_label (zip summaries labels)).*1
                (choose_k (len summaries)) Hnd) as Hlen.
  unfold len in Hlen at 1.
  etransitivity; [apply Hlen | lia].
  apply Forall_forall. intros l Hl.
  apply list_elem_of_fmap in Hl as ([k xs] & -> & Hin). simpl.
  destruct (Hent _ _ Hin) as [Hxs Hnil].
  destruct xs as [|x xs]; [done |].
  assert (x ∈ (filter (λ p : string * Z, p.2 = k) (zip summaries labels)).*1) as Hx
    by (rewrite <- Hxs; by left).
  apply list_elem_of_fmap in Hx as (p & _ & Hp).
  apply list_elem_of_filter in Hp as [Hpk Hp].
  rewrite Forall_forall in Hlabels. apply Hlabels.
  assert (p.2 ∈ take (length summaries) labels) as Hl.
  { rewrite <- snd_zip_take. apply list_elem_of_fmap. by exists p. }
  apply elem_of_take in Hl as (i & Hi & _). rewrite <- Hpk.
  by eapply list_elem_of_lookup_2.
Qed.

Lemma cluster_count_at_most_max_witness :
  len (cluster_summaries (Doubles.libs_of (Some Doubles.round_robin) [])
         Doubles.twelve_summaries (replicate 12 ())) ≤ MAX_CLUSTERS.
Proof.
  apply (cluster_count_at_most_max (Doubles.libs_of (Some Doubles.round_robin) [])
           Doubles.twelve_summaries (replicate 12 ())).
  intros fit_predict labels Hk Hfit. simpl in Hk. injection Hk as <-.
  vm_compute in Hfit. injection Hfit as <-.
  repeat constructor; vm_compute; done.
Defined.

(** ** The Keyword Extractor *)

Lemma all_chars_snoc (p : ascii → bool) (cur : string) (c : ascii) :
  all_chars p (snoc_char cur c) = all_chars p cur && p c.
Proof.
  unfold snoc_char. induction cur as [|a cur IH]; simpl.
  - by rewrite andb_true_r.
  - by rewrite IH, andb_assoc.
Qed.

Lemma length_snoc_char (cur : string) (c : ascii) :
  String.length (snoc_char cur c) = S (String.length cur).
Proof. unfold snoc_char. induction cur as [|a cur IH]; simpl; [done | by rewrite IH]. Qed.

(** The tokens of the pattern [[a-zA-Z]{3,}] have three letters or more;
    [q] is any property that the letters of the text have. *)
Lemma findall_from_tokens (q : ascii → bool) (s : string) :
  all_chars (λ c, implb (is_ascii_letter c) (q c)) s = true →
  ∀ cur, all_chars q cur = true →
  Forall (λ tok, (3 ≤ String.length tok)%nat ∧ all_chars q tok = true)
         (findall_from cur s).
Proof.
  induction s as [|c s IH]; simpl; intros Hs cur Hcur.
  - unfold emit_token. destruct (3 <=? String.length cur)%nat eqn:E; [| constructor].
    apply Forall_singleton. split; [by apply Nat.leb_le | done].
  - apply andb_true_iff in Hs as [Hc Hs].
    destruct (is_ascii_letter c) eqn:Ec.
    + apply IH; [done |]. rewrite all_chars_snoc, Hcur. exact Hc.
    + apply Forall_app. split; [| by apply IH].
      unfold emit_token. destruct (3 <=? String.length cur)%nat eqn:E; [| constructor].
      apply Forall_singleton. split; [by apply Nat.leb_le | done].
Qed.

Lemma lower_char_letter (c : ascii) :
  implb (is_ascii_letter (lower_char c)) (is_lower_letter (lower_char c)) = true.
Proof. by destruct c as [[] [] [] [] [] [] [] []]. Qed.

Lemma lower_letters (t : string) :
  all_chars (λ c, implb (is_ascii_letter c) (is_lower_letter c)) (lower t) = true.
Proof.
  induction t as [|c t IH]; [done |]. simpl.
  by rewrite lower_char_letter, IH.
Qed.

Lemma kept_tokens_sound (texts : list string) :
  Forall (λ w, (w ∉ STOP_WORDS)
               ∧ (3 ≤ String.length w)%nat
               ∧ all_chars is_lower_letter w = true
               ∧ ∃ t, t ∈ texts ∧ w ∈ TOKEN_PATTERN_findall (lower t))
         (kept_tokens texts).
Proof.
  apply Forall_forall. intros w Hw. unfold kept_tokens in Hw.
  apply list_elem_of_bind in Hw as (t & Hw & Ht).
  apply list_elem_of_filter in Hw as [Hstop Hw].
  pose proof (findall_from_tokens is_lower_letter (lower t) (lower_letters t)
                EmptyString eq_refl) as Hall.
  rewrite Forall_forall in Hall. destruct (Hall w Hw) as [Hlen Hlow].
  split; [done |]. split; [done |]. split; [done |]. by exists t.
Qed.

(** *** Counting *)

Lemma occurrences_snoc (w w' : string) (seen : list string) :
  occurrences w (seen ++ [w']) = occurrences w seen + (if decide (w' = w) then 1 else 0).
Proof.
  unfold occurrences, len. rewrite filter_app, length_app.
  destruct (decide (w' = w)) as [-> | Hne].
  - rewrite filter_cons_True by done. simpl. lia.
  - rewrite filter_cons_False by done. simpl. lia.
Qed.

Lemma occurrences_pos (w : string) (seen : list string) :
  w ∈ seen → 0 < occurrences w seen.
Proof.
  intros Hw. unfold occurrences, len.
  assert (w ∈ filter (λ t, t = w) seen) as Hin by (by apply list_elem_of_filter).
  destruct (filter _ seen); [by apply elem_of_nil in Hin | simpl; lia].
Qed.

Lemma occurrences_zero (w : string) (seen : list string) :
  w ∉ seen → occurrences w seen = 0.
Proof.
  intros Hw. unfold occurrences.
  rewrite filter_none; [done |]. intros x Hx ->. done.
Qed.

Lemma counter_add_keys (w : string) (c : list (string * Z)) :
  (counter_add w c).*1 = if decide (w ∈ c.*1) then c.*1 else (c.*1 ++ [w])%list.
Proof.
  induction c as [|[w' n] c IH]; [done |]. simpl.
  destruct (decide (w = w')) as [-> | Hne].
  - by rewrite decide_True by (by left).
  - rewrite fmap_cons, IH. simpl. destruct (decide (w ∈ c.*1)) as [Hin | Hout].
    + by rewrite decide_True by (by right).
    + rewrite decide_False; [done |].
      intros [Heq | Hin]%elem_of_cons; [by apply Hne | by apply Hout].
Qed.

Lemma counter_add_elem (w : string) (c : list (string * Z)) (w' : string) (n' : Z) :
  NoDup c.*1 →
  (w', n') ∈ counter_add w c →
  (w' ≠ w ∧ (w', n') ∈ c)
  ∨ (w' = w ∧ ((∃ n, (w, n) ∈ c ∧ n' = n + 1) ∨ ((w ∉ c.*1) ∧ n' = 1))).
Proof.
  induction c as [|[w0 n0] c IH]; simpl; intros Hnd Hin.
  - apply list_elem_of_singleton in Hin. simplify_eq.
    right. split; [done |]. right. split; [apply not_elem_of_nil | done].
  - apply NoDup_cons in Hnd as [Hw0 Hnd].
    destruct (decide (w = w0)) as [-> | Hne].
    + apply elem_of_cons in Hin as [Heq | Hin].
      * simplify_eq. right. split; [done |]. left. exists n0.
        split; [by left | done].
      * left. split; [| by right]. intros ->. apply Hw0.
        apply list_elem_of_fmap. by exists (w0, n').
    + apply elem_of_cons in Hin as [Heq | Hin].
      * simplify_eq. left. split; [done | by left].
      * destruct (IH Hnd Hin) as [[Hw' Hold] | [-> [(n & Hn & ->) | [Hw ->]]]].
        -- left. split; [done | by right].
        -- right. split; [done |]. left. exists n. split; [by right | done].
        -- right. split; [done |]. right. split; [| done].
           intros [Heq | Hold]%elem_of_cons; [by apply Hne | by apply Hw].
Qed.

Lemma counted_add (c : list (string * Z)) (seen : list string) (w : string) :
  counted c seen → counted (counter_add w c) (seen ++ [w]).
Proof.
  intros (Hnd & Hent & Hcov). split; [| split].
  - rewrite counter_add_keys. case_decide; [done |].
    apply NoDup_app. split; [done |]. split; [| apply NoDup_singleton].
    intros w' Hw' ->%list_elem_of_singleton. done.
  - intros w' n' Hin. rewrite occurrences_snoc.
    apply counter_add_elem in Hin
      as [[Hne Hin] | [-> [(n & Hn & ->) | [Hw ->]]]]; [| | | done].
    + destruct (Hent _ _ Hin) as [-> Hpos].
      rewrite decide_False by done. split; [lia | done].
    + destruct (Hent _ _ Hn) as [-> Hpos].
      rewrite decide_True by done. split; [done | lia].
    + rewrite decide_True by done. split; [| done].
      rewrite occurrences_zero; [done |]. intros Hseen. by apply Hw, Hcov.
  - intros w' Hw'. rewrite counter_add_keys.
    apply elem_of_app in Hw' as [Hw' | ->%list_elem_of_singleton].
    + apply Hcov in Hw'. case_decide; [done |]. apply elem_of_app. by left.
    + case_decide; [done |]. apply elem_of_app. right. by left.
Qed.

Lemma Counter_counted (tokens : list string) : counted (Counter tokens) tokens.
Proof.
  unfold Counter.
  assert (∀ c seen, counted c seen →
            counted (foldl (λ c w, counter_add w c) c tokens) (seen ++ tokens)) as H.
  { induction tokens as [|w tokens IH]; intros c seen Hc; simpl.
    - by rewrite app_nil_r.
    - replace (seen ++ w :: tokens)%list with ((seen ++ [w]) ++ tokens)%list
        by (by rewrite <- app_assoc).
      apply IH. by apply counted_add. }
  apply (H [] []). split; [constructor |].
  split; [intros w n Hin | intros w Hin]; by apply elem_of_nil in Hin.
Qed.

Lemma StronglySorted_fmap_elem {A B} (f : A → B) (R1 : relation A) (R2 : relation B)
    (l : list A) :
  (∀ x y, x ∈ l → y ∈ l → R1 x y → R2 (f x) (f y)) →
  StronglySorted R1 l → StronglySorted R2 (f <$> l).
Proof.
  intros Himp Hs. induction Hs as [|x l Hs IH Hall]; [constructor |].
  rewrite fmap_cons. constructor.
  - apply IH. intros a b Ha Hb. apply Himp; by right.
  - apply Forall_fmap, Forall_forall. intros y Hy. simpl.
    rewrite Forall_forall in Hall. apply Himp; [by left | by right | by apply Hall].
Qed.

Lemma elem_of_take_full {A} (l : list A) (n : nat) (x : A) :
  x ∈ take n l → x ∈ l.
Proof. intros Hx. eapply elem_of_sublist; [exact Hx | apply sublist_take]. Qed.

Lemma StronglySorted_take {A} (R : relation A) (l : list A) (n : nat) :
  StronglySorted R l → StronglySorted R (take n l).
Proof.
  intros Hs. rewrite <- (take_drop n l) in Hs. by apply StronglySorted_app_1_l in Hs.
Qed.

(** X7.  Every keyword returned is a run of at least three lower-case
    ASCII letters found in one of the lower-cased texts, and is no stop
    word; no keyword is listed twice; and there are at most [top_k] of
    them (none for a negative [top_k]). *)
Theorem keywords_from_texts_sound (texts : list string) (top_k : Z) :
  let kws := keywords_from_texts texts top_k in
  Forall (λ w, (w ∉ STOP_WORDS)
               ∧ (3 ≤ String.length w)%nat
               ∧ all_chars is_lower_letter w = true
               ∧ ∃ t, t ∈ texts ∧ w ∈ TOKEN_PATTERN_findall (lower t)) kws
  ∧ NoDup kws
  ∧ len kws ≤ Z.max 0 top_k.
Proof.
  intros kws.
  pose proof (Counter_counted (kept_tokens texts)) as (Hnd & Hent & Hcov).
  assert (kws = take (Z.to_nat top_k)
                  (sort_desc snd (Counter (kept_tokens texts))).*1) as Hkws.
  { subst kws. unfold keywords_from_texts, most_common. by rewrite fmap_take. }
  assert ((sort_desc snd (Counter (kept_tokens texts))).*1
          ≡ₚ (Counter (kept_tokens texts)).*1) as Hperm
    by (by rewrite (sort_desc_perm snd)).
  split; [| split].
  - apply Forall_forall. intros w Hw. rewrite Hkws in Hw.
    apply elem_of_take_full in Hw. rewrite Hperm in Hw.
    apply list_elem_of_fmap in Hw as ([w' n] & -> & Hin). simpl.
    destruct (Hent _ _ Hin) as [Hn Hpos].
    pose proof (kept_tokens_sound texts) as Hall. rewrite Forall_forall in Hall.
    apply Hall. destruct (decide (w' ∈ kept_tokens texts)) as [Hin' | Hout]; [done |].
    rewrite (occurrences_zero _ _ Hout) in Hn. lia.
  - rewrite Hkws. eapply sublist_NoDup; [| apply sublist_take]. by rewrite Hperm.
  - rewrite Hkws. unfold len. rewrite length_take. lia.
Qed.

(** X8.  The keywords are the most frequent tokens, most frequent
    first: they are listed in descending order of the number of their
    occurrences among the tokens counted; a token that is left out occurs
    at most as often as every keyword; and a token is left out only when
    the list is full. *)
Theorem keywords_most_frequent (texts : list string) (top_k : Z) :
  let tokens := kept_tokens texts in
  let kws := keywords_from_texts texts top_k in
  StronglySorted (λ a b, occurrences b tokens ≤ occurrences a tokens) kws
  ∧ (∀ kw w, kw ∈ kws → w ∈ tokens → w ∉ kws →
       occurrences w tokens ≤ occurrences kw tokens)
  ∧ (∀ w, w ∈ tokens → w ∉ kws → len kws = Z.max 0 top_k).
Proof.
  intros tokens kws.
  pose proof (Counter_counted tokens) as (Hnd & Hent & Hcov).
  pose proof (sort_desc_sorted snd (Counter tokens)) as Hsorted.
  pose proof (sort_desc_perm snd (Counter tokens)) as Hperm.
  set (sorted := sort_desc snd (Counter tokens)) in *.
  assert (kws = (take (Z.to_nat top_k) sorted).*1) as Hkws by done.
  assert (∀ p, p ∈ sorted → p.2 = occurrences p.1 tokens) as Hocc.
  { intros [w n] Hp. rewrite Hperm in Hp. by destruct (Hent _ _ Hp) as [-> _]. }
  assert (∀ w, w ∈ tokens → w ∉ kws →
            (w, occurrences w tokens) ∈ drop (Z.to_nat top_k) sorted) as Hdropped.
  { intros w Hw Hout.
    assert (w ∈ sorted.*1) as Hin by (rewrite Hperm; by apply Hcov).
    apply list_elem_of_fmap in Hin as ([w' n] & -> & Hin). simpl in *.
    pose proof (Hocc _ Hin) as Hn. simpl in Hn. subst n.
    rewrite <- (take_drop (Z.to_nat top_k) sorted) in Hin.
    apply elem_of_app in Hin as [Hin | Hin]; [| done].
    exfalso. apply Hout. rewrite Hkws. apply list_elem_of_fmap.
    by exists (w', occurrences w' tokens). }
  split; [| split].
  - rewrite Hkws.
    apply (StronglySorted_fmap_elem fst (desc snd)); [| by apply StronglySorted_take].
    intros x y Hx Hy Hxy. unfold desc in Hxy.
    apply elem_of_take_full in Hx.
    apply elem_of_take_full in Hy.
    by rewrite <- (Hocc _ Hx), <- (Hocc _ Hy).
  - intros kw w Hkw Hw Hout.
    rewrite Hkws in Hkw. apply list_elem_of_fmap in Hkw as (p & -> & Hp).
    pose proof (Hdropped w Hw Hout) as Hd.
    rewrite <- (take_drop (Z.to_nat top_k) sorted) in Hsorted.
    pose proof (StronglySorted_app_1_elem_of _ _ _ _ _ Hsorted Hp Hd) as Hle.
    unfold desc in Hle. simpl in Hle.
    apply elem_of_take_full in Hp.
    by rewrite <- (Hocc _ Hp).
  - intros w Hw Hout. pose proof (Hdropped w Hw Hout) as Hd.
    rewrite Hkws. unfold len. rewrite length_fmap, length_take.
    assert (Z.to_nat top_k < length sorted)%nat; [| lia].
    destruct (decide (Z.to_nat top_k < length sorted)%nat) as [Hlt | Hge]; [done |].
    rewrite drop_ge in Hd by lia. by apply elem_of_nil in Hd.
Qed.

(** ** The Claim Summarizer: what it emits and what it asks *)

Lemma fallback_claim_bullet (text : string) : bullet (fallback_claim text).
Proof. reflexivity. Qed.

Section SummarizerOutput.
Context {W Vec : Type} (config : Config) (client : OpenAI W Vec).

Lemma summarize_one_bullets (text : string) (w w' : W) (lines : list string) :
  summarize_one config client text w = (w', Ok lines) → Forall bullet lines.
Proof.
  unfold summarize_one, try_except.
  unfold mbind, M_mbind, M_bind, mret, M_mret, M_ret, lift.
  assert (Forall bullet [fallback_claim text]) as Hfb
    by (apply Forall_singleton, fallback_claim_bullet).
  destruct (chat_completions_create client _ w) as [w1 [resp | e]].
  - destruct (py_getitem resp 0) as [choice | e].
    + intros [= _ <-].
      destruct (strip <$> filter _ (splitlines (strip (default "" choice))))
        as [|ln lns] eqn:E; [done |].
      rewrite <- E. apply Forall_fmap, Forall_forall. intros l Hl.
      apply list_elem_of_filter in Hl as [Hl _]. by apply Is_true_true.
    + by intros [= _ <-].
  - by intros [= _ <-].
Qed.

(** X9.  Every line the summarizer returns starts with a dash, whether
    it comes from the answer of the model or from the truncation
    fallback. *)
Theorem summaries_are_bullets (F : Type) `{FloatArith F} (comments : list string)
    (sentiment_label theme_name theme_type : string) (max_summaries : Z) (w : W)
    (out : list string) :
  (summarize_comments F config comments client sentiment_label theme_name
     theme_type max_summaries w).2 = Ok out →
  Forall bullet out.
Proof.
  unfold summarize_comments. destruct comments as [|c comments].
  - by intros [= <-].
  - unfold lift. unfold mbind at 1. unfold M_mbind, M_bind.
    destruct (_evenly_sample F (c :: comments) max_summaries) as [used | e]; [| done].
    destruct (summarize_loop_total config client used [] w) as (w' & per & -> & Hall).
    simpl. intros [= <-]. apply Forall_concat.
    induction Hall as [|text lines used' per' [_ (w1 & w2 & Hone)] _ IH]; [constructor |].
    constructor; [| done]. by eapply summarize_one_bullets.
Qed.

End SummarizerOutput.

Lemma summaries_are_bullets_witness : Forall bullet ["- low pay"; "- late pay"].
Proof.
  apply (summaries_are_bullets Doubles.config_with_key
           (Doubles.logging_client
              (Doubles.says ("Here:" +:+ NL +:+ " - low pay " +:+ NL +:+ "- late pay"))
              Doubles.embeds)
           float ["pay is low"] "negative" "pay" "base_theme"
           MAX_SUMMARIES_PER_THEME Doubles.no_calls).
  vm_compute. reflexivity.
Defined.

Section SummarizerRequests.
Context (config : Config).
Context (chat_answer : ChatRequest → result (list (option string))).
Context (embed_answer : list string → result (list unit)).

Lemma summarize_one_request (text : string) (w : Doubles.Log) :
  let w' := (summarize_one config (Doubles.logging_client chat_answer embed_answer)
               text w).1 in
  user_message <$> Doubles.chat_calls w'
  = ((user_message <$> Doubles.chat_calls w)
     ++ [SummarisePrompt (str_prefix 1000 text)])%list
  ∧ Doubles.embedding_calls w' = Doubles.embedding_calls w.
Proof.
  unfold summarize_one, try_except.
  unfold mbind, M_mbind, M_bind, mret, M_mret, M_ret, lift. simpl.
  destruct (chat_answer _) as [resp | e]; simpl.
  - destruct (py_getitem resp 0) as [choice | e]; simpl; by rewrite fmap_app.
  - by rewrite fmap_app.
Qed.

Lemma summarize_loop_requests (comments_to_use : list string) :
  ∀ (summaries : list string) (w : Doubles.Log),
    let w' := (summarize_loop config (Doubles.logging_client chat_answer embed_answer)
                 comments_to_use summaries w).1 in
    user_message <$> Doubles.chat_calls w'
    = ((user_message <$> Doubles.chat_calls w)
       ++ ((λ text, SummarisePrompt (str_prefix 1000 text)) <$> comments_to_use))%list
    ∧ Doubles.embedding_calls w' = Doubles.embedding_calls w.
Proof.
  induction comments_to_use as [|text rest IH]; intros summaries w; simpl.
  - by rewrite app_nil_r.
  - destruct (summarize_one_total config
                (Doubles.logging_client chat_answer embed_answer) text w)
      as (w1 & lines & H1 & _).
    pose proof (summarize_one_request text w) as Hreq. simpl in Hreq.
    rewrite H1 in Hreq. simpl in Hreq. destruct Hreq as [Hchat Hemb].
    rewrite (M_bind_ok _ _ _ _ _ H1).
    destruct (IH (summaries ++ lines)%list w1) as [IHchat IHemb].
    rewrite IHchat, IHemb, Hchat, Hemb. by rewrite <- app_assoc.
Qed.

(** X10.  The summarizer makes one chat request per comment sampled, in
    the order of the sample, each carrying the first 1000 characters of
    its comment, and no embedding request: so at most [max_summaries]
    requests for a batch.  The calls are read off the log of a client
    that records them, whatever that client answers. *)
Theorem summarizer_one_request_per_sample (F : Type) `{FloatArith F}
    (comments : list string) (sentiment_label theme_name theme_type : string)
    (max_summaries : Z) (w : Doubles.Log) (comments_to_use : list string) :
  _evenly_sample F comments max_summaries = Ok comments_to_use →
  let w' := (summarize_comments F config comments
               (Doubles.logging_client chat_answer embed_answer)
               sentiment_label theme_name theme_type max_summaries w).1 in
  user_message <$> Doubles.chat_calls w'
  = ((user_message <$> Doubles.chat_calls w)
     ++ ((λ text, SummarisePrompt (str_prefix 1000 text)) <$> comments_to_use))%list
  ∧ Doubles.embedding_calls w' = Doubles.embedding_calls w
  ∧ len comments_to_use = Z.max 0 (Z.min (len comments) max_summaries).
Proof.
  intros Hsample. destruct (evenly_sample_sound F _ _ _ Hsample) as [Hlen _].
  unfold summarize_comments. destruct comments as [|c comments].
  - destruct comments_to_use; [| unfold len in Hlen; simpl in Hlen; lia].
    simpl. by rewrite app_nil_r.
  - unfold lift. unfold mbind at 1. unfold M_mbind, M_bind. rewrite Hsample.
    destruct (summarize_loop_requests comments_to_use [] w) as [Hchat Hemb].
    done.
Qed.

End SummarizerRequests.

Lemma summarizer_one_request_per_sample_witness :
  let w' := (summarize_comments float Doubles.config_with_key ["a"; "b"; "c"]
               (Doubles.logging_client Doubles.chat_down Doubles.embeds)
               "negative" "pay" "base_theme" 2 Doubles.no_calls).1 in
  user_message <$> Doubles.chat_calls w'
  = ((user_message <$> Doubles.chat_calls Doubles.no_calls)
     ++ ((λ text, SummarisePrompt (str_prefix 1000 text)) <$> ["a"; "b"]))%list
  ∧ Doubles.embedding_calls w' = Doubles.embedding_calls Doubles.no_calls
  ∧ len ["a"; "b"] = Z.max 0 (Z.min (len ["a"; "b"; "c"]) 2).
Proof.
  apply (summarizer_one_request_per_sample Doubles.config_with_key Doubles.chat_down
           Doubles.embeds float ["a"; "b"; "c"] "negative" "pay" "base_theme" 2
           Doubles.no_calls ["a"; "b"]).
  vm_compute. reflexivity.
Defined.

(** ** The search for a JSON object in an answer *)

Lemma has_char_app (c : ascii) (a b : string) :
  has_char c (a ++ b) = has_char c a || has_char c b.
Proof.
  induction a as [|x a IH]; [done |].
  change (has_char c (String x (a ++ b)) = has_char c (String x a) || has_char c b).
  cbn [has_char]. by rewrite IH, orb_assoc.
Qed.

Lemma str_append_assoc (a b c : string) : (a ++ b) ++ c = a ++ b ++ c.
Proof.
  induction a as [|x a IH]; [done |].
  change (String x ((a ++ b) ++ c) = String x (a ++ b ++ c)). by rewrite IH.
Qed.

Lemma has_char_cons (c c' : ascii) (s : string) :
  has_char c (String c' s) = Ascii.eqb c c' || has_char c s.
Proof. reflexivity. Qed.

Lemma upto_last_close_spec (s : string) :
  match upto_last_close s with
  | Some r => ∃ mid post, s = mid ++ "}" ++ post ∧ r = mid ++ "}"
                          ∧ has_char "}" post = false
  | None => has_char "}" s = false
  end.
Proof.
  induction s as [|c s IH]; [done |]. cbn [upto_last_close].
  destruct (upto_last_close s) as [r |].
  - destruct IH as (mid & post & -> & -> & Hpost).
    by exists (String c mid), post.
  - destruct (Ascii.eqb c "}") eqn:Ec.
    + apply Ascii.eqb_eq in Ec as ->. by exists "", s.
    + by rewrite has_char_cons, Ascii.eqb_sym, Ec, IH.
Qed.

(** X11.  [re.search(r'\{[\s\S]*\}', text)] as the two pipelines use it:
    a match runs from the first opening brace of the text to its last
    closing brace, so nothing before the match holds an opening brace and
    nothing after it a closing one; and there is no match exactly when no
    closing brace follows an opening one. *)
Theorem search_braces_spec (text : string) :
  match search_braces text with
  | Some matched =>
      ∃ pre mid post,
        text = pre ++ matched ++ post
        ∧ matched = "{" ++ mid ++ "}"
        ∧ has_char "{" pre = false
        ∧ has_char "}" post = false
  | None => ∀ a b c, text ≠ a ++ "{" ++ b ++ "}" ++ c
  end.
Proof.
  induction text as [|c s IH]; cbn [search_braces].
  - intros [|x a] b c; discriminate.
  - destruct (Ascii.eqb c "{") eqn:Ec.
    + apply Ascii.eqb_eq in Ec as ->.
      pose proof (upto_last_close_spec s) as Hs.
      destruct (upto_last_close s) as [r |]; cbn [fmap option_fmap option_map].
      * destruct Hs as (mid & post & -> & -> & Hpost).
        exists "", mid, post. repeat split; [| done].
        change (String "{" (mid ++ "}" ++ post) = String "{" ((mid ++ "}") ++ post)).
        by rewrite str_append_assoc.
      * intros a b c Heq.
        assert (has_char "}" (String "{" s) = false) as Hno
          by (by rewrite has_char_cons, Hs).
        rewrite Heq in Hno.
        rewrite !has_char_app in Hno.
        change (has_char "}" "}") with true in Hno.
        by rewrite !orb_true_r in Hno.
    + destruct (search_braces s) as [matched |].
      * destruct IH as (pre & mid & post & -> & -> & Hpre & Hpost).
        exists (String c pre), mid, post.
        rewrite has_char_cons, Ascii.eqb_sym, Ec. done.
      * intros [|x a] b c' Heq.
        -- change (String c s = String "{" (b ++ "}" ++ c')) in Heq.
           injection Heq as -> _. by rewrite Ascii.eqb_refl in Ec.
        -- change (String c s = String x (a ++ "{" ++ b ++ "}" ++ c')) in Heq.
           injection Heq as -> ->. by eapply IH.
Qed.

(** ** The recommendations of the Insight Synthesizer *)

(** X12.  When the answer of the model carries a JSON object whose
    ["recommendations"] is a list, no recommendation the synthesizer keeps
    is empty: blank entries are dropped before the first three are taken.
    When the value is missing or falsy, there is no recommendation. *)
Theorem list_recommendations_never_blank {Vec} (libs : Libs Vec)
    (text matched : string) (data recs : json) (s : Synth) :
  search_braces text = Some matched →
  json_loads libs matched = Ok data →
  json_get data "recommendations" JNull = Ok recs →
  parse_insight libs text = Ok s →
  (∀ l, recs = JArray l →
     Forall (λ r, r ≠ "") (recommendations s)
     ∧ recommendations s
       = take 3 ((λ r, strip (py_str libs r))
                   <$> filter (λ r, strip (py_str libs r) ≠ "") l))
  ∧ (truthy recs = false → recommendations s = []).
Proof.
  intros Hm Hload Hget. unfold parse_insight. rewrite Hm, Hload. simpl.
  destruct (json_get data "summary" (JString "")) as [v | e]; [| done]. simpl.
  destruct (json_strip v) as [sm | e]; [| done]. simpl.
  rewrite Hget. simpl. intros [= <-]. simpl. split.
  - intros l ->. destruct l as [|r l]; [by split; [constructor |] |].
    simpl truthy. cbv iota. split; [| done].
    apply Forall_take, Forall_fmap, Forall_forall. intros x Hx.
    by apply list_elem_of_filter in Hx as [Hx _].
  - intros ->. done.
Qed.

Lemma list_recommendations_never_blank_witness :
  let libs := Doubles.libs_of None [(Doubles.five_recs_text, Doubles.five_recs_json)] in
  (∀ l, JArray [JString " a "; JString "  "; JString "b"; JString "c"; JString "d"]
        = JArray l →
     Forall (λ r, r ≠ "") (recommendations {| summary := ""; recommendations := ["a"; "b"; "c"] |})
     ∧ recommendations {| summary := ""; recommendations := ["a"; "b"; "c"] |}
       = take 3 ((λ r, strip (py_str libs r))
                   <$> filter (λ r, strip (py_str libs r) ≠ "") l))
  ∧ (truthy (JArray [JString " a "; JString "  "; JString "b"; JString "c"; JString "d"])
     = false →
     recommendations {| summary := ""; recommendations := ["a"; "b"; "c"] |} = []).
Proof.
  apply (list_recommendations_never_blank
           (Doubles.libs_of None [(Doubles.five_recs_text, Doubles.five_recs_json)])
           ("Sure: " +:+ Doubles.five_recs_text) Doubles.five_recs_text
           Doubles.five_recs_json
           (JArray [JString " a "; JString "  "; JString "b"; JString "c"; JString "d"])
           {| summary := ""; recommendations := ["a"; "b"; "c"] |});
    vm_compute; reflexivity.
Defined.

(** ** The split of the rows of a theme *)

Lemma split_rows_filter (all_data : list ContentRow) :
  ∀ pos neg,
    Advanced.split_rows all_data pos neg
    = ((pos ++ (stripped_content <$> filter counts_positive all_data))%list,
       (neg ++ (stripped_content <$> filter counts_negative all_data))%list).
Proof.
  induction all_data as [|item rest IH]; intros pos neg.
  - simpl. by rewrite !app_nil_r.
  - cbn [Advanced.split_rows].
    change (strip (default "" (content item))) with (stripped_content item).
    change (lower (default "" (sentiment item))) with (label_of item).
    change (default 0 (likes item)) with (likes_of item).
    destruct (decide (stripped_content item = "")) as [Hblank | Hcontent].
    { rewrite IH. rewrite !filter_cons_False; [done | |];
        unfold counts_negative, counts_positive; tauto. }
    destruct (decide (label_of item = "positive")) as [Hpos | Hnpos].
    { rewrite (bool_decide_eq_true_2 _ Hpos). cbn [negb andb].
      rewrite IH. rewrite filter_cons_True by (split; [done | by left]).
      rewrite filter_cons_False.
      - rewrite fmap_cons. by rewrite <- app_assoc.
      - unfold counts_negative. rewrite Hpos. intros [_ [? | [? _]]]; done. }
    rewrite (bool_decide_eq_false_2 _ Hnpos).
    destruct (decide (label_of item = "negative")) as [Hneg | Hnneg].
    { rewrite (bool_decide_eq_true_2 _ Hneg). cbn [negb andb].
      rewrite IH. rewrite filter_cons_False.
      - rewrite filter_cons_True by (split; [done | by left]).
        rewrite fmap_cons. by rewrite <- app_assoc.
      - unfold counts_positive. rewrite Hneg. intros [_ [? | [? _]]]; done. }
    rewrite (bool_decide_eq_false_2 _ Hnneg). cbn [negb andb].
    destruct (5 <? likes_of item) eqn:E5.
    { apply Z.ltb_lt in E5. rewrite IH.
      rewrite filter_cons_True by (split; [done | by right]).
      rewrite filter_cons_False.
      - rewrite fmap_cons. by rewrite <- app_assoc.
      - unfold counts_negative. intros [_ [? | [_ ?]]]; [done | lia]. }
    apply Z.ltb_ge in E5.
    destruct (likes_of item <? -5) eqn:Em5.
    { apply Z.ltb_lt in Em5. rewrite IH.
      rewrite filter_cons_False.
      - rewrite filter_cons_True by (split; [done | by right]).
        rewrite fmap_cons. by rewrite <- app_assoc.
      - unfold counts_positive. intros [_ [? | [_ ?]]]; [done | lia]. }
    apply Z.ltb_ge in Em5. rewrite IH.
    rewrite !filter_cons_False; [done | |].
    + unfold counts_negative. intros [_ [? | [_ ?]]]; [done | lia].
    + unfold counts_positive. intros [_ [? | [_ ?]]]; [done | lia].
Qed.

Lemma filter_two_length {A} (P Q : A → Prop) `{!∀ x, Decision (P x)}
    `{!∀ x, Decision (Q x)} (l : list A) :
  (∀ x, P x → Q x → False) →
  (length (filter P l) + length (filter Q l) ≤ length l)%nat.
Proof.
  intros Hdisj. induction l as [|x l IH]; [done |].
  destruct (decide (P x)) as [HP | HP]; destruct (decide (Q x)) as [HQ | HQ].
  - by destruct (Hdisj x).
  - rewrite filter_cons_True, (filter_cons_False Q) by done. simpl. lia.
  - rewrite (filter_cons_False P), (filter_cons_True Q) by done. simpl. lia.
  - rewrite (filter_cons_False P), (filter_cons_False Q) by done. simpl. lia.
Qed.

(** X13.  [get_theme_content] of the cluster-based pipeline, once the
    store has answered: the positive list holds, in the order of the rows,
    the stripped content of every row whose content is not blank and that
    is labelled positive (in any letter case) or, when it is labelled
    neither positive nor negative, has more than 5 likes; the negative
    list likewise with the label negative or fewer than -5 likes.  So the
    label wins over the likes, no content returned is empty, and no row
    is counted on both sides.  A theme type other than ["base_theme"] is
    read as a sub-theme, and an answer without data as no rows. *)
Theorem get_theme_content_classifies {W} (supabase : Supabase W)
    (theme_type theme_name : string) (w w' : W)
    (resp_data : option (list ContentRow)) :
  select_content supabase
    (if decide (theme_type = "base_theme") then "base_theme" else "sub_theme")
    theme_name MAX_COMMENTS_PER_THEME w = (w', Ok resp_data) →
  let rows := default [] resp_data in
  let pos := stripped_content <$> filter counts_positive rows in
  let neg := stripped_content <$> filter counts_negative rows in
  get_theme_content supabase theme_type theme_name w = (w', Ok (pos, neg))
  ∧ Forall (λ c, c ≠ "") (pos ++ neg)
  ∧ len pos + len neg ≤ len rows.
Proof.
  intros Hsel rows pos neg. split; [| split].
  - unfold get_theme_content. rewrite (M_bind_ok _ _ _ _ _ Hsel).
    unfold mret, M_mret, M_ret. by rewrite split_rows_filter.
  - apply Forall_app. split; apply Forall_fmap, Forall_forall; intros item Hitem;
      apply list_elem_of_filter in Hitem as [[Hc _] _]; exact Hc.
  - subst pos neg. unfold len. rewrite !length_fmap.
    pose proof (filter_two_length counts_positive counts_negative rows) as Hlen.
    assert (∀ x, counts_positive x → counts_negative x → False) as Hdisj.
    { intros x [_ [Hp | [Hn Hl]]] [_ [Hn' | [Hp' Hl']]]; try congruence; lia. }
    specialize (Hlen Hdisj). lia.
Qed.

Lemma get_theme_content_classifies_witness :
  let rows :=
    [ {| content := Some " Great pay "; sentiment := Some "Positive"; likes := Some (-9) |};
      {| content := Some "long hours"; sentiment := None; likes := Some (-6) |};
      {| content := Some "  "; sentiment := Some "negative"; likes := None |};
      {| content := Some "fine"; sentiment := Some "neutral"; likes := Some 5 |} ] in
  let pos := stripped_content <$> filter counts_positive (default [] (Some rows)) in
  let neg := stripped_content <$> filter counts_negative (default [] (Some rows)) in
  get_theme_content (Doubles.store_of [] rows) "base_theme" "pay" Doubles.no_calls
  = (Doubles.no_calls, Ok (pos, neg))
  ∧ Forall (λ c, c ≠ "") (pos ++ neg)
  ∧ len pos + len neg ≤ len (default [] (Some rows)).
Proof.
  apply (get_theme_content_classifies
           (Doubles.store_of []
              [ {| content := Some " Great pay "; sentiment := Some "Positive";
                   likes := Some (-9) |};
                {| content := Some "long hours"; sentiment := None; likes := Some (-6) |};
                {| content := Some "  "; sentiment := Some "negative"; likes := None |};
                {| content := Some "fine"; sentiment := Some "neutral"; likes := Some 5 |} ])
           "base_theme" "pay" Doubles.no_calls Doubles.no_calls).
  reflexivity.
Defined.

Example get_theme_content_label_wins :
  get_theme_content
    (Doubles.store_of []
       [ {| content := Some " Great pay "; sentiment := Some "Positive"; likes := Some (-9) |};
         {| content := Some "long hours"; sentiment := None; likes := Some (-6) |};
         {| content := Some "  "; sentiment := Some "negative"; likes := None |};
         {| content := Some "fine"; sentiment := Some "neutral"; likes := Some 5 |} ])
    "base_theme" "pay" Doubles.no_calls
  = (Doubles.no_calls, Ok (["Great pay"], ["long hours"])).
Proof. vm_compute. reflexivity. Qed.

Lemma basic_split_rows_filter (all_data : list ContentRow) :
  ∀ pos neg,
    Basic.split_rows all_data pos neg
    = ((pos ++ (raw_content <$> filter basic_counts_positive all_data))%list,
       (neg ++ (raw_content <$> filter basic_counts_negative all_data))%list).
Proof.
  induction all_data as [|item rest IH]; intros pos neg.
  - simpl. by rewrite !app_nil_r.
  - cbn [Basic.split_rows].
    destruct (content item) as [[|c s] |] eqn:Hcontent.
    1, 3: rewrite IH; rewrite !filter_cons_False; [done | |];
      unfold basic_counts_negative, basic_counts_positive, raw_content;
      rewrite Hcontent; simpl; tauto.
    assert (raw_content item = String c s) as Hraw
      by (unfold raw_content; by rewrite Hcontent).
    assert (raw_content item ≠ "") as Hne by (by rewrite Hraw).
    change (default 0 (likes item)) with (likes_of item).
    destruct (decide (sentiment item = Some "positive")) as [Hpos | Hnpos].
    { rewrite (bool_decide_eq_true_2 _ Hpos).
      rewrite IH. rewrite filter_cons_True by (split; [done | by left]).
      rewrite filter_cons_False.
      - rewrite fmap_cons, Hraw. by rewrite <- app_assoc.
      - unfold basic_counts_negative. rewrite Hpos. intros [_ [? | [? _]]]; done. }
    rewrite (bool_decide_eq_false_2 _ Hnpos).
    destruct (decide (sentiment item = Some "negative")) as [Hneg | Hnneg].
    { rewrite (bool_decide_eq_true_2 _ Hneg).
      rewrite IH. rewrite filter_cons_False.
      - rewrite filter_cons_True by (split; [done | by left]).
        rewrite fmap_cons, Hraw. by rewrite <- app_assoc.
      - unfold basic_counts_positive. rewrite Hneg. intros [_ [? | [? _]]]; done. }
    rewrite (bool_decide_eq_false_2 _ Hnneg).
    destruct (5 <? likes_of item) eqn:E5.
    { apply Z.ltb_lt in E5. rewrite IH.
      rewrite filter_cons_True by (split; [done | by right]).
      rewrite filter_cons_False.
      - rewrite fmap_cons, Hraw. by rewrite <- app_assoc.
      - unfold basic_counts_negative. intros [_ [? | [_ ?]]]; [done | lia]. }
    apply Z.ltb_ge in E5.
    destruct (likes_of item <? -5) eqn:Em5.
    { apply Z.ltb_lt in Em5. rewrite IH.
      rewrite filter_cons_False.
      - rewrite filter_cons_True by (split; [done | by right]).
        rewrite fmap_cons, Hraw. by rewrite <- app_assoc.
      - unfold basic_counts_positive. intros [_ [? | [_ ?]]]; [done | lia]. }
    apply Z.ltb_ge in Em5. rewrite IH.
    rewrite !filter_cons_False; [done | |].
    + unfold basic_counts_negative. intros [_ [? | [_ ?]]]; [done | lia].
    + unfold basic_counts_positive. intros [_ [? | [_ ?]]]; [done | lia].
Qed.

(** X14.  [get_theme_content] of the basic pipeline, once the store
    has answered: the positive list holds, in the order of the rows, the
    content, as stored, of every row with a content that is not empty and
    the exact label ["positive"] or, without either exact label, more than
    5 likes; the negative list likewise.  The content is not stripped and
    the label is compared as it is, so a blank comment is kept and a label
    in another letter case falls back to the likes.  An answer without
    data makes the function raise [TypeError]. *)
Theorem basic_get_theme_content_classifies {W} (supabase : Supabase W)
    (theme_type theme_name : string) (w w' : W)
    (resp_data : option (list ContentRow)) :
  select_content supabase
    (if decide (theme_type = "base_theme") then "base_theme" else "sub_theme")
    theme_name 1000 w = (w', Ok resp_data) →
  Basic.get_theme_content supabase theme_type theme_name w
  = (w', match resp_data with
         | Some rows =>
             Ok (raw_content <$> filter basic_counts_positive rows,
                 raw_content <$> filter basic_counts_negative rows)
         | None => Raise TypeError
         end).
Proof.
  intros Hsel. unfold Basic.get_theme_content. rewrite (M_bind_ok _ _ _ _ _ Hsel).
  destruct resp_data as [rows |].
  - unfold lift. unfold mbind at 1. unfold M_mbind, M_bind, mret, M_mret, M_ret.
    by rewrite basic_split_rows_filter.
  - reflexivity.
Qed.

Lemma basic_get_theme_content_classifies_witness :
  let rows :=
    [ {| content := Some " Great pay "; sentiment := Some "Positive"; likes := Some (-9) |};
      {| content := Some "  "; sentiment := Some "negative"; likes := None |};
      {| content := None; sentiment := Some "positive"; likes := Some 9 |} ] in
  Basic.get_theme_content (Doubles.store_of [] rows) "sub_theme" "pay" Doubles.no_calls
  = (Doubles.no_calls,
     Ok (raw_content <$> filter basic_counts_positive rows,
         raw_content <$> filter basic_counts_negative rows)).
Proof.
  apply (basic_get_theme_content_classifies
           (Doubles.store_of []
              [ {| content := Some " Great pay "; sentiment := Some "Positive";
                   likes := Some (-9) |};
                {| content := Some "  "; sentiment := Some "negative"; likes := None |};
                {| content := None; sentiment := Some "positive"; likes := Some 9 |} ])
           "sub_theme" "pay" Doubles.no_calls Doubles.no_calls
           (Some [ {| content := Some " Great pay "; sentiment := Some "Positive";
                      likes := Some (-9) |};
                   {| content := Some "  "; sentiment := Some "negative"; likes := None |};
                   {| content := None; sentiment := Some "positive"; likes := Some 9 |} ])).
  reflexivity.
Defined.

Example basic_get_theme_content_label_as_stored :
  Basic.get_theme_content
    (Doubles.store_of []
       [ {| content := Some " Great pay "; sentiment := Some "Positive"; likes := Some (-9) |};
         {| content := Some "  "; sentiment := Some "negative"; likes := None |};
         {| content := None; sentiment := Some "positive"; likes := Some 9 |} ])
    "sub_theme" "pay" Doubles.no_calls
  = (Doubles.no_calls, Ok ([], [" Great pay "; "  "])).
Proof. vm_compute. reflexivity. Qed.

(** ** The list of themes *)

Lemma ascii_compare_lt_trans (a b c : ascii) :
  Ascii.compare a b = Lt → Ascii.compare b c = Lt → Ascii.compare a c = Lt.
Proof. unfold Ascii.compare. rewrite !N.compare_lt_iff. lia. Qed.

Lemma str_lt_trans (a b c : string) : str_lt a b → str_lt b c → str_lt a c.
Proof.
  unfold str_lt. revert b c.
  induction a as [|x a IH]; intros [|y b] [|z c]; simpl; try done.
  destruct (Ascii.compare x y) eqn:Exy; [| | done].
  - apply Ascii.compare_eq_iff in Exy as ->.
    destruct (Ascii.compare y z); [apply IH | done | done].
  - destruct (Ascii.compare y z) eqn:Eyz; [| | done].
    + apply Ascii.compare_eq_iff in Eyz as ->. by rewrite Exy.
    + by rewrite (ascii_compare_lt_trans _ _ _ Exy Eyz).
Qed.

Lemma str_lt_irrefl (a : string) : ¬ str_lt a a.
Proof.
  unfold str_lt. intros Hlt. pose proof (String.compare_antisym a a) as Hanti.
  rewrite Hlt in Hanti. discriminate.
Qed.

Lemma str_compare_gt (a b : string) : String.compare a b = Gt → str_lt b a.
Proof. unfold str_lt. intros H. by rewrite (String.compare_antisym b a), H. Qed.

Lemma StronglySorted_str_lt_NoDup (l : list string) :
  StronglySorted str_lt l → NoDup l.
Proof.
  induction 1 as [|x l Hs IH Hall]; constructor; [| done].
  intros Hin. rewrite Forall_forall in Hall. by apply (str_lt_irrefl x), Hall.
Qed.

Lemma elem_of_insert_unique (x : string) (l : list string) (y : string) :
  y ∈ insert_unique x l ↔ y = x ∨ y ∈ l.
Proof.
  induction l as [|a l IH]; simpl.
  - rewrite list_elem_of_singleton. split; [by left | intros [? | ?%elem_of_nil]; done].
  - destruct (String.compare x a) eqn:E.
    + apply String.compare_eq_iff in E as ->. split; [by right |].
      intros [-> | Hin]; [by left | done].
    + by rewrite elem_of_cons.
    + rewrite !elem_of_cons, IH. tauto.
Qed.

Lemma insert_unique_sorted (x : string) (l : list string) :
  StronglySorted str_lt l → StronglySorted str_lt (insert_unique x l).
Proof.
  induction 1 as [|a l Hs IH Hall]; simpl; [repeat constructor |].
  destruct (String.compare x a) eqn:E.
  - by constructor.
  - constructor; [by constructor |]. constructor; [done |].
    eapply Forall_impl; [exact Hall |]. intros z Hz. by eapply str_lt_trans.
  - constructor; [done |]. apply Forall_forall. intros z Hz.
    apply elem_of_insert_unique in Hz as [-> | Hz]; [by apply str_compare_gt |].
    rewrite Forall_forall in Hall. by apply Hall.
Qed.

Lemma sorted_set_sorted (l : list string) : StronglySorted str_lt (sorted_set l).
Proof.
  induction l as [|x l IH]; simpl; [constructor | by apply insert_unique_sorted].
Qed.

Lemma elem_of_sorted_set (l : list string) (y : string) : y ∈ sorted_set l ↔ y ∈ l.
Proof.
  induction l as [|x l IH]; simpl; [done |].
  by rewrite elem_of_insert_unique, elem_of_cons, IH.
Qed.

Lemma omap_pointwise {A B} (f g : A → option B) (l : list A) :
  (∀ x, f x = g x) → omap f l = omap g l.
Proof.
  intros Hfg. apply list_omap_ext, Forall_Forall2_diag, Forall_forall.
  intros x _. apply Hfg.
Qed.

Lemma keep_theme_same (c : ascii) (s : string) :
  (if decide (String c s ∈ ["others"; "stock_market"]) then None else Some (String c s))
  = (if decide (String c s ∈ ["others"; "stock_market"; ""]) then None
     else Some (String c s)).
Proof.
  destruct (decide (String c s ∈ ["others"; "stock_market"])) as [Hin | Hout].
  - rewrite decide_True; [done |].
    apply elem_of_cons in Hin as [-> | Hin]; [by left |].
    apply list_elem_of_singleton in Hin as ->. right. by left.
  - rewrite decide_False; [done |]. intros Hin. apply Hout.
    apply elem_of_cons in Hin as [-> | Hin]; [by left |].
    apply elem_of_cons in Hin as [-> | Hin]; [right; by left |].
    apply list_elem_of_singleton in Hin. discriminate.
Qed.

Section Themes.
Context {W : Type} (supabase : Supabase W).

(** What the cluster-based [get_all_themes] returns once the store has
    answered. *)
Lemma get_all_themes_returns (w w' : W) (resp_data : option (list ThemeRow)) :
  select_themes supabase w = (w', Ok resp_data) →
  ∃ base sub,
    get_all_themes supabase w = (w', Ok (base, sub))
    ∧ StronglySorted str_lt base
    ∧ StronglySorted str_lt sub
    ∧ (∀ t, t ∈ base ↔
         (t ∉ ["others"; "stock_market"; ""])
         ∧ ∃ d, d ∈ default [] resp_data ∧ base_theme d = Some t)
    ∧ (∀ t, t ∈ sub ↔
         (t ∉ ["others"; "stock_market"; ""])
         ∧ ∃ d, d ∈ default [] resp_data ∧ sub_theme d = Some t).
Proof.
  intros Hsel. unfold get_all_themes. rewrite (M_bind_ok _ _ _ _ _ Hsel).
  eexists _, _. split; [reflexivity |].
  split; [apply sorted_set_sorted |]. split; [apply sorted_set_sorted |].
  split; intros t; rewrite elem_of_sorted_set, list_elem_of_omap; split.
  - intros (d & Hd & Hkeep). destruct (base_theme d) as [s |] eqn:Hb; [| done].
    case_decide; [done |]. simplify_eq. split; [done | by exists d].
  - intros (Hout & d & Hd & Hbase). exists d. split; [done |].
    rewrite Hbase. by rewrite decide_False.
  - intros (d & Hd & Hkeep). destruct (sub_theme d) as [s |] eqn:Hs; [| done].
    case_decide; [done |]. simplify_eq. split; [done | by exists d].
  - intros (Hout & d & Hd & Hsub). exists d. split; [done |].
    rewrite Hsub. by rewrite decide_False.
Qed.

(** The basic [get_all_themes] lists the same themes when the store
    answers with rows. *)
Lemma basic_get_all_themes_same (w w' : W) (data : list ThemeRow) :
  select_themes supabase w = (w', Ok (Some data)) →
  Basic.get_all_themes supabase w = get_all_themes supabase w.
Proof.
  intros Hsel. unfold Basic.get_all_themes, get_all_themes.
  rewrite !(M_bind_ok _ _ _ _ _ Hsel). unfold lift.
  unfold mbind at 1. unfold M_mbind, M_bind, mret, M_mret, M_ret. simpl.
  do 2 f_equal. f_equal; f_equal; apply omap_pointwise; intros d.
  - destruct (base_theme d) as [[|c s] |]; [| | done].
    + by rewrite decide_True by (right; right; left).
    + apply keep_theme_same.
  - destruct (sub_theme d) as [[|c s] |]; [| | done].
    + by rewrite decide_True by (right; right; left).
    + apply keep_theme_same.
Qed.

(** X15.  Once the store has answered, [get_all_themes] returns the
    base themes and the sub-themes each in strictly increasing order, so
    without repetition; a theme is listed exactly when some row carries it
    and it is none of ["others"], ["stock_market"] and the empty string.
    The basic pipeline lists the same themes when the answer carries
    rows, and raises [TypeError] when it carries no data, where the
    cluster-based pipeline lists nothing. *)
Theorem get_all_themes_sorted_distinct (w w' : W)
    (resp_data : option (list ThemeRow)) :
  select_themes supabase w = (w', Ok resp_data) →
  ∃ base sub,
    get_all_themes supabase w = (w', Ok (base, sub))
    ∧ StronglySorted str_lt base ∧ NoDup base
    ∧ StronglySorted str_lt sub ∧ NoDup sub
    ∧ (∀ t, t ∈ base ↔
         (t ∉ ["others"; "stock_market"; ""])
         ∧ ∃ d, d ∈ default [] resp_data ∧ base_theme d = Some t)
    ∧ (∀ t, t ∈ sub ↔
         (t ∉ ["others"; "stock_market"; ""])
         ∧ ∃ d, d ∈ default [] resp_data ∧ sub_theme d = Some t)
    ∧ Basic.get_all_themes supabase w
      = (w', match resp_data with
             | Some _ => Ok (base, sub)
             | None => Raise TypeError
             end).
Proof.
  intros Hsel.
  destruct (get_all_themes_returns w w' resp_data Hsel)
    as (base & sub & Hrun & Hb & Hs & Hbm & Hsm).
  exists base, sub. split; [done |].
  split; [done |]. split; [by apply StronglySorted_str_lt_NoDup |].
  split; [done |]. split; [by apply StronglySorted_str_lt_NoDup |].
  split; [done |]. split; [done |].
  destruct resp_data as [data |].
  - by rewrite (basic_get_all_themes_same w w' data Hsel).
  - unfold Basic.get_all_themes. by rewrite (M_bind_ok _ _ _ _ _ Hsel).
Qed.

End Themes.

Lemma get_all_themes_sorted_distinct_witness :
  let rows := [ Doubles.theme_row "pay" "bonus"; Doubles.theme_row "others" "bonus";
                Doubles.theme_row "culture" ""; Doubles.theme_row "pay" "salary" ] in
  ∃ base sub,
    get_all_themes (Doubles.store_of rows []) Doubles.no_calls
    = (Doubles.no_calls, Ok (base, sub))
    ∧ StronglySorted str_lt base ∧ NoDup base
    ∧ StronglySorted str_lt sub ∧ NoDup sub
    ∧ (∀ t, t ∈ base ↔
         (t ∉ ["others"; "stock_market"; ""])
         ∧ ∃ d, d ∈ default [] (Some rows) ∧ base_theme d = Some t)
    ∧ (∀ t, t ∈ sub ↔
         (t ∉ ["others"; "stock_market"; ""])
         ∧ ∃ d, d ∈ default [] (Some rows) ∧ sub_theme d = Some t)
    ∧ Basic.get_all_themes (Doubles.store_of rows []) Doubles.no_calls
      = (Doubles.no_calls, Ok (base, sub)).
Proof.
  apply (get_all_themes_sorted_distinct
           (Doubles.store_of
              [ Doubles.theme_row "pay" "bonus"; Doubles.theme_row "others" "bonus";
                Doubles.theme_row "culture" ""; Doubles.theme_row "pay" "salary" ] [])
           Doubles.no_calls Doubles.no_calls
           (Some [ Doubles.theme_row "pay" "bonus"; Doubles.theme_row "others" "bonus";
                   Doubles.theme_row "culture" ""; Doubles.theme_row "pay" "salary" ])).
  reflexivity.
Defined.

Example get_all_themes_of_four_rows :
  (get_all_themes
     (Doubles.store_of
        [ Doubles.theme_row "pay" "bonus"; Doubles.theme_row "others" "bonus";
          Doubles.theme_row "culture" ""; Doubles.theme_row "pay" "salary" ] [])
     Doubles.no_calls).2
  = Ok (["culture"; "pay"], ["bonus"; "salary"]).
Proof. vm_compute. reflexivity. Qed.

(** ** The themes a run processes and the keys of the table *)

Lemma insight_key_inj (theme_type a b : string) :
  insight_key theme_type a = insight_key theme_type b → a = b.
Proof.
  unfold insight_key. intros Heq.
  apply (String.app_inj theme_type) in Heq. by apply (String.app_inj "_") in Heq.
Qed.

Lemma insight_key_base_sub (a b : string) :
  insight_key "base_theme" a ≠ insight_key "sub_theme" b.
Proof. unfold insight_key. intros Heq. discriminate Heq. Qed.

Lemma py_slice_to_sublist {A} (l : list A) (k : Z) : sublist (py_slice_to l k) l.
Proof. unfold py_slice_to. destruct (k <? 0); apply sublist_take. Qed.

Lemma py_slice_to_length {A} (l : list A) (k : Z) :
  0 < k → len (py_slice_to l k) ≤ k.
Proof.
  intros Hk. unfold py_slice_to, len. destruct (k <? 0) eqn:E; [lia |].
  rewrite length_take. lia.
Qed.

Lemma limited_sublist (a : AdvancedMain.Args) (themes : list string) :
  sublist (AdvancedMain.limited a themes) themes.
Proof.
  unfold AdvancedMain.limited. destruct (AdvancedMain.arg_limit a) as [k |]; [| done].
  destruct (k =? 0); [done | apply py_slice_to_sublist].
Qed.

(** The themes to process are some of the base themes followed by some
    of the sub-themes, each in the order of its list. *)
Lemma themes_to_process_split (a : AdvancedMain.Args) (base_themes sub_themes : list string) :
  ∃ bs ss,
    AdvancedMain.themes_to_process a base_themes sub_themes
    = ((((λ t, ("base_theme", t)) <$> bs) ++ ((λ t, ("sub_theme", t)) <$> ss))%list
       : list (string * string))
    ∧ sublist bs base_themes ∧ sublist ss sub_themes
    ∧ (bs ≠ [] → AdvancedMain.wants_base a = true)
    ∧ (ss ≠ [] → AdvancedMain.wants_sub a = true)
    ∧ (∀ t, AdvancedMain.arg_theme a = Some t → t ≠ "" →
         Forall (λ x, x = t) bs ∧ Forall (λ x, x = t) ss
         ∧ (length bs ≤ 1)%nat ∧ (length ss ≤ 1)%nat)
    ∧ (∀ k, AdvancedMain.arg_theme a = None ∨ AdvancedMain.arg_theme a = Some "" →
         AdvancedMain.arg_limit a = Some k → 0 < k → len bs ≤ k ∧ len ss ≤ k).
Proof.
  unfold AdvancedMain.themes_to_process.
  destruct (AdvancedMain.arg_theme a) as [[|c t] |] eqn:Htheme.
  1, 3:
    exists (if AdvancedMain.wants_base a then AdvancedMain.limited a base_themes else []),
           (if AdvancedMain.wants_sub a then AdvancedMain.limited a sub_themes else []);
    (split; [by destruct (AdvancedMain.wants_base a), (AdvancedMain.wants_sub a) |]);
    (split; [destruct (AdvancedMain.wants_base a);
               [apply limited_sublist | apply sublist_nil_l] |]);
    (split; [destruct (AdvancedMain.wants_sub a);
               [apply limited_sublist | apply sublist_nil_l] |]);
    (split; [by destruct (AdvancedMain.wants_base a) |]);
    (split; [by destruct (AdvancedMain.wants_sub a) |]);
    (split; [intros t' Ht' Hne; by simplify_eq |]);
    intros k _ Hk Hpos; unfold AdvancedMain.limited; rewrite Hk;
    (assert ((k =? 0) = false) as -> by lia);
    split; [destruct (AdvancedMain.wants_base a) | destruct (AdvancedMain.wants_sub a)];
    first [by apply py_slice_to_length | unfold len; simpl; lia].
  exists (if AdvancedMain.wants_base a && bool_decide (String c t ∈ base_themes)
          then [String c t] else []),
         (if AdvancedMain.wants_sub a && bool_decide (String c t ∈ sub_themes)
          then [String c t] else []).
  split.
  { by destruct (_ && _), (_ && _). }
  split.
  { destruct (AdvancedMain.wants_base a); simpl; [| apply sublist_nil_l].
    case_bool_decide; [by apply singleton_sublist_l | apply sublist_nil_l]. }
  split.
  { destruct (AdvancedMain.wants_sub a); simpl; [| apply sublist_nil_l].
    case_bool_decide; [by apply singleton_sublist_l | apply sublist_nil_l]. }
  split; [by destruct (AdvancedMain.wants_base a) |].
  split; [by destruct (AdvancedMain.wants_sub a) |].
  split.
  - intros t' [= <-] _.
    destruct (_ && _), (_ && _); repeat split; repeat constructor; simpl; lia.
  - intros k [? | ?]; done.
Qed.

Lemma filter_tagged_same (tag : string) (l : list string) :
  filter (λ th : string * string, th.1 = tag) ((λ t, (tag, t)) <$> l)
  = (λ t, (tag, t)) <$> l.
Proof.
  induction l as [| t l IH]; [done |].
  rewrite fmap_cons, filter_cons_True by done. by rewrite IH.
Qed.

Lemma filter_tagged_other (tag tag' : string) (l : list string) :
  tag' ≠ tag →
  filter (λ th : string * string, th.1 = tag) ((λ t, (tag', t)) <$> l) = [].
Proof.
  intros Hne. induction l as [| t l IH]; [done |].
  by rewrite fmap_cons, filter_cons_False.
Qed.

Lemma filter_base_tagged (bs ss : list string) :
  filter (λ th : string * string, th.1 = "base_theme")
    ((((λ t, ("base_theme", t)) <$> bs) ++ ((λ t, ("sub_theme", t)) <$> ss))%list
     : list (string * string))
  = (λ t, ("base_theme", t)) <$> bs.
Proof.
  rewrite filter_app, filter_tagged_same, filter_tagged_other by done.
  apply app_nil_r.
Qed.

Lemma filter_sub_tagged (bs ss : list string) :
  filter (λ th : string * string, th.1 = "sub_theme")
    ((((λ t, ("base_theme", t)) <$> bs) ++ ((λ t, ("sub_theme", t)) <$> ss))%list
     : list (string * string))
  = (λ t, ("sub_theme", t)) <$> ss.
Proof.
  by rewrite filter_app, filter_tagged_same, filter_tagged_other.
Qed.

(** X16.  The themes that [main] of the cluster-based pipeline
    processes, for theme lists without repetition: each is a listed base
    theme, when base themes are asked for, or a listed sub-theme, when
    sub-themes are; with [--theme] only that theme is processed, at most
    once as a base theme and at most once as a sub-theme, and [--limit]
    is not looked at; without [--theme] a limit [k > 0] keeps at most [k]
    base themes and at most [k] sub-themes; and no two of them share a
    key of the table, so no insight overwrites another. *)
Theorem themes_to_process_selection (a : AdvancedMain.Args)
    (base_themes sub_themes : list string) :
  NoDup base_themes → NoDup sub_themes →
  let themes := AdvancedMain.themes_to_process a base_themes sub_themes in
  Forall (λ th, (th.1 = "base_theme" ∧ AdvancedMain.wants_base a = true
                 ∧ th.2 ∈ base_themes)
                ∨ (th.1 = "sub_theme" ∧ AdvancedMain.wants_sub a = true
                   ∧ th.2 ∈ sub_themes)) themes
  ∧ (∀ t, AdvancedMain.arg_theme a = Some t → t ≠ "" →
       Forall (λ th, th.2 = t) themes ∧ len themes ≤ 2
       ∧ len (filter (λ th, th.1 = "base_theme") themes) ≤ 1
       ∧ len (filter (λ th, th.1 = "sub_theme") themes) ≤ 1)
  ∧ (∀ k, AdvancedMain.arg_theme a = None ∨ AdvancedMain.arg_theme a = Some "" →
       AdvancedMain.arg_limit a = Some k → 0 < k →
       len themes ≤ 2 * k
       ∧ len (filter (λ th, th.1 = "base_theme") themes) ≤ k
       ∧ len (filter (λ th, th.1 = "sub_theme") themes) ≤ k)
  ∧ NoDup ((λ th, insight_key th.1 th.2) <$> themes).
Proof.
  intros Hbase Hsub themes.
  destruct (themes_to_process_split a base_themes sub_themes)
    as (bs & ss & Heq & Hbs & Hss & Hwb & Hws & Htheme & Hlimit).
  subst themes. rewrite Heq. split; [| split; [| split]].
  - apply Forall_app. split; apply Forall_fmap, Forall_forall; intros t Ht; simpl.
    + left. split; [done |]. split; [apply Hwb; intros ->; by apply elem_of_nil in Ht |].
      by eapply elem_of_sublist.
    + right. split; [done |]. split; [apply Hws; intros ->; by apply elem_of_nil in Ht |].
      by eapply elem_of_sublist.
  - intros t Ht Hne. destruct (Htheme t Ht Hne) as (Hb & Hs & Hlb & Hls).
    split; [| split].
    + apply Forall_app. split; apply Forall_fmap.
      * eapply Forall_impl; [exact Hb |]. by intros x ->.
      * eapply Forall_impl; [exact Hs |]. by intros x ->.
    + unfold len. rewrite length_app, !length_fmap. lia.
    + rewrite filter_base_tagged, filter_sub_tagged.
      unfold len. rewrite !length_fmap. lia.
  - intros k Hnone Hk Hpos. destruct (Hlimit k Hnone Hk Hpos) as [Hb Hs].
    rewrite filter_base_tagged, filter_sub_tagged.
    unfold len in *. rewrite length_app, !length_fmap. lia.
  - rewrite fmap_app, <- !list_fmap_compose. apply NoDup_app. split; [| split].
    + apply NoDup_fmap_2_strong; [| exact (sublist_NoDup _ _ Hbase Hbs)].
      intros x y _ _ Hxy. by apply insight_key_inj in Hxy.
    + intros key Hb Hs.
      apply list_elem_of_fmap in Hb as (x & -> & _).
      apply list_elem_of_fmap in Hs as (y & Hxy & _).
      by apply insight_key_base_sub in Hxy.
    + apply NoDup_fmap_2_strong; [| exact (sublist_NoDup _ _ Hsub Hss)].
      intros x y _ _ Hxy. by apply insight_key_inj in Hxy.
Qed.

Lemma themes_to_process_selection_witness :
  let a := {| AdvancedMain.arg_type := AdvancedMain.type_all;
              AdvancedMain.arg_limit := Some 1;
              AdvancedMain.arg_theme := None |} in
  let themes := AdvancedMain.themes_to_process a ["culture"; "pay"] ["bonus"; "pay"] in
  Forall (λ th, (th.1 = "base_theme" ∧ AdvancedMain.wants_base a = true
                 ∧ th.2 ∈ ["culture"; "pay"])
                ∨ (th.1 = "sub_theme" ∧ AdvancedMain.wants_sub a = true
                   ∧ th.2 ∈ ["bonus"; "pay"])) themes
  ∧ (∀ t, AdvancedMain.arg_theme a = Some t → t ≠ "" →
       Forall (λ th, th.2 = t) themes ∧ len themes ≤ 2
       ∧ len (filter (λ th, th.1 = "base_theme") themes) ≤ 1
       ∧ len (filter (λ th, th.1 = "sub_theme") themes) ≤ 1)
  ∧ (∀ k, AdvancedMain.arg_theme a = None ∨ AdvancedMain.arg_theme a = Some "" →
       AdvancedMain.arg_limit a = Some k → 0 < k →
       len themes ≤ 2 * k
       ∧ len (filter (λ th, th.1 = "base_theme") themes) ≤ k
       ∧ len (filter (λ th, th.1 = "sub_theme") themes) ≤ k)
  ∧ NoDup ((λ th, insight_key th.1 th.2) <$> themes).
Proof.
  apply (themes_to_process_selection
           {| AdvancedMain.arg_type := AdvancedMain.type_all;
              AdvancedMain.arg_limit := Some 1;
              AdvancedMain.arg_theme := None |}
           ["culture"; "pay"] ["bonus"; "pay"]).
  - repeat constructor; intros Hin; repeat (apply elem_of_cons in Hin as [Hin | Hin];
      [discriminate Hin |]); by apply elem_of_nil in Hin.
  - repeat constructor; intros Hin; repeat (apply elem_of_cons in Hin as [Hin | Hin];
      [discriminate Hin |]); by apply elem_of_nil in Hin.
Defined.

(** ** The two main loops *)

Section MainRuns.
Context {W Vec : Type} (F : Type) `{FloatArith F}.
Context (config : Config) (libs : Libs Vec) (supabase : Supabase W).
Context (client : OpenAI W Vec).

(** Whatever happens while a theme is processed, the body of the loop
    returns: with the table as it was, or with one insight more. *)
Lemma process_theme_contained (theme : string * string)
    (acc : gmap string (Insight string (list string))) (w : W) :
  ∃ w' t,
    AdvancedMain.process_theme F config libs supabase client theme acc w = (w', Ok t)
    ∧ (t = acc ∨ ∃ ins, t = <[insight_key theme.1 theme.2 := ins]> acc).
Proof.
  destruct theme as [tt tn]. unfold AdvancedMain.process_theme, try_except.
  unfold mbind, M_mbind, M_bind, mret, M_mret, M_ret.
  destruct (get_theme_content supabase tt tn w) as [w1 [[pos neg] | e]];
    [| by eexists _, _; split; [| left]].
  destruct pos as [|p pos], neg as [|n neg];
    [by eexists _, _; split; [| left] | | |];
    (destruct (generate_insights_for_theme F config libs tt tn _ _ client w1)
       as [w2 [ins | e]];
     [eexists _, _; split; [reflexivity | right; by eexists]
     | by eexists _, _; split; [| left]]).
Qed.

Lemma process_themes_contained (themes : list (string * string)) :
  ∀ (acc : gmap string (Insight string (list string))) (w : W),
    ∃ w' t,
      AdvancedMain.process_themes F config libs supabase client themes acc w = (w', Ok t)
      ∧ ∀ k, is_Some (t !! k) →
             is_Some (acc !! k) ∨ k ∈ (λ th, insight_key th.1 th.2) <$> themes.
Proof.
  induction themes as [|theme rest IH]; intros acc w; simpl.
  - exists w, acc. split; [done |]. intros k Hk. by left.
  - destruct (process_theme_contained theme acc w) as (w1 & t1 & H1 & Ht1).
    rewrite (M_bind_ok _ _ _ _ _ H1).
    destruct (IH t1 w1) as (w2 & t2 & H2 & Ht2).
    exists w2, t2. split; [done |]. intros k Hk.
    destruct (Ht2 k Hk) as [Hin | Hin]; [| right; by right].
    destruct Ht1 as [-> | [ins ->]]; [by left |].
    apply lookup_insert_is_Some in Hin as [<- | [_ Hin]]; [right; by left | by left].
Qed.

Lemma basic_process_theme_contained (theme_type theme : string)
    (acc : gmap string (Insight json json)) (w : W) :
  ∃ w' t,
    Basic.process_theme F config libs supabase client theme_type theme acc w = (w', Ok t)
    ∧ (t = acc ∨ ∃ ins, t = <[insight_key theme_type theme := ins]> acc).
Proof.
  unfold Basic.process_theme, try_except.
  unfold mbind, M_mbind, M_bind, mret, M_mret, M_ret.
  destruct (Basic.get_theme_content supabase theme_type theme w)
    as [w1 [[pos neg] | e]]; [| by eexists _, _; split; [| left]].
  destruct pos as [|p pos], neg as [|n neg];
    [by eexists _, _; split; [| left] | | |];
    (destruct (Basic.generate_insights_for_theme F config libs theme_type theme _ _
                 client w1) as [w2 [ins | e]];
     [eexists _, _; split; [reflexivity | right; by eexists]
     | by eexists _, _; split; [| left]]).
Qed.

Lemma basic_process_themes_contained (theme_type : string) (themes : list string) :
  ∀ (acc : gmap string (Insight json json)) (w : W),
    ∃ w' t,
      Basic.process_themes F config libs supabase client theme_type themes acc w
      = (w', Ok t)
      ∧ ∀ k, is_Some (t !! k) →
             is_Some (acc !! k) ∨ k ∈ insight_key theme_type <$> themes.
Proof.
  induction themes as [|theme rest IH]; intros acc w; simpl.
  - exists w, acc. split; [done |]. intros k Hk. by left.
  - destruct (basic_process_theme_contained theme_type theme acc w)
      as (w1 & t1 & H1 & Ht1).
    rewrite (M_bind_ok _ _ _ _ _ H1).
    destruct (IH t1 w1) as (w2 & t2 & H2 & Ht2).
    exists w2, t2. split; [done |]. intros k Hk.
    destruct (Ht2 k Hk) as [Hin | Hin]; [| right; by right].
    destruct Ht1 as [-> | [ins ->]]; [by left |].
    apply lookup_insert_is_Some in Hin as [<- | [_ Hin]]; [right; by left | by left].
Qed.

(** X17.  [main] of the cluster-based pipeline.  Without an API key it
    exits with code 1 before it asks the store or the model anything.
    With a key, a failure of the query that lists the themes is not
    caught and ends the run; once the themes are listed the run cannot
    fail any more, whatever the store and the model do on each theme: it
    saves a table, and every key of the table is the key of a theme that
    a row of the store carries and whose type was asked for. *)
Theorem main_contains_theme_errors (a : AdvancedMain.Args) (w : W) :
  (OPENAI_API_KEY config = None ∨ OPENAI_API_KEY config = Some "" →
   AdvancedMain.main F config libs supabase a client w = (w, Ok (Exited 1)))
  ∧ (∀ key, OPENAI_API_KEY config = Some key → key ≠ "" →
       (∀ w1 e, select_themes supabase w = (w1, Raise e) →
          AdvancedMain.main F config libs supabase a client w = (w1, Raise e))
       ∧ (∀ w1 resp_data, select_themes supabase w = (w1, Ok resp_data) →
            ∃ w' table,
              AdvancedMain.main F config libs supabase a client w
              = (w', Ok (Saved table))
              ∧ ∀ k, is_Some (table !! k) →
                  ∃ theme_name d,
                    d ∈ default [] resp_data
                    ∧ ((k = insight_key "base_theme" theme_name
                        ∧ base_theme d = Some theme_name
                        ∧ AdvancedMain.wants_base a = true)
                       ∨ (k = insight_key "sub_theme" theme_name
                          ∧ sub_theme d = Some theme_name
                          ∧ AdvancedMain.wants_sub a = true)))).
Proof.
  split.
  - unfold AdvancedMain.main. by intros [-> | ->].
  - intros key Hkey Hne. unfold AdvancedMain.main. rewrite Hkey.
    destruct key as [|c key]; [done |]. split.
    + intros w1 e Hsel.
      assert (get_all_themes supabase w = (w1, Raise e)) as Hthemes.
      { unfold get_all_themes. by rewrite (M_bind_raise _ _ _ _ _ Hsel). }
      by rewrite (M_bind_raise _ _ _ _ _ Hthemes).
    + intros w1 resp_data Hsel.
      destruct (get_all_themes_returns supabase w w1 resp_data Hsel)
        as (base & sub & Hthemes & _ & _ & Hbase & Hsub).
      rewrite (M_bind_ok _ _ _ _ _ Hthemes). simpl.
      destruct (process_themes_contained
                  (AdvancedMain.themes_to_process a base sub) ∅ w1)
        as (w' & table & Hrun & Hkeys).
      rewrite (M_bind_ok _ _ _ _ _ Hrun).
      exists w', table. split; [done |]. intros k Hk.
      destruct (Hkeys k Hk) as [Hempty | Hin].
      { rewrite lookup_empty in Hempty. by destruct Hempty. }
      destruct (themes_to_process_split a base sub)
        as (bs & ss & Heq & Hbs & Hss & Hwb & Hws & _).
      rewrite Heq, fmap_app, <- !list_fmap_compose in Hin.
      apply elem_of_app in Hin as [Hin | Hin];
        apply list_elem_of_fmap in Hin as (t & -> & Ht).
      * assert (t ∈ base) as Hlisted by (by eapply elem_of_sublist).
        apply Hbase in Hlisted as (_ & d & Hd & Hdt).
        exists t, d. split; [done |]. left. split; [done |]. split; [done |].
        apply Hwb. intros ->. by apply elem_of_nil in Ht.
      * assert (t ∈ sub) as Hlisted by (by eapply elem_of_sublist).
        apply Hsub in Hlisted as (_ & d & Hd & Hdt).
        exists t, d. split; [done |]. right. split; [done |]. split; [done |].
        apply Hws. intros ->. by apply elem_of_nil in Ht.
Qed.

(** X18.  [main] of the basic pipeline: the same containment.  It exits
    with code 1 without an API key; a failure of the listing query ends
    the run, and so does an answer without data, with [TypeError]; once
    the themes are listed it saves a table whose keys are keys of themes
    that rows of the store carry. *)
Theorem basic_main_contains_theme_errors (w : W) :
  (OPENAI_API_KEY config = None ∨ OPENAI_API_KEY config = Some "" →
   Basic.main F config libs supabase client w = (w, Ok (Exited 1)))
  ∧ (∀ key, OPENAI_API_KEY config = Some key → key ≠ "" →
       (∀ w1 e, select_themes supabase w = (w1, Raise e) →
          Basic.main F config libs supabase client w = (w1, Raise e))
       ∧ (∀ w1, select_themes supabase w = (w1, Ok None) →
            Basic.main F config libs supabase client w = (w1, Raise TypeError))
       ∧ (∀ w1 data, select_themes supabase w = (w1, Ok (Some data)) →
            ∃ w' table,
              Basic.main F config libs supabase client w = (w', Ok (Saved table))
              ∧ ∀ k, is_Some (table !! k) →
                  ∃ theme_name d,
                    d ∈ data
                    ∧ ((k = insight_key "base_theme" theme_name
                        ∧ base_theme d = Some theme_name)
                       ∨ (k = insight_key "sub_theme" theme_name
                          ∧ sub_theme d = Some theme_name)))).
Proof.
  split.
  - unfold Basic.main. by intros [-> | ->].
  - intros key Hkey Hne. unfold Basic.main. rewrite Hkey.
    destruct key as [|c key]; [done |]. split; [| split].
    + intros w1 e Hsel.
      assert (Basic.get_all_themes supabase w = (w1, Raise e)) as Hthemes.
      { unfold Basic.get_all_themes. by rewrite (M_bind_raise _ _ _ _ _ Hsel). }
      by rewrite (M_bind_raise _ _ _ _ _ Hthemes).
    + intros w1 Hsel.
      assert (Basic.get_all_themes supabase w = (w1, Raise TypeError)) as Hthemes.
      { unfold Basic.get_all_themes. by rewrite (M_bind_ok _ _ _ _ _ Hsel). }
      by rewrite (M_bind_raise _ _ _ _ _ Hthemes).
    + intros w1 data Hsel.
      destruct (get_all_themes_returns supabase w w1 (Some data) Hsel)
        as (base & sub & Hthemes & _ & _ & Hbase & Hsub).
      rewrite <- (basic_get_all_themes_same supabase w w1 data Hsel) in Hthemes.
      rewrite (M_bind_ok _ _ _ _ _ Hthemes). simpl.
      destruct (basic_process_themes_contained "base_theme" base ∅ w1)
        as (w2 & t2 & Hrun2 & Hkeys2).
      rewrite (M_bind_ok _ _ _ _ _ Hrun2).
      destruct (basic_process_themes_contained "sub_theme" sub t2 w2)
        as (w3 & t3 & Hrun3 & Hkeys3).
      rewrite (M_bind_ok _ _ _ _ _ Hrun3).
      exists w3, t3. split; [done |]. intros k Hk.
      destruct (Hkeys3 k Hk) as [Hin2 | Hin].
      * destruct (Hkeys2 k Hin2) as [Hempty | Hin].
        { rewrite lookup_empty in Hempty. by destruct Hempty. }
        apply list_elem_of_fmap in Hin as (t & -> & Ht).
        apply Hbase in Ht as (_ & d & Hd & Hdt).
        exists t, d. split; [done |]. by left.
      * apply list_elem_of_fmap in Hin as (t & -> & Ht).
        apply Hsub in Ht as (_ & d & Hd & Hdt).
        exists t, d. split; [done |]. by right.
Qed.

End MainRuns.

(** ** The read side: status codes and the cache *)

(** X19.  The route on the body of the request.  The [data.get] calls
    come before the [try]: a body that is neither falsy nor an object
    makes them raise [AttributeError], which nothing in the route
    catches.  On any other body the route answers with 200 or 400: 200
    exactly when the field [theme_type] is one of the strings
    ["base_theme"] and ["sub_theme"] and the field [theme_name] is
    truthy, be it a string or not; 400 with an error message otherwise.
    On a 200 the key is made of the type and of [str] of the name; the
    body is the stored value, as it is, when the table holds the key, and
    the fixed answer when it does not.  When both fields are strings the
    route answers as [Routes.get_theme_insights] on the two strings. *)
Theorem get_theme_insights_status (str_other : json → string)
    (cache file : option (gmap string json)) (body : json) :
  let r := Endpoint.get_theme_insights str_other cache file body in
  let theme_type := Endpoint.request_field body "theme_type" in
  let theme_name := Endpoint.request_field body "theme_name" in
  let key :=
    insight_key (Endpoint.format_value str_other theme_type)
      (Endpoint.format_value str_other theme_name) in
  let table := (Routes.load_theme_insights cache file).1 in
  (r = Raise AttributeError ↔ ¬ Endpoint.has_fields body)
  ∧ (Endpoint.has_fields body →
     ∃ out, r = Ok out
       ∧ (out.2 = 200 ∨ out.2 = 400)
       ∧ (out.2 = 200 ↔
            (theme_type = JString "base_theme" ∨ theme_type = JString "sub_theme")
            ∧ truthy theme_name = true)
       ∧ (out.2 = 400 → ∃ error, out.1 = Routes.ErrorBody error)
       ∧ (out.2 = 200 → ∀ v, table !! key = Some v → out.1 = Routes.InsightBody v)
       ∧ (out.2 = 200 → table !! key = None →
          out.1 = Routes.InsightBody (JObject
                    [ ("positive_summary", JString Routes.NO_INSIGHTS);
                      ("negative_summary", JString Routes.NO_INSIGHTS);
                      ("positive_recommendations", JArray []);
                      ("negative_recommendations", JArray []) ])))
  ∧ (∀ type_ name,
       theme_type = JString type_ → theme_name = JString name →
       r = Ok (Routes.get_theme_insights cache file (Some type_) (Some name))).
Proof.
  intros r theme_type theme_name key table.
  subst r theme_type theme_name key table.
  unfold Endpoint.get_theme_insights, Endpoint.has_fields, Endpoint.request_field.
  destruct body as [| b | n | x | s | l | fields].
  7: destruct fields as [| field fields].
  2: destruct b.
  4: destruct (n =? 0) eqn:Hn.
  6: destruct (PrimFloat.eqb x PrimFloat.zero) eqn:Hx.
  8: destruct s as [| c s].
  10: destruct l as [| v l].
  13: {
  (* an object with a field *)
  change (truthy (JObject (field :: fields))) with true.
  change (if true then ?a else ?b) with a.
  unfold json_get.
  generalize (default JNull (assoc_get "theme_type" (field :: fields))).
  generalize (default JNull (assoc_get "theme_name" (field :: fields))).
  generalize (default (JObject []) (assoc_get "filters" (field :: fields))).
  intros filters name type_. simpl.
  split; [split; [| intros Hno; exfalso; apply Hno; right; by eexists] |].
  { intros Hr _. revert Hr.
    destruct (_ || _); [done |]. destruct (negb _); [done |].
    by destruct (_ !! _). }
  destruct (truthy type_) eqn:Htt; simpl.
  2: { split; [intros _; eexists; split; [reflexivity |]; simpl;
               split; [by right |]; split;
                 [split; [done | intros [[-> | ->] _]; discriminate Htt] |];
               split; [by eexists | done] |].
       intros t n' -> _. simpl in Htt. destruct t; [reflexivity | discriminate Htt]. }
  destruct (truthy name) eqn:Htn; simpl.
  2: { split; [intros _; eexists; split; [reflexivity |]; simpl;
               split; [by right |]; split;
                 [split; [done | intros [_ ?]; congruence] |];
               split; [by eexists | done] |].
       intros t n' -> ->. simpl in Htn. destruct n'; [| discriminate Htn].
       unfold Routes.get_theme_insights. simpl.
       by rewrite orb_true_r. }
  destruct type_ as [| | | | t | |]; simpl;
    try (split; [intros _; eexists; split; [reflexivity |]; simpl;
                 split; [by right |]; split;
                   [split; [done | intros [[? | ?] _]; done] |];
                 split; [by eexists | done] |];
         intros ? ? ? ?; done).
  assert (∀ n : string,
            name = JString n →
            Routes.get_theme_insights cache file (Some t) (Some n)
            = if bool_decide (t ∉ ["base_theme"; "sub_theme"])
              then (Routes.ErrorBody
                      ("theme_type must be either " +:+ DQ +:+ "base_theme" +:+ DQ
                       +:+ " or " +:+ DQ +:+ "sub_theme" +:+ DQ), 400)
              else match (Routes.load_theme_insights cache file).1 !! insight_key t n with
                   | Some v => (Routes.InsightBody v, 200)
                   | None =>
                       (Routes.InsightBody (JObject
                          [ ("positive_summary", JString Routes.NO_INSIGHTS);
                            ("negative_summary", JString Routes.NO_INSIGHTS);
                            ("positive_recommendations", JArray []);
                            ("negative_recommendations", JArray []) ]), 200)
                   end) as Htyped.
  { intros n ->. simpl in Htt, Htn.
    destruct t; [discriminate Htt |]. destruct n; [discriminate Htn |]. done. }
  destruct (String.eqb_spec t "base_theme") as [-> | Hbase];
    [| destruct (String.eqb_spec t "sub_theme") as [-> | Hsub]]; simpl.
  1, 2:
    (split; [| intros ? n [= <-] Hn; rewrite (Htyped n Hn); subst name; simpl;
               by destruct (_ !! _)]);
    intros _; destruct (_ !! _) as [v |] eqn:Hlook;
    (eexists; split; [reflexivity |]); simpl;
    (split; [by left |]);
    (split; [split; [intros _; split; [by (left + right) | done] | done] |]);
    (split; [done |]);
    (split; [intros _ v' [= <-] || intros _ v' [=] | intros _ ?]); done.
  split.
  - intros _. eexists. split; [reflexivity |]. simpl.
    split; [by right |].
    split; [split; [done | intros [[[= ->] | [= ->]] _]; done] |].
    split; [by eexists | done].
  - intros ? n [= <-] Hn. rewrite (Htyped n Hn).
    rewrite bool_decide_true; [done |].
    intros Hin. apply elem_of_cons in Hin as [-> | Hin]; [done |].
    by apply list_elem_of_singleton in Hin. }
  all: simpl truthy; rewrite ?Hn, ?Hx; simpl negb.
  (* a truthy body that is no object *)
  2, 5, 7, 9, 11:
    simpl;
    (split; [split; [intros _ [Hfalsy | [fields Hobj]]; [| done];
                     simpl in Hfalsy; rewrite ?Hn, ?Hx in Hfalsy; done
                    | done] |]);
    (split; [| done]); intros [Hfalsy | [fields Hobj]]; [| done];
    simpl in Hfalsy; rewrite ?Hn, ?Hx in Hfalsy; done.
  (* a falsy body *)
  1, 2, 3, 4, 5, 6, 7:
    simpl;
    (split; [split; [done | intros Hno; exfalso; apply Hno; left; simpl;
                            by rewrite ?Hn, ?Hx] |]);
    (split; [| done]); intros _; eexists; (split; [reflexivity |]); simpl;
    (split; [by right |]); (split; [split; [done | by intros [_ ?]] |]);
    (split; [by eexists |]); done.
Qed.

(** A body that is a list makes the route raise; a name that is a number
    is accepted, and the key is made of [str] of the number. *)
Example get_theme_insights_odd_bodies :
  let str_other := λ v, match v with JInt n => pretty n | _ => "?" end in
  let table : gmap string json := {[ "base_theme_7" := JString "seven" ]} in
  Endpoint.get_theme_insights str_other (Some table) None (JArray [JInt 1])
  = Raise AttributeError
  ∧ Endpoint.get_theme_insights str_other (Some table) None
      (JObject [("theme_type", JString "base_theme"); ("theme_name", JInt 7)])
    = Ok (Routes.InsightBody (JString "seven"), 200)
  ∧ Endpoint.get_theme_insights str_other (Some table) None
      (JObject [("theme_type", JString "base_theme"); ("theme_name", JInt 0)])
    = Ok (Routes.ErrorBody "theme_type and theme_name are required", 400).
Proof. split; [reflexivity |]. split; [| reflexivity]. vm_compute. reflexivity. Qed.

(** X20.  The table is loaded once.  After the first call of
    [load_theme_insights], which caches the empty table when the file is
    missing or unreadable, a later call returns the cached table whatever
    the file holds by then, and so does the route: its answers no longer
    depend on the file. *)
Theorem theme_insights_cache_is_sticky (file1 file2 : option (gmap string json))
    (theme_type theme_name : option string) :
  let cache := (Routes.load_theme_insights None file1).2 in
  Routes.load_theme_insights cache file2 = (default ∅ file1, cache)
  ∧ Routes.get_theme_insights cache file2 theme_type theme_name
    = Routes.get_theme_insights None file1 theme_type theme_name
  ∧ (file1 = None →
     ∀ key, (Routes.load_theme_insights cache file2).1 !! key = None).
Proof.
  intros cache. subst cache. split; [done |]. split; [done |].
  intros -> key. simpl. apply lookup_empty.
Qed.

(** ** What can and what cannot make the generation of an insight fail *)

Section Generation.
Context {W Vec : Type} (config : Config) (libs : Libs Vec) (client : OpenAI W Vec).

(** X21.  The synthesizer never raises, whatever the model answers and
    whatever [json.loads] makes of it; it returns at most three
    recommendations; and without clusters, or with a comment count of
    zero, it returns the all-empty result without calling the model. *)
Theorem synthesizer_never_raises (theme_type theme_name sentiment_label : string)
    (clusters : list Cluster) (total_comments : Z) (w : W) :
  ∃ w' s,
    generate_theme_insight_from_clusters config libs theme_type theme_name
      sentiment_label clusters total_comments client w = (w', Ok s)
    ∧ (length (recommendations s) ≤ 3)%nat
    ∧ (clusters = [] ∨ total_comments = 0 → w' = w ∧ s = empty_insight).
Proof.
  destruct (synthesizer_total config libs client theme_type theme_name sentiment_label
              clusters total_comments w) as (w' & s & Hrun & Hlen).
  exists w', s. split; [done |]. split; [done |]. intros Hnothing.
  rewrite (synthesizer_nothing_to_do config libs client theme_type theme_name
             sentiment_label clusters total_comments w Hnothing) in Hrun.
  by injection Hrun as <- <-.
Qed.

(** The embedding call returns from every world. *)
Lemma insight_side_returns (F : Type) `{FloatArith F}
    (theme_type theme_name sentiment_label : string) (contents : list string) (w : W) :
  (∀ model texts w0, ∃ w1 vectors,
      embeddings_create client model texts w0 = (w1, Ok vectors)) →
  sampling_regular F (len contents) MAX_SUMMARIES_PER_THEME →
  ∃ w' s,
    insight_side F config libs theme_type theme_name sentiment_label contents client w
    = (w', Ok s)
    ∧ (length (recommendations s) ≤ 3)%nat
    ∧ (contents = [] → w' = w ∧ s = empty_insight).
Proof.
  intros Hembed Hreg. unfold insight_side.
  destruct contents as [|c contents].
  { exists w, empty_insight. split; [done |]. split; [simpl; lia | done]. }
  destruct (summarize_comments_returns config client F (c :: contents) sentiment_label
              theme_name theme_type MAX_SUMMARIES_PER_THEME w)
    as (w1 & used & per & _ & Hsum & _ & Hout); [done | done |].
  rewrite (M_bind_ok _ _ _ _ _ Hsum).
  destruct (concat per) as [|s summaries] eqn:Hper; [by destruct Hout |].
  destruct (Hembed get_embedding_model_name (s :: summaries) w1) as (w2 & vectors & Hemb).
  assert (embed_texts (s :: summaries) client w1 = (w2, Ok vectors)) as Hemb' by done.
  rewrite (M_bind_ok _ _ _ _ _ Hemb').
  destruct (synthesizer_total config libs client theme_type theme_name sentiment_label
              (cluster_summaries libs (s :: summaries) vectors)
              (len (c :: contents)) w2) as (w3 & out & Hrun & Hlen).
  exists w3, out. split; [done |]. split; [done | done].
Qed.

(** X22.  With a cap that covers the batch, or a regular sampling, and
    an embedding call that returns, the per-theme function of the
    cluster-based pipeline returns an Insight, whatever the chat model
    and KMeans do: each side has at most three recommendations, and a
    side without comments is empty and costs no call.  So a failure of
    the embedding call, or of the sampler, is the only way for a theme to
    be lost. *)
Theorem generate_insights_returns (F : Type) `{FloatArith F}
    (theme_type theme_name : string) (pos_contents neg_contents : list string) (w : W) :
  (∀ model texts w0, ∃ w1 vectors,
      embeddings_create client model texts w0 = (w1, Ok vectors)) →
  sampling_regular F (len pos_contents) MAX_SUMMARIES_PER_THEME →
  sampling_regular F (len neg_contents) MAX_SUMMARIES_PER_THEME →
  ∃ w' insights,
    generate_insights_for_theme F config libs theme_type theme_name
      pos_contents neg_contents client w = (w', Ok insights)
    ∧ (length (positive_recommendations insights) ≤ 3)%nat
    ∧ (length (negative_recommendations insights) ≤ 3)%nat
    ∧ (pos_contents = [] →
       positive_summary insights = "" ∧ positive_recommendations insights = [])
    ∧ (neg_contents = [] →
       negative_summary insights = "" ∧ negative_recommendations insights = [])
    ∧ (pos_contents = [] → neg_contents = [] → w' = w).
Proof.
  intros Hembed Hpos Hneg. unfold generate_insights_for_theme.
  destruct (insight_side_returns F theme_type theme_name "positive" pos_contents w
              Hembed Hpos) as (w1 & sp & Hp & Hlp & Hep).
  rewrite (M_bind_ok _ _ _ _ _ Hp).
  destruct (insight_side_returns F theme_type theme_name "negative" neg_contents w1
              Hembed Hneg) as (w2 & sn & Hn & Hln & Hen).
  rewrite (M_bind_ok _ _ _ _ _ Hn).
  eexists _, _. split; [reflexivity |]. simpl.
  split; [done |]. split; [done |]. split; [| split].
  - intros Hnil. by destruct (Hep Hnil) as [_ ->].
  - intros Hnil. by destruct (Hen Hnil) as [_ ->].
  - intros Hp0 Hn0. destruct (Hep Hp0) as [-> _]. by destruct (Hen Hn0) as [-> _].
Qed.

End Generation.

Lemma generate_insights_returns_witness :
  let libs := Doubles.libs_of None [] in
  let client := Doubles.logging_client Doubles.chat_down Doubles.embeds in
  ∃ w' insights,
    generate_insights_for_theme float Doubles.config_with_key libs "base_theme" "pay"
      ["good pay"] [] client Doubles.no_calls = (w', Ok insights)
    ∧ (length (positive_recommendations insights) ≤ 3)%nat
    ∧ (length (negative_recommendations insights) ≤ 3)%nat
    ∧ (["good pay"] = [] →
       positive_summary insights = "" ∧ positive_recommendations insights = [])
    ∧ (@nil string = [] →
       negative_summary insights = "" ∧ negative_recommendations insights = [])
    ∧ (["good pay"] = [] → @nil string = [] → w' = Doubles.no_calls).
Proof.
  apply (generate_insights_returns Doubles.config_with_key (Doubles.libs_of None [])
           (Doubles.logging_client Doubles.chat_down Doubles.embeds) float
           "base_theme" "pay" ["good pay"] [] Doubles.no_calls).
  - intros model texts w0. by eexists _, _.
  - left. vm_compute. discriminate.
  - left. vm_compute. discriminate.
Defined.

(** ** The basic pipeline: the prompt input and the generation *)

Lemma str_length_app (a b : string) :
  String.length (a ++ b) = (String.length a + String.length b)%nat.
Proof.
  induction a as [|x a IH]; [done |].
  change (S (String.length (a ++ b)) = S (String.length a + String.length b)).
  by rewrite IH.
Qed.

Lemma str_prefix_length (k : nat) (s : string) :
  (String.length (str_prefix k s) ≤ k)%nat.
Proof.
  unfold str_prefix. revert s. induction k as [|k IH]; intros [|c s]; simpl; try lia.
  specialize (IH s). lia.
Qed.

Lemma startswith_app (p x : string) : startswith p (p ++ x) = true.
Proof.
  unfold startswith. induction p as [|a p IH]; [by destruct x |].
  change (String.prefix (String a p) (String a (p ++ x)) = true).
  cbn [String.prefix]. by destruct (ascii_dec a a).
Qed.

Lemma sample_line_shape (comment : string) :
  startswith "- " (Basic.sample_line comment) = true
  ∧ (String.length (Basic.sample_line comment) ≤ 305)%nat.
Proof.
  split; [apply startswith_app |]. unfold Basic.sample_line.
  rewrite !str_length_app.
  pose proof (str_prefix_length 300 (strip comment)) as Hle.
  destruct (300 <? String.length (strip comment))%nat; simpl; lia.
Qed.

(** X23.  The condensed prompt input of the basic pipeline is bounded,
    however many comments a theme has: for a batch that is not empty it
    records the number of comments, at most 12 keywords, and
    [min(N, max_samples)] sample lines, each starting with a dash and at
    most 305 characters long (300 of the stripped comment and an
    ellipsis); for the empty batch it is the line for no comments. *)
Theorem build_prompt_input_bounded (F : Type) `{FloatArith F} (contents : list string)
    (sentiment_label : string) (max_samples : Z) :
  0 < max_samples →
  sampling_regular F (len contents) max_samples →
  match contents with
  | [] =>
      Basic._build_prompt_input F contents sentiment_label max_samples
      = Ok (None_input sentiment_label)
  | _ =>
      ∃ word_count keyword_counts sample_lines,
        Basic._build_prompt_input F contents sentiment_label max_samples
        = Ok (Summary_input sentiment_label (len contents) word_count
                keyword_counts sample_lines)
        ∧ len keyword_counts ≤ 12
        ∧ len sample_lines = Z.min (len contents) max_samples
        ∧ Forall (λ ln, startswith "- " ln = true ∧ (String.length ln ≤ 305)%nat)
                 sample_lines
  end.
Proof.
  intros Hcap Hreg. destruct contents as [|c contents]; [done |].
  unfold Basic._build_prompt_input.
  destruct (len (c :: contents) =? 0) eqn:E0.
  { unfold len in E0. simpl in E0. lia. }
  destruct (evenly_sample_returns F (c :: contents) max_samples Hcap Hreg)
    as (xs & Hxs & Hlen & _).
  unfold _select_diverse_samples. rewrite Hxs. simpl.
  eexists _, _, _. split; [reflexivity |]. split; [| split].
  - unfold most_common, len. rewrite length_take. lia.
  - unfold len in *. by rewrite length_fmap.
  - apply Forall_fmap, Forall_forall. intros x _. apply sample_line_shape.
Qed.

Lemma build_prompt_input_bounded_witness :
  ∃ word_count keyword_counts sample_lines,
    Basic._build_prompt_input float ["pay is low"; "no feedback"; "long hours"]
      "negative" 2
    = Ok (Summary_input "negative" (len ["pay is low"; "no feedback"; "long hours"])
            word_count keyword_counts sample_lines)
    ∧ len keyword_counts ≤ 12
    ∧ len sample_lines = Z.min (len ["pay is low"; "no feedback"; "long hours"]) 2
    ∧ Forall (λ ln, startswith "- " ln = true ∧ (String.length ln ≤ 305)%nat)
             sample_lines.
Proof.
  apply (build_prompt_input_bounded float
           ["pay is low"; "no feedback"; "long hours"] "negative" 2).
  - reflexivity.
  - apply binary64_sampling_regular; [reflexivity |].
    right. left. vm_compute. discriminate.
Defined.

Section BasicGeneration.
Context {W Vec : Type} (config : Config) (libs : Libs Vec) (client : OpenAI W Vec).


End BasicGeneration.


Example basic_side_slices_a_string :
  (Basic.insight_side float Doubles.config_with_key
     (Doubles.libs_of None
        [(Doubles.blank_recs_text,
          JObject [("summary", JString "s"); ("recommendations", JString "Raise pay")])])
     "base_theme" "pay" "negative" ["pay is low"]
     (Doubles.logging_client (Doubles.says Doubles.blank_recs_text) Doubles.embeds)
     Doubles.no_calls).2
  = Ok (JString "s", JString "Ra").
Proof. vm_compute. reflexivity. Qed.

(** ** The theme statistics of the risk and positive routes *)

Lemma strip_empty : strip "" = "".
Proof. reflexivity. Qed.

Lemma rows_of_snoc (key : string) (seen : list Analysis.Row) (item : Analysis.Row) :
  Analysis.rows_of key (seen ++ [item])
  = Analysis.rows_of key seen + (if decide (Analysis.stats_key item = key) then 1 else 0).
Proof.
  unfold Analysis.rows_of, len. rewrite filter_app, length_app.
  destruct (decide (Analysis.stats_key item = key)) as [Heq | Hne].
  - rewrite filter_cons_True by done. simpl. lia.
  - rewrite filter_cons_False by done. simpl. lia.
Qed.

Lemma rows_of_nonneg (key : string) (seen : list Analysis.Row) :
  0 ≤ Analysis.rows_of key seen.
Proof. unfold Analysis.rows_of, len. lia. Qed.

Lemma tallied_skip (theme_stats : gmap string Analysis.ThemeStats)
    (seen : list Analysis.Row) (item : Analysis.Row) :
  Analysis.stats_key item = "" →
  Analysis.tallied theme_stats seen → Analysis.tallied theme_stats (seen ++ [item]).
Proof.
  intros Hkey Hinv key. specialize (Hinv key). rewrite rows_of_snoc.
  destruct (theme_stats !! key) as [stats |].
  - destruct Hinv as (Hne & Hrest). rewrite decide_False by congruence.
    split; [done |]. by rewrite Z.add_0_r.
  - intros Hne. rewrite decide_False by congruence. rewrite Hinv by done. lia.
Qed.

Lemma tallied_count_item (theme_stats : gmap string Analysis.ThemeStats)
    (seen : list Analysis.Row) (item : Analysis.Row) :
  Analysis.tallied theme_stats seen →
  Analysis.tallied (Analysis.count_item theme_stats item) (seen ++ [item]).
Proof.
  intros Hinv. unfold Analysis.count_item.
  destruct (Analysis.row_sub_theme item) as [raw |] eqn:Hraw;
    [| apply tallied_skip; [unfold Analysis.stats_key; by rewrite Hraw | done]].
  destruct (decide (raw = "")) as [-> | Hnonempty];
    [apply tallied_skip; [unfold Analysis.stats_key; by rewrite Hraw | done] |].
  destruct (decide (strip raw = "")) as [Hblank | Hkey];
    [apply tallied_skip; [unfold Analysis.stats_key; by rewrite Hraw | done] |].
  assert (Analysis.stats_key item = strip raw) as Hitem
    by (unfold Analysis.stats_key; by rewrite Hraw).
  intros key. rewrite rows_of_snoc, Hitem.
  destruct (decide (strip raw = key)) as [<- | Hother].
  - rewrite lookup_insert_eq. specialize (Hinv (strip raw)).
    pose proof (rows_of_nonneg (strip raw) seen) as Hnn.
    split; [done |].
    destruct (theme_stats !! strip raw) as [stats |]; simpl.
    + destruct Hinv as (_ & Hc & H1 & Hsum & Hp & Hn & Hu).
      repeat case_decide; repeat case_bool_decide;
        repeat (destruct (_ <? _)); simpl; lia.
    + specialize (Hinv Hkey).
      repeat case_decide; repeat case_bool_decide;
        repeat (destruct (_ <? _)); simpl; lia.
  - rewrite lookup_insert_ne by done. specialize (Hinv key).
    destruct (theme_stats !! key) as [stats |].
    + destruct Hinv as (Hne & Hrest). split; [done |]. by rewrite Z.add_0_r.
    + intros Hne. rewrite Hinv by done. lia.
Qed.

Lemma calculate_theme_stats_tallied (data_items : list Analysis.Row) :
  Analysis.tallied (Analysis.calculate_theme_stats data_items) data_items.
Proof.
  unfold Analysis.calculate_theme_stats.
  assert (∀ theme_stats seen, Analysis.tallied theme_stats seen →
            Analysis.tallied (foldl Analysis.count_item theme_stats data_items)
              (seen ++ data_items)) as H.
  { induction data_items as [|item rest IH]; intros theme_stats seen Hinv; simpl.
    - by rewrite app_nil_r.
    - replace (seen ++ item :: rest)%list with ((seen ++ [item]) ++ rest)%list
        by (by rewrite <- app_assoc).
      apply IH. by apply tallied_count_item. }
  apply (H ∅ []). intros key. rewrite lookup_empty. intros _. reflexivity.
Qed.

(** X25.  [calculate_theme_stats] of the risk and positive routes: every
    sub-theme it reports is not empty and has been stripped; its count is
    the number of rows whose stripped sub-theme it is, so at least one;
    each of those rows is counted as exactly one of positive, negative and
    neutral, so the three add up to the count; and every row with a
    sub-theme that is not blank is counted under its stripped
    sub-theme. *)
Theorem calculate_theme_stats_balanced (data_items : list Analysis.Row) :
  let theme_stats := Analysis.calculate_theme_stats data_items in
  (∀ sub_theme stats, theme_stats !! sub_theme = Some stats →
     sub_theme ≠ ""
     ∧ (∃ item, item ∈ data_items ∧ Analysis.stats_key item = sub_theme)
     ∧ Analysis.count stats = Analysis.rows_of sub_theme data_items
     ∧ 1 ≤ Analysis.count stats
     ∧ Analysis.count stats
       = Analysis.positive stats + Analysis.negative stats + Analysis.neutral stats
     ∧ 0 ≤ Analysis.positive stats
     ∧ 0 ≤ Analysis.negative stats
     ∧ 0 ≤ Analysis.neutral stats)
  ∧ (∀ item, item ∈ data_items → Analysis.stats_key item ≠ "" →
       is_Some (theme_stats !! Analysis.stats_key item)).
Proof.
  intros theme_stats.
  pose proof (calculate_theme_stats_tallied data_items) as Hinv.
  fold theme_stats in Hinv. split.
  - intros sub_theme stats Hlook. specialize (Hinv sub_theme). rewrite Hlook in Hinv.
    destruct Hinv as (Hne & Hc & H1 & Hsum & Hp & Hn & Hu).
    repeat split; try done.
    unfold Analysis.rows_of, len in Hc.
    destruct (filter (λ item, Analysis.stats_key item = sub_theme) data_items)
      as [|item items] eqn:Hf; [simpl in Hc; lia |].
    assert (item ∈ filter (λ item, Analysis.stats_key item = sub_theme) data_items)
      as Hin by (rewrite Hf; by left).
    apply list_elem_of_filter in Hin as [Hkey Hin]. by exists item.
  - intros item Hin Hkey. specialize (Hinv (Analysis.stats_key item)).
    destruct (theme_stats !! Analysis.stats_key item) as [stats |]; [by eexists |].
    specialize (Hinv Hkey). unfold Analysis.rows_of, len in Hinv.
    assert (item ∈ filter (λ i, Analysis.stats_key i = Analysis.stats_key item) data_items)
      as Hf by (by apply list_elem_of_filter).
    destruct (filter _ data_items); [by apply elem_of_nil in Hf | simpl in Hinv; lia].
Qed.

Example calculate_theme_stats_of_four_rows :
  Analysis.calculate_theme_stats
    [ {| Analysis.row_sub_theme := Some " pay "; Analysis.row_likes := Some (-3);
         Analysis.row_sentiment := Some "positive" |};
      {| Analysis.row_sub_theme := Some "pay"; Analysis.row_likes := Some (-3);
         Analysis.row_sentiment := None |};
      {| Analysis.row_sub_theme := Some "  "; Analysis.row_likes := Some 9;
         Analysis.row_sentiment := Some "negative" |};
      {| Analysis.row_sub_theme := Some "pay"; Analysis.row_likes := None;
         Analysis.row_sentiment := Some "mixed" |} ]
  !! "pay"
  = Some {| Analysis.count := 3; Analysis.positive := 1; Analysis.negative := 1;
            Analysis.neutral := 1 |}.
Proof. vm_compute. reflexivity. Qed.

(** ** The table that [main] saves *)

Lemma Forall2_impl_elem {A B} (P Q : A → B → Prop) (l : list A) (k : list B) :
  Forall2 P l k → (∀ x y, x ∈ l → P x y → Q x y) → Forall2 Q l k.
Proof.
  induction 1 as [| x y l k Hxy Hrest IH]; intros Himpl; constructor.
  - apply Himpl; [by left | done].
  - apply IH. intros x' y' Hin. apply Himpl. by right.
Qed.

Lemma theme_key_elem (theme : string * string) (themes : list (string * string)) :
  theme ∈ themes →
  insight_key theme.1 theme.2 ∈ (λ th, insight_key th.1 th.2) <$> themes.
Proof. intros Hin. apply list_elem_of_fmap. by exists theme. Qed.

Section Recorded.
Context {W I : Type}.
Context (fetch : string → string → M W (list string * list string)).
Context (generate : string → string → list string → list string → M W I).

Lemma theme_recorded_ext (table table' before before' : gmap string I)
    (theme : string * string) (w : W) :
  table !! insight_key theme.1 theme.2 = table' !! insight_key theme.1 theme.2 →
  before !! insight_key theme.1 theme.2 = before' !! insight_key theme.1 theme.2 →
  theme_recorded fetch generate table before theme w →
  theme_recorded fetch generate table' before' theme w.
Proof.
  unfold theme_recorded. intros Ht Hb. simpl.
  destruct (fetch _ _ w) as [w1 [[pos neg] | e]]; [| congruence].
  case_decide; [congruence |].
  destruct (generate _ _ _ _ w1) as [w2 [ins | e]]; congruence.
Qed.

Lemma worlds_reached_app (l1 l2 : list (string * string)) (w : W) :
  worlds_reached fetch generate (l1 ++ l2)%list w
  = (worlds_reached fetch generate l1 w
     ++ worlds_reached fetch generate l2
          (foldl (world_after_theme fetch generate) w l1))%list.
Proof.
  revert w. induction l1 as [| theme l1 IH]; intros w; [done |].
  simpl. by rewrite IH.
Qed.

(** Two runs one after the other, over themes whose keys differ, make
    one run. *)
Lemma recorded_compose (l1 l2 : list (string * string)) (ws1 ws2 : list W)
    (before t1 t2 : gmap string I) :
  Forall2 (theme_recorded fetch generate t1 before) l1 ws1 →
  Forall2 (theme_recorded fetch generate t2 t1) l2 ws2 →
  (∀ k, k ∉ (λ th, insight_key th.1 th.2) <$> l1 → t1 !! k = before !! k) →
  (∀ k, k ∉ (λ th, insight_key th.1 th.2) <$> l2 → t2 !! k = t1 !! k) →
  (∀ k, k ∈ (λ th, insight_key th.1 th.2) <$> l1 →
        k ∉ (λ th, insight_key th.1 th.2) <$> l2) →
  Forall2 (theme_recorded fetch generate t2 before) (l1 ++ l2)%list (ws1 ++ ws2)%list
  ∧ ∀ k, k ∉ (λ th, insight_key th.1 th.2) <$> (l1 ++ l2)%list →
         t2 !! k = before !! k.
Proof.
  intros H1 H2 Hout1 Hout2 Hdisjoint. split.
  - apply Forall2_app.
    + eapply Forall2_impl_elem; [exact H1 |]. intros theme w Hin.
      apply theme_recorded_ext; [| done].
      symmetry. apply Hout2, Hdisjoint. by apply theme_key_elem.
    + eapply Forall2_impl_elem; [exact H2 |]. intros theme w Hin.
      apply theme_recorded_ext; [done |].
      apply Hout1. intros Hin1. by apply (Hdisjoint _ Hin1), theme_key_elem.
  - intros k Hk. rewrite fmap_app in Hk.
    rewrite Hout2, Hout1; [done | |]; intros Hin; apply Hk, elem_of_app; auto.
Qed.

End Recorded.

Lemma tagged_keys_NoDup (theme_type : string) (names : list string) :
  NoDup names →
  NoDup ((λ th : string * string, insight_key th.1 th.2)
           <$> ((λ t, (theme_type, t)) <$> names)).
Proof.
  intros Hnames. rewrite <- list_fmap_compose.
  apply NoDup_fmap_2_strong; [| done].
  intros x y _ _ Hxy. by apply insight_key_inj in Hxy.
Qed.

Lemma base_sub_keys_disjoint (bs ss : list string) (k : string) :
  k ∈ (λ th : string * string, insight_key th.1 th.2)
        <$> ((λ t, ("base_theme", t)) <$> bs) →
  k ∉ (λ th : string * string, insight_key th.1 th.2)
        <$> ((λ t, ("sub_theme", t)) <$> ss).
Proof.
  rewrite <- !list_fmap_compose. intros Hb Hs.
  apply list_elem_of_fmap in Hb as (x & -> & _).
  apply list_elem_of_fmap in Hs as (y & Hxy & _).
  by apply insight_key_base_sub in Hxy.
Qed.

Lemma themes_to_process_keys_NoDup (a : AdvancedMain.Args)
    (base_themes sub_themes : list string) :
  NoDup base_themes → NoDup sub_themes →
  NoDup ((λ th, insight_key th.1 th.2)
           <$> AdvancedMain.themes_to_process a base_themes sub_themes).
Proof.
  intros Hbase Hsub.
  destruct (themes_to_process_split a base_themes sub_themes)
    as (bs & ss & -> & Hbs & Hss & _).
  rewrite fmap_app. apply NoDup_app. split; [| split].
  - apply tagged_keys_NoDup. exact (sublist_NoDup _ _ Hbase Hbs).
  - apply base_sub_keys_disjoint.
  - apply tagged_keys_NoDup. exact (sublist_NoDup _ _ Hsub Hss).
Qed.

Section SavedTable.
Context {W Vec : Type} (F : Type) `{FloatArith F}.
Context (config : Config) (libs : Libs Vec) (supabase : Supabase W).
Context (client : OpenAI W Vec).

Local Notation "'fetchA'" := (get_theme_content supabase).
Local Notation "'generateA'" :=
  (λ theme_type theme_name pos neg,
     generate_insights_for_theme F config libs theme_type theme_name pos neg client).
Local Notation "'fetchB'" := (Basic.get_theme_content supabase).
Local Notation "'generateB'" :=
  (λ theme_type theme_name pos neg,
     Basic.generate_insights_for_theme F config libs theme_type theme_name
       pos neg client).

Lemma get_all_themes_NoDup (w w1 : W) (base sub : list string) :
  get_all_themes supabase w = (w1, Ok (base, sub)) → NoDup base ∧ NoDup sub.
Proof.
  unfold get_all_themes, mbind, M_mbind, M_bind, mret, M_mret, M_ret.
  destruct (select_themes supabase w) as [w' [resp_data | e]]; [| done].
  intros [= _ <- <-].
  split; apply StronglySorted_str_lt_NoDup, sorted_set_sorted.
Qed.

Lemma basic_get_all_themes_NoDup (w w1 : W) (base sub : list string) :
  Basic.get_all_themes supabase w = (w1, Ok (base, sub)) → NoDup base ∧ NoDup sub.
Proof.
  unfold Basic.get_all_themes, lift, mbind, M_mbind, M_bind, mret, M_mret, M_ret.
  destruct (select_themes supabase w) as [w' [[data |] | e]]; [| done | done].
  intros [= _ <- <-].
  split; apply StronglySorted_str_lt_NoDup, sorted_set_sorted.
Qed.

(** One pass of the loop of the cluster-based pipeline. *)
Lemma process_theme_recorded (theme : string * string)
    (acc : gmap string (Insight string (list string))) (w : W) :
  ∃ acc',
    AdvancedMain.process_theme F config libs supabase client theme acc w
    = (world_after_theme fetchA generateA w theme, Ok acc')
    ∧ theme_recorded fetchA generateA acc' acc theme w
    ∧ ∀ k, k ≠ insight_key theme.1 theme.2 → acc' !! k = acc !! k.
Proof.
  destruct theme as [tt tn].
  unfold AdvancedMain.process_theme, try_except, world_after_theme, theme_recorded.
  unfold mbind, M_mbind, M_bind, mret, M_mret, M_ret. simpl.
  destruct (get_theme_content supabase tt tn w) as [w1 [[pos neg] | e]];
    [| by eexists].
  destruct (decide (pos = [] ∧ neg = [])) as [[-> ->] | Hsome]; [by eexists |].
  destruct (generate_insights_for_theme F config libs tt tn pos neg client w1)
    as [w2 [ins | e]] eqn:Hgen.
  - exists (<[insight_key tt tn := ins]> acc).
    split; [| split].
    + destruct pos; [destruct neg |]; [by destruct Hsome | |]; by rewrite Hgen.
    + apply lookup_insert_eq.
    + intros k Hk. by apply lookup_insert_ne.
  - exists acc. split; [| done].
    destruct pos; [destruct neg |]; [by destruct Hsome | |]; by rewrite Hgen.
Qed.

Lemma process_themes_recorded (themes : list (string * string)) :
  ∀ (acc : gmap string (Insight string (list string))) (w : W),
    NoDup ((λ th, insight_key th.1 th.2) <$> themes) →
    ∃ table,
      AdvancedMain.process_themes F config libs supabase client themes acc w
      = (foldl (world_after_theme fetchA generateA) w themes, Ok table)
      ∧ Forall2 (theme_recorded fetchA generateA table acc) themes
          (worlds_reached fetchA generateA themes w)
      ∧ ∀ k, k ∉ (λ th, insight_key th.1 th.2) <$> themes → table !! k = acc !! k.
Proof.
  induction themes as [| theme rest IH]; intros acc w Hkeys.
  { exists acc. split; [done |]. split; [constructor | done]. }
  apply NoDup_cons in Hkeys as [Hfresh Hkeys].
  destruct (process_theme_recorded theme acc w) as (acc1 & Hstep & Hrec & Hother).
  destruct (IH acc1 (world_after_theme fetchA generateA w theme) Hkeys)
    as (table & Hrun & Hall & Hout).
  exists table. split.
  { simpl. by rewrite (M_bind_ok _ _ _ _ _ Hstep). }
  apply (recorded_compose fetchA generateA [theme] rest [w] _ acc acc1 table).
  - by constructor.
  - exact Hall.
  - intros k Hk. apply Hother. intros ->. apply Hk. by left.
  - exact Hout.
  - intros k Hk. apply list_elem_of_singleton in Hk as ->. exact Hfresh.
Qed.

(** One pass of either loop of the basic pipeline. *)
Lemma basic_process_theme_recorded (theme_type theme_name : string)
    (acc : gmap string (Insight json json)) (w : W) :
  ∃ acc',
    Basic.process_theme F config libs supabase client theme_type theme_name acc w
    = (world_after_theme fetchB generateB w (theme_type, theme_name), Ok acc')
    ∧ theme_recorded fetchB generateB acc' acc (theme_type, theme_name) w
    ∧ ∀ k, k ≠ insight_key theme_type theme_name → acc' !! k = acc !! k.
Proof.
  unfold Basic.process_theme, try_except, world_after_theme, theme_recorded.
  unfold mbind, M_mbind, M_bind, mret, M_mret, M_ret. simpl.
  destruct (Basic.get_theme_content supabase theme_type theme_name w)
    as [w1 [[pos neg] | e]]; [| by eexists].
  destruct (decide (pos = [] ∧ neg = [])) as [[-> ->] | Hsome]; [by eexists |].
  destruct (Basic.generate_insights_for_theme F config libs theme_type theme_name
              pos neg client w1) as [w2 [ins | e]] eqn:Hgen.
  - exists (<[insight_key theme_type theme_name := ins]> acc).
    split; [| split].
    + destruct pos; [destruct neg |]; [by destruct Hsome | |]; by rewrite Hgen.
    + apply lookup_insert_eq.
    + intros k Hk. by apply lookup_insert_ne.
  - exists acc. split; [| done].
    destruct pos; [destruct neg |]; [by destruct Hsome | |]; by rewrite Hgen.
Qed.

Lemma basic_process_themes_recorded (theme_type : string) (names : list string) :
  ∀ (acc : gmap string (Insight json json)) (w : W),
    NoDup names →
    let themes := (λ t, (theme_type, t)) <$> names in
    ∃ table,
      Basic.process_themes F config libs supabase client theme_type names acc w
      = (foldl (world_after_theme fetchB generateB) w themes, Ok table)
      ∧ Forall2 (theme_recorded fetchB generateB table acc) themes
          (worlds_reached fetchB generateB themes w)
      ∧ ∀ k, k ∉ (λ th, insight_key th.1 th.2) <$> themes → table !! k = acc !! k.
Proof.
  induction names as [| name rest IH]; intros acc w Hnames themes; subst themes.
  { exists acc. split; [done |]. split; [constructor | done]. }
  apply NoDup_cons in Hnames as [Hfresh Hnames].
  destruct (basic_process_theme_recorded theme_type name acc w)
    as (acc1 & Hstep & Hrec & Hother).
  destruct (IH acc1 (world_after_theme fetchB generateB w (theme_type, name)) Hnames)
    as (table & Hrun & Hall & Hout).
  exists table. split.
  { simpl. by rewrite (M_bind_ok _ _ _ _ _ Hstep). }
  rewrite fmap_cons.
  apply (recorded_compose fetchB generateB [(theme_type, name)]
           ((λ t, (theme_type, t)) <$> rest) [w] _ acc acc1 table).
  - by constructor.
  - exact Hall.
  - intros k Hk. apply Hother. intros ->. apply Hk. by left.
  - exact Hout.
  - intros k Hk. apply list_elem_of_singleton in Hk as ->. simpl.
    rewrite <- list_fmap_compose. intros Hin.
    apply list_elem_of_fmap in Hin as (y & Hxy & Hy).
    apply insight_key_inj in Hxy as ->. by apply Hfresh.
Qed.

(** C2, as amended.  The table that [main] saves, in either pipeline,
    once the themes are listed.  The loop reaches every theme of the
    processed set, one after the other, and returns.  For each theme of
    the set the table holds, under the key of the theme, the record that
    the generation returned, when the fetch in the world the loop had
    reached gave a positive or a negative comment and the generation
    returned; it holds no record under that key when the theme had no
    comment, when the fetch raised or when the generation raised.  The
    table holds nothing under any other key.  The processed set is the
    selection of the command line in the cluster-based pipeline, and all
    the listed base themes followed by all the listed sub-themes in the
    basic one. *)
Theorem main_loop_writes_themes_with_comments (a : AdvancedMain.Args)
    (api_key : string) (w : W) :
  OPENAI_API_KEY config = Some api_key → api_key ≠ "" →
  (∀ w1 base_themes sub_themes,
     get_all_themes supabase w = (w1, Ok (base_themes, sub_themes)) →
     let themes := AdvancedMain.themes_to_process a base_themes sub_themes in
     let fetch := get_theme_content supabase in
     let generate := λ theme_type theme_name pos neg,
       generate_insights_for_theme F config libs theme_type theme_name
         pos neg client in
     ∃ table,
       AdvancedMain.main F config libs supabase a client w
       = (foldl (world_after_theme fetch generate) w1 themes, Ok (Saved table))
       ∧ Forall2 (theme_recorded fetch generate table ∅) themes
           (worlds_reached fetch generate themes w1)
       ∧ ∀ k, k ∉ (λ th, insight_key th.1 th.2) <$> themes → table !! k = None)
  ∧ (∀ w1 base_themes sub_themes,
       Basic.get_all_themes supabase w = (w1, Ok (base_themes, sub_themes)) →
       let themes :=
         (((λ t, ("base_theme", t)) <$> base_themes)
          ++ ((λ t, ("sub_theme", t)) <$> sub_themes))%list in
       let fetch := Basic.get_theme_content supabase in
       let generate := λ theme_type theme_name pos neg,
         Basic.generate_insights_for_theme F config libs theme_type theme_name
           pos neg client in
       ∃ table,
         Basic.main F config libs supabase client w
         = (foldl (world_after_theme fetch generate) w1 themes, Ok (Saved table))
         ∧ Forall2 (theme_recorded fetch generate table ∅) themes
             (worlds_reached fetch generate themes w1)
         ∧ ∀ k, k ∉ (λ th, insight_key th.1 th.2) <$> themes → table !! k = None).
Proof.
  intros Hkey Hne. destruct api_key as [| c api_key]; [done |]. split.
  - intros w1 base_themes sub_themes Hthemes themes fetch generate.
    subst themes fetch generate.
    destruct (get_all_themes_NoDup _ _ _ _ Hthemes) as [Hbase Hsub].
    destruct (process_themes_recorded
                (AdvancedMain.themes_to_process a base_themes sub_themes) ∅ w1)
      as (table & Hrun & Hall & Hout).
    { by apply themes_to_process_keys_NoDup. }
    exists table. split; [| split; [exact Hall |]].
    + unfold AdvancedMain.main. rewrite Hkey.
      rewrite (M_bind_ok _ _ _ _ _ Hthemes). simpl.
      by rewrite (M_bind_ok _ _ _ _ _ Hrun).
    + intros k Hk. rewrite (Hout k Hk). apply lookup_empty.
  - intros w1 base_themes sub_themes Hthemes themes fetch generate.
    subst themes fetch generate.
    destruct (basic_get_all_themes_NoDup _ _ _ _ Hthemes) as [Hbase Hsub].
    destruct (basic_process_themes_recorded "base_theme" base_themes ∅ w1 Hbase)
      as (table1 & Hrun1 & Hall1 & Hout1).
    destruct (basic_process_themes_recorded "sub_theme" sub_themes table1
                (foldl (world_after_theme fetchB generateB) w1
                   ((λ t, ("base_theme", t)) <$> base_themes)) Hsub)
      as (table2 & Hrun2 & Hall2 & Hout2).
    destruct (recorded_compose fetchB generateB _ _ _ _ ∅ table1 table2
                Hall1 Hall2 Hout1 Hout2 (base_sub_keys_disjoint _ _))
      as [Hall Hout].
    exists table2. split; [| split].
    + unfold Basic.main. rewrite Hkey.
      rewrite (M_bind_ok _ _ _ _ _ Hthemes). simpl.
      rewrite (M_bind_ok _ _ _ _ _ Hrun1), (M_bind_ok _ _ _ _ _ Hrun2).
      by rewrite foldl_app.
    + by rewrite worlds_reached_app.
    + intros k Hk. rewrite (Hout k Hk). apply lookup_empty.
Qed.

End SavedTable.

Lemma main_loop_writes_themes_with_comments_witness :
  let libs := Doubles.libs_of None [] in
  let store :=
    Doubles.store_by_theme
      [Doubles.theme_row "pay" "salary"; Doubles.theme_row "perks" "salary"]
      (λ name, if decide (name = "pay")
               then [Doubles.comment_row "good pay" "positive"] else []) in
  let client := Doubles.logging_client (Doubles.says "- good pay") Doubles.embeds in
  let a := {| AdvancedMain.arg_type := AdvancedMain.type_base;
              AdvancedMain.arg_limit := None;
              AdvancedMain.arg_theme := None |} in
  let themes := [("base_theme", "pay"); ("base_theme", "perks")] in
  let fetch := get_theme_content store in
  let generate := λ theme_type theme_name pos neg,
    generate_insights_for_theme float Doubles.config_with_key libs
      theme_type theme_name pos neg client in
  ∃ table,
    AdvancedMain.main float Doubles.config_with_key libs store a client Doubles.no_calls
    = (foldl (world_after_theme fetch generate) Doubles.no_calls themes,
       Ok (Saved table))
    ∧ Forall2 (theme_recorded fetch generate table ∅) themes
        (worlds_reached fetch generate themes Doubles.no_calls)
    ∧ ∀ k, k ∉ (λ th, insight_key th.1 th.2) <$> themes → table !! k = None.
Proof.
  intros libs store client a themes fetch generate.
  destruct (main_loop_writes_themes_with_comments float Doubles.config_with_key libs
              store client a "sk-test" Doubles.no_calls eq_refl)
    as [Hadvanced _]; [discriminate |].
  exact (Hadvanced Doubles.no_calls ["pay"; "perks"] ["salary"] eq_refl).
Defined.

(** In that run the table that either [main] saves holds the record of
    the theme that has a comment and no record for the theme that has
    none. *)
Example main_saves_themes_with_comments :
  let libs := Doubles.libs_of None [] in
  let store :=
    Doubles.store_by_theme
      [Doubles.theme_row "pay" "salary"; Doubles.theme_row "perks" "salary"]
      (λ name, if decide (name = "pay")
               then [Doubles.comment_row "good pay" "positive"] else []) in
  let client := Doubles.logging_client (Doubles.says "- good pay") Doubles.embeds in
  let a := {| AdvancedMain.arg_type := AdvancedMain.type_base;
              AdvancedMain.arg_limit := None;
              AdvancedMain.arg_theme := None |} in
  match (AdvancedMain.main float Doubles.config_with_key libs store a client
           Doubles.no_calls).2 with
  | Ok (Saved table) =>
      table !! insight_key "base_theme" "pay"
      = Some {| positive_summary := "- good pay"; negative_summary := "";
                positive_recommendations := []; negative_recommendations := [] |}
      ∧ table !! insight_key "base_theme" "perks" = None
  | _ => False
  end
  ∧ match (Basic.main float Doubles.config_with_key libs store client
             Doubles.no_calls).2 with
    | Ok (Saved table) =>
        table !! insight_key "base_theme" "pay"
        = Some {| positive_summary := JString "- good pay";
                  negative_summary := JString "";
                  positive_recommendations := JArray [];
                  negative_recommendations := JArray [] |}
        ∧ table !! insight_key "base_theme" "perks" = None
        ∧ table !! insight_key "sub_theme" "salary" = None
    | _ => False
    end.
Proof. vm_compute. repeat split. Qed.

(** C2 as stated fails: the theme is in the processed set, its only
    comment is neither positive nor negative, and the table saved by
    either [main] has no record under its key. *)
Lemma theme_without_comments_counterexample :
  let store :=
    Doubles.store_of [Doubles.theme_row "pay" "salary"]
      [Doubles.comment_row "it is a job" "neutral"] in
  let client := Doubles.logging_client (Doubles.says "- a job") Doubles.embeds in
  AdvancedMain.themes_to_process
    {| AdvancedMain.arg_type := AdvancedMain.type_all;
       AdvancedMain.arg_limit := None;
       AdvancedMain.arg_theme := None |} ["pay"] ["salary"]
  = [("base_theme", "pay"); ("sub_theme", "salary")]
  ∧ (∃ w' table,
       AdvancedMain.main float Doubles.config_with_key (Doubles.libs_of None []) store
         {| AdvancedMain.arg_type := AdvancedMain.type_all;
            AdvancedMain.arg_limit := None;
            AdvancedMain.arg_theme := None |} client Doubles.no_calls
       = (w', Ok (Saved table))
       ∧ table !! insight_key "base_theme" "pay" = None)
  ∧ (∃ w' table,
       Basic.main float Doubles.config_with_key (Doubles.libs_of None []) store client
         Doubles.no_calls
       = (w', Ok (Saved table))
       ∧ table !! insight_key "base_theme" "pay" = None).
Proof.
  split; [reflexivity |].
  split; (eexists _, _; split; [vm_compute; reflexivity | reflexivity]).
Qed.
